(** * bdns_core: a shallow embedding of the shared BDNS library

    The development follows the Python sources module by module:

    - [Py]: the fragment of Python the embedded functions rely on
      (text as sequences of code points, truthiness, exceptions);
    - [NifUtils]: [bdns_core/db/nif_utils.py];
    - [DbUtils]: [bdns_core/db/utils.py] ([normalizar]);
    - [Equivalencia]: [bdns_core/business/equivalencia.py];
    - [JwtAuth]: [bdns_core/auth/jwt_auth.py], over a symbolic model of the
      JSON Web Token codec;
    - [Service]: [UserService] of [bdns_core/auth/service.py], over the
      user table as a finite map;
    - [Models]: the derived properties of [Concesion] in
      [bdns_core/db/models.py];
    - [Organos]: [buscar_organo_id] of [bdns_core/db/utils.py];
    - [Dependencies]: [bdns_core/auth/dependencies.py].

    The first part of the file holds the embedded definitions, the second
    part the lemmas and theorems about them. *)

From Stdlib Require Import ZArith NArith List Ascii String Lia Bool.
From Stdlib Require Import Floats.SpecFloat.
From stdpp Require Import base option list gmap strings.

(* ===================================================================== *)
(** * Python basics *)
(* ===================================================================== *)

Module Py.

(** Exceptions the embedded code can raise. *)
Inductive exn :=
| IndexError
| KeyError
| TypeError
| ValueError
| OverflowError
| JWTError
| ValidationError
| IntegrityError.

(** The outcome of a call: a returned value or a raised exception. *)
Inductive outcome (A : Type) :=
| Returns (a : A)
| Raises (e : exn).
Arguments Returns {A} a.
Arguments Raises {A} e.

Definition bind {A B} (o : outcome A) (k : A -> outcome B) : outcome B :=
  match o with
  | Returns a => k a
  | Raises e => Raises e
  end.

(** A [str] is a sequence of Unicode code points. *)
Abbreviation str := (list N).

(** Decoding of the UTF-8 bytes of a literal into code points, so that the
    literals of the source can be written as they are. *)
Fixpoint utf8_decode (bs : list N) : list N :=
  match bs with
  | [] => []
  | b :: r =>
    if (b <? 128)%N then b :: utf8_decode r
    else if (b <? 224)%N then
      match r with
      | b1 :: r1 => ((b - 192) * 64 + (b1 - 128))%N :: utf8_decode r1
      | _ => []
      end
    else if (b <? 240)%N then
      match r with
      | b1 :: b2 :: r2 =>
        ((b - 224) * 4096 + (b1 - 128) * 64 + (b2 - 128))%N :: utf8_decode r2
      | _ => []
      end
    else
      match r with
      | b1 :: b2 :: b3 :: r3 =>
        ((b - 240) * 262144 + (b1 - 128) * 4096 + (b2 - 128) * 64
         + (b3 - 128))%N :: utf8_decode r3
      | _ => []
      end
  end.

Definition lit (s : string) : str :=
  utf8_decode (map N_of_ascii (list_ascii_of_string s)).

(** The Unicode character database behind [str.upper], [str.isspace] (used
    by [str.strip] and by the regular expression class [\s]),
    [str.isdigit] and [unicodedata.normalize("NFKD", _)].  It is data of
    the interpreter, not of this repository, and is taken as a parameter. *)
Record unicode := {
  to_upper : N -> list N;
  is_space : N -> bool;
  is_digit : N -> bool;
  nfkd : str -> str
}.

(** The ASCII rows of the database. *)
Definition ascii_upper (c : N) : N :=
  if ((97 <=? c) && (c <=? 122))%N then (c - 32)%N else c.
Definition ascii_space (c : N) : bool :=
  ((9 <=? c) && (c <=? 13) || (28 <=? c) && (c <=? 32))%N.
Definition ascii_digit (c : N) : bool := ((48 <=? c) && (c <=? 57))%N.
Definition is_ascii (c : N) : bool := (c <? 128)%N.
Definition all_ascii (s : list N) : Prop := Forall (fun c => (c < 128)%N) s.

(** What every real database satisfies on ASCII text. *)
Record ascii_compatible (ud : unicode) : Prop := {
  upper_ascii : forall c, (c < 128)%N -> to_upper ud c = [ascii_upper c];
  space_ascii : forall c, (c < 128)%N -> is_space ud c = ascii_space c;
  digit_ascii : forall c, (c < 128)%N -> is_digit ud c = ascii_digit c;
  nfkd_ascii : forall s, forallb is_ascii s = true -> nfkd ud s = s
}.

Section Str.
Variable ud : unicode.

(** [s.upper()] *)
Definition upper (s : str) : str := flat_map (to_upper ud) s.

(** [s.lstrip()], [s.rstrip()], [s.strip()] *)
Fixpoint lstrip (s : str) : str :=
  match s with
  | [] => []
  | c :: r => if is_space ud c then lstrip r else s
  end.

Fixpoint rstrip (s : str) : str :=
  match s with
  | [] => []
  | c :: r =>
    match rstrip r with
    | [] => if is_space ud c then [] else [c]
    | r' => c :: r'
    end
  end.

Definition strip (s : str) : str := rstrip (lstrip s).

(** [s.isdigit()]: at least one character, all of them digits. *)
Definition isdigit (s : str) : bool :=
  match s with
  | [] => false
  | _ => forallb (is_digit ud) s
  end.
End Str.

(** [c in s] for a one-character [c]. *)
Definition contains (c : N) (s : str) : bool := existsb (N.eqb c) s.

(** [s[i]] for [i >= 0]; out of range raises [IndexError]. *)
Definition getitem (s : str) (i : nat) : outcome str :=
  match nth_error s i with
  | Some c => Returns [c]
  | None => Raises IndexError
  end.

Definition str_eqb (a b : str) : bool := bool_decide (a = b).

(** Truthiness of an optional string: [None] and [""] are falsy. *)
Definition truthy (o : option str) : bool :=
  match o with
  | None | Some [] => false
  | Some _ => true
  end.

(** A dict literal with string keys, in source order. *)
Definition dict_contains {V} (d : list (str * V)) (k : str) : bool :=
  existsb (fun kv => str_eqb (fst kv) k) d.

Definition dict_getitem {V} (d : list (str * V)) (k : str) : outcome V :=
  match find (fun kv => str_eqb (fst kv) k) d with
  | Some kv => Returns (snd kv)
  | None => Raises KeyError
  end.

Arguments upper : simpl never.
Arguments strip : simpl never.
Arguments isdigit : simpl never.
Arguments contains : simpl never.
Arguments getitem : simpl never.
Arguments str_eqb : simpl never.
Arguments dict_contains : simpl never.
Arguments dict_getitem : simpl never.

(** A small database for running the embedded code: ASCII, and the
    decomposition of the acute-accented Spanish vowels. *)
Definition decompose (c : N) : list N :=
  (if c =? 225 then [97; 769] else if c =? 233 then [101; 769]
   else if c =? 237 then [105; 769] else if c =? 243 then [111; 769]
   else if c =? 250 then [117; 769] else if c =? 193 then [65; 769]
   else if c =? 201 then [69; 769] else if c =? 205 then [73; 769]
   else if c =? 211 then [79; 769] else if c =? 218 then [85; 769]
   else if c =? 241 then [110; 771] else if c =? 209 then [78; 771]
   else [c])%N.

Definition basic_unicode : unicode := {|
  to_upper := fun c => [ascii_upper c];
  is_space := ascii_space;
  is_digit := ascii_digit;
  nfkd := flat_map decompose
|}.

End Py.

Import Py.

(** [outcome] is a monad; stdpp's [x ← m; k] sequences calls that may
    raise. *)
#[global] Instance outcome_ret : MRet outcome := fun A a => Returns a.
#[global] Instance outcome_bind : MBind outcome := fun A B k o => Py.bind o k.

(* ===================================================================== *)
(** * db/nif_utils.py *)
(* ===================================================================== *)

Module NifUtils.

Definition FORMAS_JURIDICAS_NIF : list (str * str) := [
  (lit "A", lit "Sociedad Anónima (SA)");
  (lit "B", lit "Sociedad de Responsabilidad Limitada (SL)");
  (lit "C", lit "Sociedad Colectiva");
  (lit "D", lit "Sociedad Comanditaria");
  (lit "E", lit "Comunidades de Bienes");
  (lit "F", lit "Sociedad Cooperativa");
  (lit "G", lit "Asociaciones");
  (lit "H", lit "Comunidades de Propietarios en régimen de propiedad horizontal");
  (lit "J", lit "Sociedades Civiles (con o sin personalidad jurídica)");
  (lit "N", lit "Entidades no residentes en España");
  (lit "P", lit "Corporaciones Locales");
  (lit "Q", lit "Organismos Públicos");
  (lit "R", lit "Congregaciones e instituciones religiosas");
  (lit "S", lit "Órganos de la Administración del Estado y Comunidades Autónomas");
  (lit "U", lit "Uniones Temporales de Empresas (UTE)");
  (lit "V", lit "Otros tipos no definidos");
  (lit "W", lit "Establecimientos permanentes de entidades no residentes en España")
].

Definition PERSONA_FISICA : str := lit "Persona física".
Definition DESCONOCIDO : str := lit "Desconocido".

Section WithUnicode.
Variable ud : unicode.

Definition interpretar_forma_juridica_desde_nif (nif : option str)
  : outcome str :=
  if negb (truthy nif) then Returns DESCONOCIDO
  else
    let nif_clean := upper ud (strip ud (default [] nif)) in
    (* Caso 1: NIF anonimizado *)
    if contains 42 nif_clean then Returns PERSONA_FISICA
    (* Caso 2: NIF vacío o demasiado corto *)
    else if (length nif_clean <? 1)%nat then Returns DESCONOCIDO
    else
      primer_char ← getitem nif_clean 0;
      (* Caso 3: persona jurídica *)
      if dict_contains FORMAS_JURIDICAS_NIF primer_char
      then dict_getitem FORMAS_JURIDICAS_NIF primer_char
      (* Caso 4: persona física *)
      else if isdigit ud primer_char then Returns PERSONA_FISICA
      (* Caso 5: NIE *)
      else if existsb (str_eqb primer_char) [lit "X"; lit "Y"; lit "Z"]
      then Returns PERSONA_FISICA
      (* Caso 6: letra no reconocida *)
      else Returns DESCONOCIDO.

Definition es_persona_fisica (nif : option str) : outcome bool :=
  forma_juridica ← interpretar_forma_juridica_desde_nif nif;
  Returns (str_eqb forma_juridica PERSONA_FISICA).

Definition es_persona_juridica (nif : option str) : outcome bool :=
  forma_juridica ← interpretar_forma_juridica_desde_nif nif;
  Returns (negb (existsb (str_eqb forma_juridica)
                         [PERSONA_FISICA; DESCONOCIDO])).

Definition obtener_codigo_natural_desde_nif (nif : option str)
  : outcome str :=
  if negb (truthy nif) then Returns (lit "?")
  else
    let nif_clean := upper ud (strip ud (default [] nif)) in
    if contains 42 nif_clean then Returns (lit "*")
    else if (length nif_clean <? 1)%nat then Returns (lit "?")
    else
      primer_char ← getitem nif_clean 0;
      if dict_contains FORMAS_JURIDICAS_NIF primer_char
      then Returns primer_char
      else if isdigit ud primer_char then Returns (lit "*")
      else if existsb (str_eqb primer_char) [lit "X"; lit "Y"; lit "Z"]
      then Returns (lit "*")
      else Returns (lit "?").
Definition obtener_tipo_entidad_desde_nif (nif : option str)
  : outcome str :=
  if negb (truthy nif) then Returns DESCONOCIDO
  else
    let nif_clean := upper ud (strip ud (default [] nif)) in
    if (length nif_clean <? 1)%nat || contains 42 nif_clean
    then Returns DESCONOCIDO
    else
      primer_char ← getitem nif_clean 0;
      (* Entidades públicas *)
      if existsb (str_eqb primer_char) [lit "P"; lit "Q"; lit "S"]
      then Returns (lit "Pública")
      (* Entidades privadas *)
      else if dict_contains FORMAS_JURIDICAS_NIF primer_char
      then Returns (lit "Privada")
      (* Personas físicas *)
      else if isdigit ud primer_char
              || existsb (str_eqb primer_char) [lit "X"; lit "Y"; lit "Z"]
      then Returns (lit "Privada")
      else Returns DESCONOCIDO.
End WithUnicode.

(** The strings the classification can return: the seventeen values of the
    table and the two fixed answers. *)
Definition RESULTADOS : list str :=
  map snd FORMAS_JURIDICAS_NIF ++ [PERSONA_FISICA; DESCONOCIDO].

End NifUtils.

(* ===================================================================== *)
(** * db/utils.py *)
(* ===================================================================== *)

Module DbUtils.

(** The punctuation class [[.,:;]] of the second pattern. *)
Definition is_punct (c : N) : bool :=
  ((c =? 46) || (c =? 44) || (c =? 58) || (c =? 59))%N.

Section WithUnicode.
Variable ud : unicode.

(** [re.sub(r"\s+", " ", texto)]: every maximal run of whitespace is
    replaced by one space.  [en_racha] tells that the previous character
    belonged to a run that has already been replaced. *)
Fixpoint re_sub_espacios (en_racha : bool) (s : str) : str :=
  match s with
  | [] => []
  | c :: r =>
    if is_space ud c
    then (if en_racha then re_sub_espacios true r
          else 32%N :: re_sub_espacios true r)
    else c :: re_sub_espacios false r
  end.

(** Does a punctuation mark follow, once the whitespace in front of [r]
    is skipped? *)
Definition sigue_puntuacion (r : str) : bool :=
  match lstrip ud r with
  | p :: _ => is_punct p
  | [] => false
  end.

(** [re.sub(r"\s+([.,:;])", r"\1", texto)]: a run of whitespace that is
    immediately followed by a punctuation mark is deleted, the mark is
    kept; a whitespace character is dropped exactly when the rest of
    its run is followed by such a mark. *)
Fixpoint re_sub_espacio_puntuacion (s : str) : str :=
  match s with
  | [] => []
  | c :: r =>
    if is_space ud c && sigue_puntuacion r
    then re_sub_espacio_puntuacion r
    else c :: re_sub_espacio_puntuacion r
  end.

(** [texto.encode("ASCII", "ignore").decode("ASCII")] *)
Definition ascii_ignore (s : str) : str := List.filter is_ascii s.

Definition normalizar (texto : option str) : option str :=
  if negb (truthy texto) then None
  else
    let texto := ascii_ignore (nfkd ud (default [] texto)) in
    let texto := strip ud (upper ud texto) in
    let texto := re_sub_espacios false texto in
    let texto := re_sub_espacio_puntuacion texto in
    Some texto.

(** Shapes of the intermediate texts, used to state what each step
    establishes. *)

(** The text does not start with whitespace. *)
Definition sin_espacio_inicial (s : str) : Prop :=
  match s with
  | [] => True
  | c :: _ => is_space ud c = false
  end.

(** Every whitespace character is one space, and the character after it
    exists, is no whitespace and does not satisfy [p]. *)
Fixpoint espaciado (p : N -> bool) (s : str) : Prop :=
  match s with
  | [] => True
  | c :: r =>
    (is_space ud c = true ->
     c = 32%N /\ match r with
                 | [] => False
                 | d :: _ => is_space ud d = false /\ p d = false
                 end)
    /\ espaciado p r
  end.
End WithUnicode.

(** Upper-case ASCII characters. *)
Definition mayuscula_ascii (c : N) : Prop :=
  (c < 128)%N /\ ascii_upper c = c.

End DbUtils.

(* ===================================================================== *)
(** * business/equivalencia.py *)
(* ===================================================================== *)

Module Equivalencia.

(** Python's [float] is IEEE 754 binary64. *)
Definition float := spec_float.
Definition fadd : float -> float -> float := SFadd 53 1024.
Definition fsub : float -> float -> float := SFsub 53 1024.
Definition fmul : float -> float -> float := SFmul 53 1024.
Definition fdiv : float -> float -> float := SFdiv 53 1024.
Definition feqb : float -> float -> bool := SFeqb.
Definition fltb : float -> float -> bool := SFltb.
Definition fleb : float -> float -> bool := SFleb.

(** The float nearest to the integer [z], ties to even; it writes the
    float literals of the module, such as [300_000.0]. *)
Definition of_int (z : Z) : float := binary_normalize 53 1024 z 0 false.

(** The conversion of an [int] operand in mixed arithmetic: the nearest
    float, or [OverflowError] ("int too large to convert to float") when
    the nearest float would be infinite. *)
Definition float_of_int (z : Z) : outcome float :=
  match of_int z with
  | S754_infinity _ => Raises OverflowError
  | f => Returns f
  end.

(** The literals of the module. *)
Definition f0 : float := S754_zero false.                            (* 0.0 *)
Definition f0_15 : float := S754_finite false 5404319552844595 (-55). (* 0.15 *)
Definition f0_25 : float := S754_finite false 4503599627370496 (-54). (* 0.25 *)
Definition f0_05 : float := S754_finite false 7205759403792794 (-57). (* 0.05 *)
Definition f100 : float := of_int 100.                               (* 100.0 *)
Definition f300000 : float := of_int 300000.                         (* 300_000.0 *)

(** Values a [metadata] dict can hold. *)
Inductive value :=
| VNone
| VInt (z : Z)
| VFloat (f : float)
| VStr (s : string).

(** [v < n] for a small [int] literal [n]: two [int]s compare as integers,
    a [float] compares with the integer by value. *)
Definition lt_int (v : value) (n : Z) : outcome bool :=
  match v with
  | VInt z => Returns (z <? n)%Z
  | VFloat f => Returns (fltb f (of_int n))
  | VNone | VStr _ => Raises TypeError
  end.

(** [v / f] for a [float] [f]. *)
Definition div_float (v : value) (f : float) : outcome float :=
  match v with
  | VInt z => x ← float_of_int z; Returns (fdiv x f)
  | VFloat x => Returns (fdiv x f)
  | VNone | VStr _ => Raises TypeError
  end.

Record date := { year : Z; month : Z; day : Z }.

(** [instrumento] is a plain [str], as it is annotated.  The members of
    the [str] enumeration [TipoInstrumento] that the function compares it
    with are equal to their values, which are these. *)
Definition SUBVENCION_DIRECTA : string := "subvencion_directa".
Definition PRESTAMO : string := "prestamo".
Definition GARANTIA : string := "garantia".
Definition CAPITAL : string := "capital".
Definition VENTAJA_FISCAL : string := "ventaja_fiscal".

Definition _calcular_equivalente_prestamo_placeholder
    (importe_nominal : float) (fecha_concesion : date)
    (metadata : gmap string value) : outcome float :=
  let plazo_meses := default (VInt 60) (metadata !! "plazo_meses") in
  corto ← lt_int plazo_meses 60;
  if (corto : bool) then Returns (fmul importe_nominal f0_15)
  else Returns (fmul importe_nominal f0_25).

Definition _calcular_equivalente_garantia_placeholder
    (importe_nominal : float) (fecha_concesion : date)
    (metadata : gmap string value) : outcome float :=
  porcentaje_garantia ←
    div_float (default (VInt 80) (metadata !! "porcentaje_garantia")) f100;
  Returns (fmul (fmul importe_nominal porcentaje_garantia) f0_05).

(** The message of [logger.warning] in the last branch. *)
Definition aviso_instrumento (instrumento : string) : string :=
  "Instrumento no reconocido '" +:+ instrumento
    +:+ "'. Usando importe nominal como equivalente.".

(** The call returns its result and the warnings it logged. *)
Definition calcular_importe_equivalente
    (importe_nominal : option float) (fecha_concesion : date)
    (regimen_ayuda instrumento : option string)
    (metadata : option (gmap string value))
  : outcome float * list string :=
  match importe_nominal with
  | None => (Returns f0, [])
  | Some importe_nominal =>
    if feqb importe_nominal f0 then (Returns f0, [])
    else
      let metadata := default ∅ metadata in
      match instrumento with
      | None => (Returns importe_nominal, [])
      | Some instrumento =>
        if String.eqb instrumento SUBVENCION_DIRECTA
        then (Returns importe_nominal, [])
        else if String.eqb instrumento PRESTAMO
        then (_calcular_equivalente_prestamo_placeholder
                importe_nominal fecha_concesion metadata, [])
        else if String.eqb instrumento GARANTIA
        then (_calcular_equivalente_garantia_placeholder
                importe_nominal fecha_concesion metadata, [])
        else if String.eqb instrumento CAPITAL
        then (Returns importe_nominal, [])
        else if String.eqb instrumento VENTAJA_FISCAL
        then (Returns importe_nominal, [])
        else (Returns importe_nominal, [aviso_instrumento instrumento])
      end
  end.

(** [max(a, b)]: the first argument unless the second is greater. *)
Definition py_max (a b : float) : float := if fltb a b then b else a.

Record limite_resultado := {
  valido : bool;
  acumulado_previo : float;
  acumulado_total : float;
  limite_aplicable : float;
  margen_restante : float
}.

(** In [max(0, ...)] the first argument is the [int] 0, which compares
    and prints as the number zero; it is embedded as [0.0]. *)
Definition validar_limite_de_minimis
    (beneficiario_id : string) (importe_equivalente_nuevo : float)
    (fecha_concesion : date) (periodo_ventana_anos : Z)
  : limite_resultado :=
  let acumulado_previo := f0 in
  let acumulado_total := fadd acumulado_previo importe_equivalente_nuevo in
  let limite_aplicable := f300000 in
  {| valido := fleb acumulado_total limite_aplicable;
     acumulado_previo := acumulado_previo;
     acumulado_total := acumulado_total;
     limite_aplicable := limite_aplicable;
     margen_restante := py_max f0 (fsub limite_aplicable acumulado_total) |}.

End Equivalencia.

(* ===================================================================== *)
(** * auth/jwt_auth.py *)
(* ===================================================================== *)

(** The JSON Web Token codec ([python-jose]) is a dependency of the
    repository.  It is modelled symbolically: a token is either a claim
    set under a key and an algorithm, or text that is no well-formed token.
    Only the holder of the key can produce a token that verifies under it.
    Instants ([datetime]) and durations ([timedelta]) are counted in
    microseconds, their resolution; a function reads the clock once. *)
Module Jose.

(** JSON values of a claim set; [JNull] is Python's [None]. *)
Inductive json :=
| JNull
| JBool (b : bool)
| JInt (z : Z)
| JStr (s : string).

#[global] Instance json_eq_dec : EqDecision json.
Proof. solve_decision. Defined.

Inductive token :=
| Signed (key algorithm : string) (claims : gmap string json)
| Garbled (raw : string).

(** [timegm(dt.utctimetuple())]: the whole seconds of an instant, its
    microseconds dropped. *)
Definition timegm (dt : Z) : Z := (dt / 1000000)%Z.

(** [jwt.encode(claims, key, algorithm=algorithm)]; a [datetime] under
    [exp] is written as its [timegm] by the caller's model. *)
Definition encode (claims : gmap string json) (key algorithm : string)
  : token := Signed key algorithm claims.

Definition is_str (v : json) : bool :=
  match v with
  | JStr _ => true
  | _ => false
  end.

Section Codec.
(** Python's [int] on a [str]: the number it reads, or [None] where it
    raises [ValueError]. *)
Variable int_str : string -> option Z.

(** [int(v)] *)
Definition int (v : json) : outcome Z :=
  match v with
  | JNull => Raises TypeError
  | JBool b => Returns (if b then 1 else 0)%Z
  | JInt z => Returns z
  | JStr s =>
    match int_str s with
    | Some z => Returns z
    | None => Raises ValueError
    end
  end.

(** [try: int(v) except ValueError: raise JWTClaimsError(...)] *)
Definition int_claim (v : json) : outcome Z :=
  match int v with
  | Raises ValueError => Raises JWTError
  | o => o
  end.

Definition _validate_iat (claims : gmap string json) : outcome unit :=
  match claims !! "iat" with
  | None => Returns tt
  | Some v => _ ← int_claim v; Returns tt
  end.

(** [now] is the reading of [datetime.utcnow()]; the leeway is zero. *)
Definition _validate_nbf (now : Z) (claims : gmap string json)
  : outcome unit :=
  match claims !! "nbf" with
  | None => Returns tt
  | Some v =>
    nbf ← int_claim v;
    if (timegm now <? nbf)%Z then Raises JWTError else Returns tt
  end.

Definition _validate_exp (now : Z) (claims : gmap string json)
  : outcome unit :=
  match claims !! "exp" with
  | None => Returns tt
  | Some v =>
    exp ← int_claim v;
    if (exp <? timegm now)%Z then Raises JWTError else Returns tt
  end.

(** A claim that cannot pass when present: [aud] with no audience
    supplied, [at_hash] with no access token supplied. *)
Definition _validate_ausente (k : string) (claims : gmap string json)
  : outcome unit :=
  match claims !! k with
  | None => Returns tt
  | Some _ => Raises JWTError
  end.

(** [sub] and [jti] must be strings. *)
Definition _validate_str (k : string) (claims : gmap string json)
  : outcome unit :=
  match claims !! k with
  | None => Returns tt
  | Some v => if is_str v then Returns tt else Raises JWTError
  end.

(** [_validate_claims] when neither audience, issuer, subject nor access
    token is supplied, in the order of the library. *)
Definition _validate_claims (now : Z) (claims : gmap string json)
  : outcome unit :=
  _ ← _validate_iat claims;
  _ ← _validate_nbf now claims;
  _ ← _validate_exp now claims;
  _ ← _validate_ausente "aud" claims;
  _ ← _validate_str "sub" claims;
  _ ← _validate_str "jti" claims;
  _validate_ausente "at_hash" claims.

(** [jwt.decode(token, key, algorithms=algorithms)] at clock [now];
    [JWTError] stands for the error and its subclasses. *)
Definition decode (now : Z) (t : token) (key : string)
    (algorithms : list string) : outcome (gmap string json) :=
  match t with
  | Garbled _ => Raises JWTError
  | Signed k a claims =>
    if String.eqb k key && existsb (String.eqb a) algorithms
    then _ ← _validate_claims now claims; Returns claims
    else Raises JWTError
  end.
End Codec.

(** A reading of plain decimal text (digits after an optional minus
    sign), for running the code; the other spellings that [int] reads are
    left unread by it. *)
Fixpoint digitos (s : string) (acc : Z) : option Z :=
  match s with
  | EmptyString => Some acc
  | String c r =>
    let n := N_of_ascii c in
    if ((48 <=? n) && (n <=? 57))%N
    then digitos r (10 * acc + Z.of_N (n - 48))%Z
    else None
  end.

Definition int_str_ejemplo (s : string) : option Z :=
  match s with
  | EmptyString => None
  | String "-" r => match r with
                    | EmptyString => None
                    | _ => Z.opp <$> digitos r 0
                    end
  | _ => digitos s 0
  end.

End Jose.

Module JwtAuth.
Import Jose.

Definition SECRET_KEY : string :=
  "tu-clave-secreta-muy-segura-cambiar-en-produccion".
Definition ALGORITHM : string := "HS256".
Definition ACCESS_TOKEN_EXPIRE_MINUTES : Z := 30.
Definition REFRESH_TOKEN_EXPIRE_DAYS : Z := 7.

(** A [timedelta], in microseconds. *)
Definition timedelta_minutes (m : Z) : Z := (60000000 * m)%Z.
Definition timedelta_days (d : Z) : Z := (86400000000 * d)%Z.

(** [datetime.min] and [datetime.max], in microseconds from the epoch. *)
Definition datetime_min : Z := (-62135596800000000)%Z.
Definition datetime_max : Z := 253402300799999999%Z.

(** [dt + delta]: [OverflowError] when the sum is no [datetime]. *)
Definition datetime_add (dt delta : Z) : outcome Z :=
  let r := (dt + delta)%Z in
  if (datetime_min <=? r)%Z && (r <=? datetime_max)%Z then Returns r
  else Raises OverflowError.

Record Token := {
  access_token : token;
  refresh_token : token;
  token_type : string
}.

Record UserInToken := { username : string; role : string }.

(** Construction of the pydantic model: both fields are declared [str]. *)
Definition UserInToken_init (username role : json) : outcome UserInToken :=
  match username, role with
  | JStr u, JStr r => Returns {| username := u; role := r |}
  | _, _ => Raises ValidationError
  end.

(** [payload.get(k)] and [payload.get(k, d)] *)
Definition get (payload : gmap string json) (k : string) : json :=
  default JNull (payload !! k).
Definition get_default (payload : gmap string json) (k : string)
    (d : json) : json := default d (payload !! k).

(** [v != "refresh"] *)
Definition ne_str (v : json) (s : string) : bool :=
  match v with
  | JStr x => negb (String.eqb x s)
  | _ => true
  end.

(** [v is None] *)
Definition is_None (v : json) : bool :=
  match v with
  | JNull => true
  | _ => false
  end.

(** [now] is the reading of [datetime.utcnow()]; a zero [timedelta] is
    falsy, like an absent one. *)
Definition create_access_token (now : Z) (data : gmap string json)
    (expires_delta : option Z) : outcome token :=
  let to_encode := data in
  expire ←
    match expires_delta with
    | Some d => if (d =? 0)%Z
                then datetime_add now
                       (timedelta_minutes ACCESS_TOKEN_EXPIRE_MINUTES)
                else datetime_add now d
    | None => datetime_add now
                (timedelta_minutes ACCESS_TOKEN_EXPIRE_MINUTES)
    end;
  let to_encode := <["exp" := JInt (timegm expire)]> to_encode in
  Returns (encode to_encode SECRET_KEY ALGORITHM).

Definition create_refresh_token (now : Z) (data : gmap string json)
  : outcome token :=
  let to_encode := data in
  expire ← datetime_add now (timedelta_days REFRESH_TOKEN_EXPIRE_DAYS);
  let to_encode :=
    <["type" := JStr "refresh"]>
      (<["exp" := JInt (timegm expire)]> to_encode) in
  Returns (encode to_encode SECRET_KEY ALGORITHM).

Section Decoding.
Variable int_str : string -> option Z.

(** [try: ... except JWTError: return None]: any other exception of the
    codec passes through. *)
Definition decode_token (now : Z) (t : token)
  : outcome (option (gmap string json)) :=
  match decode int_str now t SECRET_KEY [ALGORITHM] with
  | Returns payload => Returns (Some payload)
  | Raises JWTError => Returns None
  | Raises e => Raises e
  end.

Definition verify_token (now : Z) (t : token)
  : outcome (option UserInToken) :=
  payload ← decode_token now t;
  match payload with
  | None => Returns None
  | Some payload =>
    let username := get payload "sub" in
    let role := get_default payload "role" (JStr "user") in
    if is_None username then Returns None
    else user ← UserInToken_init username role; Returns (Some user)
  end.

Definition refresh_access_token (now : Z) (refresh_token : token)
  : outcome (option token) :=
  payload ← decode_token now refresh_token;
  match payload with
  | None => Returns None
  | Some payload =>
    if ne_str (get payload "type") "refresh" then Returns None
    else
      let username := get payload "sub" in
      let role := get_default payload "role" (JStr "user") in
      if is_None username then Returns None
      else
        t ← create_access_token now
              {[ "sub" := username; "role" := role ]} None;
        Returns (Some t)
  end.
End Decoding.

Definition create_token_pair (now : Z) (username role : string)
  : outcome Token :=
  access_token ←
    create_access_token now
      {[ "sub" := JStr username; "role" := JStr role ]} None;
  refresh_token ←
    create_refresh_token now
      {[ "sub" := JStr username; "role" := JStr role ]};
  Returns {| access_token := access_token;
             refresh_token := refresh_token;
             token_type := "bearer" |}.

(** The access token of the pair made for a user at second 1000 of the
    clock, for running the code. *)
Definition token_ejemplo (username role : string) : token :=
  Signed SECRET_KEY ALGORITHM
    (<["exp" := JInt 2800]>
       {[ "sub" := JStr username; "role" := JStr role ]}).

End JwtAuth.

(* ===================================================================== *)
(** * auth/service.py: UserService.update_user *)
(* ===================================================================== *)

Module Service.

(** A row of [bdns.usuario].  An attribute of the mapped object can hold
    [None] even where the column is NOT NULL; the constraint is checked
    when the session is flushed. *)
Record Usuario := {
  id : string;
  username : string;
  email : option string;
  hashed_password : string;
  nombre : option string;
  role : option string;
  activo : option bool;
  telegram_chat_id : option string;
  telegram_username : option string;
  telegram_verificado : option bool;
  created_at : Z;
  updated_at : option Z
}.

#[global] Instance Usuario_eq_dec : EqDecision Usuario.
Proof. solve_decision. Defined.

(** [UsuarioUpdate]: every field is optional and remembers whether it was
    set: [None] is a field left unset, [Some v] a field set to [v] (which
    may itself be [None]). *)
Record UsuarioUpdate := {
  u_email : option (option string);
  u_nombre : option (option string);
  u_role : option (option string);
  u_activo : option (option bool);
  u_telegram_chat_id : option (option string);
  u_telegram_username : option (option string);
  u_telegram_verificado : option (option bool)
}.

(** [UsuarioUpdate(role=v)]: only the role is set. *)
Definition solo_role (v : option string) : UsuarioUpdate :=
  {| u_email := None; u_nombre := None; u_role := Some v;
     u_activo := None; u_telegram_chat_id := None;
     u_telegram_username := None; u_telegram_verificado := None |}.

(** An item [(field, value)] of the dumped payload. *)
Inductive item :=
| I_email (v : option string)
| I_nombre (v : option string)
| I_role (v : option string)
| I_activo (v : option bool)
| I_telegram_chat_id (v : option string)
| I_telegram_username (v : option string)
| I_telegram_verificado (v : option bool).

(** [user_data.model_dump(exclude_unset=True).items()], in the order of
    the field declarations. *)
Definition model_dump_exclude_unset (d : UsuarioUpdate) : list item :=
  option_list (I_email <$> u_email d)
  ++ option_list (I_nombre <$> u_nombre d)
  ++ option_list (I_role <$> u_role d)
  ++ option_list (I_activo <$> u_activo d)
  ++ option_list (I_telegram_chat_id <$> u_telegram_chat_id d)
  ++ option_list (I_telegram_username <$> u_telegram_username d)
  ++ option_list (I_telegram_verificado <$> u_telegram_verificado d).

(** [setattr(db_user, field, value)] *)
Definition setattr (u : Usuario) (i : item) : Usuario :=
  match i with
  | I_email v =>
    {| id := id u; username := username u; email := v;
       hashed_password := hashed_password u; nombre := nombre u;
       role := role u; activo := activo u;
       telegram_chat_id := telegram_chat_id u;
       telegram_username := telegram_username u;
       telegram_verificado := telegram_verificado u;
       created_at := created_at u; updated_at := updated_at u |}
  | I_nombre v =>
    {| id := id u; username := username u; email := email u;
       hashed_password := hashed_password u; nombre := v;
       role := role u; activo := activo u;
       telegram_chat_id := telegram_chat_id u;
       telegram_username := telegram_username u;
       telegram_verificado := telegram_verificado u;
       created_at := created_at u; updated_at := updated_at u |}
  | I_role v =>
    {| id := id u; username := username u; email := email u;
       hashed_password := hashed_password u; nombre := nombre u;
       role := v; activo := activo u;
       telegram_chat_id := telegram_chat_id u;
       telegram_username := telegram_username u;
       telegram_verificado := telegram_verificado u;
       created_at := created_at u; updated_at := updated_at u |}
  | I_activo v =>
    {| id := id u; username := username u; email := email u;
       hashed_password := hashed_password u; nombre := nombre u;
       role := role u; activo := v;
       telegram_chat_id := telegram_chat_id u;
       telegram_username := telegram_username u;
       telegram_verificado := telegram_verificado u;
       created_at := created_at u; updated_at := updated_at u |}
  | I_telegram_chat_id v =>
    {| id := id u; username := username u; email := email u;
       hashed_password := hashed_password u; nombre := nombre u;
       role := role u; activo := activo u;
       telegram_chat_id := v;
       telegram_username := telegram_username u;
       telegram_verificado := telegram_verificado u;
       created_at := created_at u; updated_at := updated_at u |}
  | I_telegram_username v =>
    {| id := id u; username := username u; email := email u;
       hashed_password := hashed_password u; nombre := nombre u;
       role := role u; activo := activo u;
       telegram_chat_id := telegram_chat_id u;
       telegram_username := v;
       telegram_verificado := telegram_verificado u;
       created_at := created_at u; updated_at := updated_at u |}
  | I_telegram_verificado v =>
    {| id := id u; username := username u; email := email u;
       hashed_password := hashed_password u; nombre := nombre u;
       role := role u; activo := activo u;
       telegram_chat_id := telegram_chat_id u;
       telegram_username := telegram_username u;
       telegram_verificado := v;
       created_at := created_at u; updated_at := updated_at u |}
  end.

(** The [onupdate=func.now()] default of [updated_at]. *)
Definition touch (now : Z) (u : Usuario) : Usuario :=
  {| id := id u; username := username u; email := email u;
     hashed_password := hashed_password u; nombre := nombre u;
     role := role u; activo := activo u;
     telegram_chat_id := telegram_chat_id u;
     telegram_username := telegram_username u;
     telegram_verificado := telegram_verificado u;
     created_at := created_at u; updated_at := Some now |}.

(** The table, keyed by primary key. *)
Abbreviation tabla := (gmap string Usuario).

(** NOT NULL columns that [update_user] can write. *)
Definition not_null (u : Usuario) : bool :=
  bool_decide (is_Some (email u)) && bool_decide (is_Some (role u))
  && bool_decide (is_Some (activo u)).

(** UNIQUE columns that [update_user] can write: no other row holds the
    same [email] or the same non-null [telegram_chat_id]. *)
Definition unique (db : tabla) (user_id : string) (u : Usuario) : bool :=
  bool_decide (map_Forall (fun k v =>
    k = user_id \/
    (email v <> email u /\
     (telegram_chat_id u = None \/ telegram_chat_id v <> telegram_chat_id u)))
    db).

(** [UserService.get_user_by_id(db, user_id)] *)
Definition get_user_by_id (db : tabla) (user_id : string)
  : option Usuario := db !! user_id.

(** [db.commit()] after the attributes of the row [user_id] were set:
    nothing is written when no attribute changed; otherwise the UPDATE
    either violates a constraint, and raises, or stores the row with a
    fresh [updated_at]. *)
Definition commit (now : Z) (db : tabla) (user_id : string)
    (old new : Usuario) : tabla * outcome unit :=
  if bool_decide (new = old) then (db, Returns tt)
  else if not_null new && unique db user_id new
  then (<[user_id := touch now new]> db, Returns tt)
  else (db, Raises IntegrityError).

(** The call returns the table after it and its outcome. *)
Definition update_user (now : Z) (db : tabla) (user_id : string)
    (user_data : UsuarioUpdate) : tabla * outcome (option Usuario) :=
  match get_user_by_id db user_id with
  | None => (db, Returns None)
  | Some db_user =>
    let update_data := model_dump_exclude_unset user_data in
    let changed := fold_left setattr update_data db_user in
    match commit now db user_id db_user changed with
    | (db', Returns _) =>
      (* db.refresh(db_user) *)
      (db', Returns (db' !! user_id))
    | (db', Raises e) => (db', Raises e)
    end
  end.

(** ** The rest of [UserService] *)

(** Password hashing ([passlib]) is a dependency of the repository:
    hashing draws a salt; checking a password against a stored hash
    answers, or raises on a hash it cannot identify. *)
Record hasher := {
  get_password_hash : Z -> string -> string;
  verify_password : string -> string -> outcome bool
}.

Record UsuarioCreate := {
  c_username : string;
  c_email : string;
  c_password : string;
  c_nombre : option string;
  c_role : string;
  c_activo : bool
}.

Record UsuarioChangePassword := {
  current_password : string;
  new_password : string
}.

(** [user.hashed_password = h] *)
Definition set_hashed_password (u : Usuario) (h : string) : Usuario :=
  {| id := id u; username := username u; email := email u;
     hashed_password := h; nombre := nombre u;
     role := role u; activo := activo u;
     telegram_chat_id := telegram_chat_id u;
     telegram_username := telegram_username u;
     telegram_verificado := telegram_verificado u;
     created_at := created_at u; updated_at := updated_at u |}.

(** [query.filter(f).first()]: the first row, in storage order, that
    passes the filter. *)
Definition first (f : Usuario -> bool) (db : tabla) : option Usuario :=
  snd <$> find (fun kv => f (snd kv)) (map_to_list db).

(** [query.filter(f).all()] *)
Definition all (f : Usuario -> bool) (db : tabla) : list Usuario :=
  List.filter f (map snd (map_to_list db)).

(** The truth value of a nullable boolean column. *)
Definition cierto (b : option bool) : bool := default false b.

(** What an INSERT of the row checks: a free primary key, NOT NULL
    columns, and the UNIQUE columns [username], [email] and
    [telegram_chat_id]. *)
Definition insertable (db : tabla) (u : Usuario) : bool :=
  bool_decide (db !! id u = None)
  && not_null u
  && bool_decide (map_Forall (fun _ v => username v <> username u) db)
  && unique db (id u) u.

Section UserService.
Variable lower : string -> string.
Variable pw : hasher.

(** [new_id] is the key drawn by the [uuid7] default and [salt] the salt
    drawn by the hasher. *)
Definition create_user (now : Z) (new_id : string) (salt : Z) (db : tabla)
    (user_data : UsuarioCreate) : tabla * outcome Usuario :=
  let hashed_password :=
    get_password_hash pw salt (c_password user_data) in
  let db_user :=
    {| id := new_id;
       username := lower (c_username user_data);
       email := Some (lower (c_email user_data));
       hashed_password := hashed_password;
       nombre := c_nombre user_data;
       role := Some (c_role user_data);
       activo := Some (c_activo user_data);
       telegram_chat_id := None; telegram_username := None;
       telegram_verificado := Some false;
       created_at := now; updated_at := None |} in
  if insertable db db_user
  then (<[new_id := db_user]> db, Returns db_user)
  else (db, Raises IntegrityError).

Definition get_user_by_username (db : tabla) (name : string)
  : option Usuario :=
  first (fun u => String.eqb (username u) (lower name)) db.

Definition get_user_by_email (db : tabla) (mail : string) : option Usuario :=
  first (fun u => bool_decide (email u = Some (lower mail))) db.

(** [skip] and [limit] are row counts. *)
Definition get_users (db : tabla) (skip limit : nat)
    (activo_f : option bool) (role_f : option string) : list Usuario :=
  let f1 u := match activo_f with
              | Some a => bool_decide (activo u = Some a)
              | None => true
              end in
  let f2 u := match role_f with
              | Some r => bool_decide (role u = Some r)
              | None => true
              end in
  take limit (drop skip (all (fun u => f1 u && f2 u) db)).

Definition delete_user (now : Z) (db : tabla) (user_id : string)
  : tabla * outcome bool :=
  match get_user_by_id db user_id with
  | None => (db, Returns false)
  | Some db_user =>
    match commit now db user_id db_user
            (setattr db_user (I_activo (Some false))) with
    | (db', Returns _) => (db', Returns true)
    | (db', Raises e) => (db', Raises e)
    end
  end.

Definition hard_delete_user (db : tabla) (user_id : string)
  : tabla * outcome bool :=
  match get_user_by_id db user_id with
  | None => (db, Returns false)
  | Some db_user => (delete user_id db, Returns true)
  end.

Definition authenticate_user (db : tabla) (name password : string)
  : outcome (option Usuario) :=
  match get_user_by_username db name with
  | None => Returns None
  | Some user =>
    if negb (cierto (activo user)) then Returns None
    else
      ok ← verify_password pw password (hashed_password user);
      if negb ok then Returns None else Returns (Some user)
  end.

Definition change_password (now : Z) (salt : Z) (db : tabla)
    (user_id : string) (password_data : UsuarioChangePassword)
  : tabla * outcome bool :=
  match get_user_by_id db user_id with
  | None => (db, Returns false)
  | Some user =>
    match verify_password pw (current_password password_data)
            (hashed_password user) with
    | Raises e => (db, Raises e)
    | Returns false => (db, Returns false)
    | Returns true =>
      match commit now db user_id user
              (set_hashed_password user
                 (get_password_hash pw salt (new_password password_data)))
      with
      | (db', Returns _) => (db', Returns true)
      | (db', Raises e) => (db', Raises e)
      end
    end
  end.

Definition reset_password (now : Z) (salt : Z) (db : tabla)
    (user_id : string) (new_pw : string) : tabla * outcome bool :=
  match get_user_by_id db user_id with
  | None => (db, Returns false)
  | Some user =>
    match commit now db user_id user
            (set_hashed_password user (get_password_hash pw salt new_pw))
    with
    | (db', Returns _) => (db', Returns true)
    | (db', Raises e) => (db', Raises e)
    end
  end.

Definition link_telegram (now : Z) (db : tabla) (user_id : string)
    (chat_id : string) (tg_username : option string)
  : tabla * outcome (option Usuario) :=
  match get_user_by_id db user_id with
  | None => (db, Returns None)
  | Some user =>
    let user' :=
      setattr (setattr (setattr user (I_telegram_chat_id (Some chat_id)))
                       (I_telegram_username tg_username))
              (I_telegram_verificado (Some true)) in
    match commit now db user_id user user' with
    | (db', Returns _) => (db', Returns (db' !! user_id))
    | (db', Raises e) => (db', Raises e)
    end
  end.

Definition unlink_telegram (now : Z) (db : tabla) (user_id : string)
  : tabla * outcome (option Usuario) :=
  match get_user_by_id db user_id with
  | None => (db, Returns None)
  | Some user =>
    let user' :=
      setattr (setattr (setattr user (I_telegram_chat_id None))
                       (I_telegram_username None))
              (I_telegram_verificado (Some false)) in
    match commit now db user_id user user' with
    | (db', Returns _) => (db', Returns (db' !! user_id))
    | (db', Raises e) => (db', Raises e)
    end
  end.

Definition count_users (db : tabla) (activo_f : option bool) : nat :=
  match activo_f with
  | Some a => length (all (fun u => bool_decide (activo u = Some a)) db)
  | None => length (all (fun _ => true) db)
  end.

Definition user_exists (db : tabla) (name : string) : bool :=
  bool_decide (is_Some (get_user_by_username db name)).

Definition email_exists (db : tabla) (mail : string) : bool :=
  bool_decide (is_Some (get_user_by_email db mail)).

(** The constraints of the table, as a database keeps them: every row
    satisfies NOT NULL and UNIQUE, its key is its [id], and user names are
    stored lower-cased and are unique. *)
Definition consistente (db : tabla) : Prop :=
  forall k u, db !! k = Some u ->
    id u = k /\ not_null u = true /\ unique db k u = true
    /\ lower (username u) = username u
    /\ forall k' u', db !! k' = Some u' -> username u' = username u ->
         k' = k.
End UserService.

(** A lower-casing of ASCII text, a hasher and a table with two users, for
    running the embedded code. *)
Definition lower_char (c : ascii) : ascii :=
  let n := N_of_ascii c in
  if ((65 <=? n) && (n <=? 90))%N then ascii_of_N (n + 32) else c.

Fixpoint lower_ascii (s : string) : string :=
  match s with
  | EmptyString => EmptyString
  | String c r => String (lower_char c) (lower_ascii r)
  end.

Definition hasher_ejemplo : hasher := {|
  get_password_hash := fun salt p => "$" +:+ p;
  verify_password := fun p h => Returns (String.eqb h ("$" +:+ p))
|}.

Definition ana : UsuarioCreate := {|
  c_username := "Ana"; c_email := "Ana@Example.org";
  c_password := "Secreto01"; c_nombre := Some "Ana";
  c_role := "admin"; c_activo := true
|}.

Definition luis : UsuarioCreate := {|
  c_username := "luis"; c_email := "luis@example.org";
  c_password := "Secreto02"; c_nombre := None;
  c_role := "user"; c_activo := true
|}.

Definition db_ejemplo : tabla :=
  fst (create_user lower_ascii hasher_ejemplo 20 "u2" 2
         (fst (create_user lower_ascii hasher_ejemplo 10 "u1" 1 ∅ ana))
         luis).

(** The stored fields of a user other than the role and the update
    stamp. *)
Definition mismos_campos (u u' : Usuario) : Prop :=
  id u' = id u /\ username u' = username u /\ email u' = email u
  /\ hashed_password u' = hashed_password u /\ nombre u' = nombre u
  /\ activo u' = activo u /\ telegram_chat_id u' = telegram_chat_id u
  /\ telegram_username u' = telegram_username u
  /\ telegram_verificado u' = telegram_verificado u
  /\ created_at u' = created_at u.

End Service.

(* ===================================================================== *)
(** * db/models.py: Concesion *)
(* ===================================================================== *)

Module Models.

Record RegimenAyuda := {
  descripcion : string;
  descripcion_norm : string
}.

Record Concesion := {
  id_concesion : string;
  regimen_ayuda : option RegimenAyuda;
  importe_equivalente : option Z;
  importe_nominal : option Z
}.

(** [x or 0] for an optional integer: [None] and [0] are falsy. *)
Definition or_0 (x : option Z) : Z :=
  match x with
  | None => 0
  | Some v => if (v =? 0)%Z then 0 else v
  end.

Definition regimen_tipo_norm (self : Concesion) : option string :=
  match regimen_ayuda self with
  | Some r => Some (descripcion_norm r)
  | None => None
  end.

Definition es_ayuda_estado (self : Concesion) : bool :=
  bool_decide (regimen_tipo_norm self = Some "ayuda_estado").

Definition es_minimis (self : Concesion) : bool :=
  bool_decide (regimen_tipo_norm self = Some "minimis").

Definition importe (self : Concesion) : Z :=
  if es_ayuda_estado self then or_0 (importe_equivalente self)
  else or_0 (importe_nominal self).

End Models.

(* ===================================================================== *)
(** * db/utils.py: buscar_organo_id *)
(* ===================================================================== *)

Module Organos.

(** The columns of [bdns.organo] that the lookup reads, and the key. *)
Record Organo := {
  id : string;
  codigo : string;
  nivel1_norm : option str;
  nivel2_norm : option str;
  nivel3_norm : option str;
  nombre : string
}.

Section WithUnicode.
Variable ud : unicode.

(** [session] lists the rows of the table in the order in which the
    database returns them for the query, an order that the query does not
    fix; [filter_by] compares a column with a value, [None] standing for
    NULL, and [first()] takes the first row that passes. *)
Definition buscar_organo_id (session : list Organo)
    (nivel1 nivel2 nivel3 : option str) : option string :=
  let n1 := if truthy nivel1 then DbUtils.normalizar ud nivel1 else None in
  let n2 := if truthy nivel2 then DbUtils.normalizar ud nivel2 else None in
  let n3 := if truthy nivel3 then DbUtils.normalizar ud nivel3 else None in
  let organo :=
    if truthy n3
    then find (fun o => bool_decide (nivel1_norm o = n1)
                        && bool_decide (nivel2_norm o = n2)
                        && bool_decide (nivel3_norm o = n3)) session
    else find (fun o => bool_decide (nivel1_norm o = n1)
                        && bool_decide (nivel2_norm o = n2)) session in
  match organo with
  | Some o => Some (id o)
  | None => None
  end.
End WithUnicode.

End Organos.

(* ===================================================================== *)
(** * auth/dependencies.py *)
(* ===================================================================== *)

Module Dependencies.
Import Jose JwtAuth.

(** What a dependency hands to the framework: the value for the route, an
    [HTTPException], or an exception of the code it called. *)
Inductive respuesta (A : Type) :=
| Ok (a : A)
| HTTPException (status_code : Z) (detail : string)
    (headers : list (string * string))
| Error (e : Py.exn).
Arguments Ok {A} a.
Arguments HTTPException {A} status_code detail headers.
Arguments Error {A} e.

Definition no_autorizado {A} (detail : string) : respuesta A :=
  HTTPException 401 detail [("WWW-Authenticate", "Bearer")].

Section WithLower.
Variable int_str : string -> option Z.
Variable lower : string -> string.

(** [credentials] is the bearer token of the request. *)
Definition get_current_user (now : Z) (db : gmap string Service.Usuario)
    (credentials : token) : respuesta UserInToken :=
  match verify_token int_str now credentials with
  | Raises e => Error e
  | Returns None => no_autorizado "Token inválido o expirado"
  | Returns (Some user) =>
    match Service.get_user_by_username lower db (username user) with
    | None => no_autorizado "Usuario no encontrado o inactivo"
    | Some db_user =>
      if negb (Service.cierto (Service.activo db_user))
      then no_autorizado "Usuario no encontrado o inactivo"
      else Ok user
    end
  end.

(** [require_role] with its allowed roles: the checker runs on the result of
    [get_current_user], which the framework resolves first. *)
Definition require_role (allowed_roles : list string) (now : Z)
    (db : gmap string Service.Usuario) (credentials : token)
  : respuesta UserInToken :=
  match get_current_user now db credentials with
  | Ok current_user =>
    if negb (bool_decide (role current_user ∈ allowed_roles))
    then HTTPException 403
           ("Acceso denegado. Se requiere rol: "
            +:+ String.concat ", " allowed_roles) []
    else Ok current_user
  | HTTPException c d h => HTTPException c d h
  | Error e => Error e
  end.

Definition require_admin := require_role ["admin"].
Definition require_user := require_role ["admin"; "user"].
Definition require_viewer := require_role ["admin"; "user"; "viewer"].

Definition get_optional_user (now : Z) (db : gmap string Service.Usuario)
    (credentials : option token) : outcome (option UserInToken) :=
  match credentials with
  | None => Returns None
  | Some token =>
    match verify_token int_str now token with
    | Raises e => Raises e
    | Returns None => Returns None
    | Returns (Some user) =>
      match Service.get_user_by_username lower db (username user) with
      | None => Returns None
      | Some db_user =>
        if negb (Service.cierto (Service.activo db_user))
        then Returns None
        else Returns (Some user)
      end
    end
  end.
End WithLower.

End Dependencies.

(* ===================================================================== *)
(** * Facts about the Python fragment *)
(* ===================================================================== *)

Section PyFacts.
Variable ud : unicode.

Lemma getitem_0_cons (c : N) (r : str) : getitem (c :: r) 0 = Returns [c].
Proof. reflexivity. Qed.

Lemma str_eqb_eq (a b : str) : str_eqb a b = true <-> a = b.
Proof. unfold str_eqb. apply bool_decide_eq_true. Qed.

Lemma dict_contains_getitem {V} (d : list (str * V)) (k : str) :
  dict_contains d k = true ->
  exists v, dict_getitem d k = Returns v /\ (k, v) ∈ d.
Proof.
  unfold dict_contains, dict_getitem.
  induction d as [|[k' v'] d IH]; simpl; [discriminate|].
  destruct (str_eqb k' k) eqn:E; simpl.
  - intros _. apply str_eqb_eq in E. subst k'.
    exists v'. split; [reflexivity | left].
  - intros H. destruct (IH H) as (v & Hv & Hin).
    exists v. split; [exact Hv | by right].
Qed.

Lemma lstrip_nil_or_head (s : str) :
  match lstrip ud s with
  | [] => True
  | c :: _ => is_space ud c = false
  end.
Proof.
  induction s as [|c r IH]; simpl; [exact I|].
  destruct (is_space ud c) eqn:E; [exact IH | exact E].
Qed.

Lemma lstrip_id (s : str) :
  match s with [] => True | c :: _ => is_space ud c = false end ->
  lstrip ud s = s.
Proof. destruct s as [|c r]; simpl; [done|]. by intros ->. Qed.

Lemma lstrip_idem (s : str) : lstrip ud (lstrip ud s) = lstrip ud s.
Proof. apply lstrip_id, lstrip_nil_or_head. Qed.
End PyFacts.

Section AsciiFacts.
Variable ud : unicode.
Hypothesis Hud : ascii_compatible ud.

Lemma all_ascii_forallb (s : str) :
  all_ascii s <-> forallb is_ascii s = true.
Proof.
  unfold all_ascii, is_ascii. rewrite forallb_forall, Forall_forall.
  split; intros H c Hc.
  - apply N.ltb_lt, H, list_elem_of_In, Hc.
  - apply N.ltb_lt, H, list_elem_of_In, Hc.
Qed.

Lemma ascii_upper_lt (c : N) : (c < 128)%N -> (ascii_upper c < 128)%N.
Proof. unfold ascii_upper. intros. case_match; lia. Qed.

Lemma ascii_upper_idem (c : N) : ascii_upper (ascii_upper c) = ascii_upper c.
Proof.
  unfold ascii_upper.
  destruct ((97 <=? c) && (c <=? 122))%N eqn:E; [|by rewrite E].
  apply andb_true_iff in E as [E1 E2].
  apply N.leb_le in E1, E2.
  replace ((97 <=? c - 32)%N) with false; [done|].
  symmetry. apply N.leb_gt. lia.
Qed.

Lemma upper_ascii_map (s : str) :
  all_ascii s -> upper ud s = map ascii_upper s.
Proof.
  unfold upper. induction 1 as [|c r Hc _ IH]; simpl; [done|].
  by rewrite (upper_ascii ud Hud c Hc), IH.
Qed.

Lemma upper_all_ascii (s : str) : all_ascii s -> all_ascii (upper ud s).
Proof.
  intros H. rewrite (upper_ascii_map s H). unfold all_ascii in *.
  apply Forall_map. eapply Forall_impl; [exact H|].
  intros c. apply ascii_upper_lt.
Qed.

Lemma lstrip_ascii (s : str) :
  all_ascii s -> lstrip ud s = lstrip basic_unicode s /\ all_ascii (lstrip ud s).
Proof.
  induction 1 as [|c r Hc Hr IH]; simpl; [split; [done|constructor]|].
  rewrite (space_ascii ud Hud c Hc).
  destruct (ascii_space c); [exact IH|].
  split; [done | by constructor].
Qed.

Lemma rstrip_ascii (s : str) :
  all_ascii s -> rstrip ud s = rstrip basic_unicode s /\ all_ascii (rstrip ud s).
Proof.
  induction 1 as [|c r Hc Hr [IH1 IH2]]; simpl; [split; [done|constructor]|].
  rewrite <- IH1, (space_ascii ud Hud c Hc).
  destruct (rstrip ud r) as [|d r'] eqn:E.
  - destruct (ascii_space c); split; try done; repeat constructor; done.
  - split; [done | by constructor].
Qed.

Lemma strip_ascii (s : str) :
  all_ascii s -> strip ud s = strip basic_unicode s /\ all_ascii (strip ud s).
Proof.
  intros H. unfold strip.
  destruct (lstrip_ascii s H) as [E1 A1].
  destruct (rstrip_ascii _ A1) as [E2 A2].
  split; [by rewrite E2, E1 | exact A2].
Qed.

Lemma isdigit_ascii (s : str) :
  all_ascii s -> isdigit ud s = isdigit basic_unicode s.
Proof.
  intros H. unfold isdigit. destruct s as [|c r]; [done|].
  induction H as [|d r' Hd _ IH]; simpl; [done|].
  by rewrite (digit_ascii ud Hud d Hd), IH.
Qed.

Lemma basic_upper_map (s : str) : upper basic_unicode s = map ascii_upper s.
Proof.
  unfold upper. induction s as [|c r IH]; [done|].
  change (ascii_upper c :: flat_map (to_upper basic_unicode) r
          = ascii_upper c :: map ascii_upper r).
  by rewrite IH.
Qed.
End AsciiFacts.

Lemma decompose_ascii (c : N) : (c < 128)%N -> decompose c = [c].
Proof.
  intros Hc. unfold decompose.
  repeat match goal with
         | |- context [(c =? ?k)%N] =>
           destruct (N.eqb_spec c k) as [->|_]; [lia|]
         end.
  reflexivity.
Qed.

Lemma basic_unicode_compatible : ascii_compatible basic_unicode.
Proof.
  split; try done.
  intros s Hs. apply all_ascii_forallb in Hs. simpl.
  induction Hs as [|c r Hc _ IH]; simpl; [done|].
  by rewrite (decompose_ascii c Hc), IH.
Qed.

(* ===================================================================== *)
(** * db/nif_utils.py: classification of tax identifiers *)
(* ===================================================================== *)

Section NifFacts.
Import NifUtils.
Variable ud : unicode.

Lemma tabla_valor_en_resultados (k v : str) :
  (k, v) ∈ FORMAS_JURIDICAS_NIF -> v ∈ RESULTADOS.
Proof.
  intros H. unfold RESULTADOS. apply elem_of_app. left.
  apply list_elem_of_fmap. exists (k, v). by split.
Qed.

Lemma persona_fisica_en_resultados : PERSONA_FISICA ∈ RESULTADOS.
Proof. apply (bool_decide_unpack _). by vm_compute. Qed.

Lemma desconocido_en_resultados : DESCONOCIDO ∈ RESULTADOS.
Proof. apply (bool_decide_unpack _). by vm_compute. Qed.

(** The two functions, with the guarded indexing resolved. *)
Lemma interpretar_casos (nif : option str) :
  interpretar_forma_juridica_desde_nif ud nif =
  if negb (truthy nif) then Returns DESCONOCIDO
  else
    let nif_clean := upper ud (strip ud (default [] nif)) in
    if contains 42 nif_clean then Returns PERSONA_FISICA
    else match nif_clean with
         | [] => Returns DESCONOCIDO
         | c :: _ =>
           if dict_contains FORMAS_JURIDICAS_NIF [c]
           then dict_getitem FORMAS_JURIDICAS_NIF [c]
           else if isdigit ud [c] then Returns PERSONA_FISICA
           else if existsb (str_eqb [c]) [lit "X"; lit "Y"; lit "Z"]
           then Returns PERSONA_FISICA
           else Returns DESCONOCIDO
         end.
Proof.
  unfold interpretar_forma_juridica_desde_nif.
  destruct (negb (truthy nif)); [done|]. cbv zeta.
  destruct (contains 42 _); [done|].
  by destruct (upper ud (strip ud (default [] nif))).
Qed.

Lemma codigo_natural_casos (nif : option str) :
  obtener_codigo_natural_desde_nif ud nif =
  if negb (truthy nif) then Returns (lit "?")
  else
    let nif_clean := upper ud (strip ud (default [] nif)) in
    if contains 42 nif_clean then Returns (lit "*")
    else match nif_clean with
         | [] => Returns (lit "?")
         | c :: _ =>
           if dict_contains FORMAS_JURIDICAS_NIF [c]
           then Returns [c]
           else if isdigit ud [c] then Returns (lit "*")
           else if existsb (str_eqb [c]) [lit "X"; lit "Y"; lit "Z"]
           then Returns (lit "*")
           else Returns (lit "?")
         end.
Proof.
  unfold obtener_codigo_natural_desde_nif.
  destruct (negb (truthy nif)); [done|]. cbv zeta.
  destruct (contains 42 _); [done|].
  by destruct (upper ud (strip ud (default [] nif))).
Qed.

(** The classification returns, and what it returns is a fixed string. *)
Lemma interpretar_devuelve (nif : option str) :
  exists r, interpretar_forma_juridica_desde_nif ud nif = Returns r
            /\ r ∈ RESULTADOS.
Proof.
  pose proof persona_fisica_en_resultados as Hpf.
  pose proof desconocido_en_resultados as Hd.
  rewrite interpretar_casos.
  destruct (negb (truthy nif)); [by eexists|]. cbv zeta.
  destruct (contains 42 _); [by eexists|].
  destruct (upper ud (strip ud (default [] nif))) as [|c r]; [by eexists|].
  destruct (dict_contains FORMAS_JURIDICAS_NIF [c]) eqn:E.
  - destruct (dict_contains_getitem _ _ E) as (v & -> & Hin).
    exists v. split; [done|]. by eapply tabla_valor_en_resultados.
  - destruct (isdigit ud [c]); [by eexists|].
    destruct (existsb _ _); by eexists.
Qed.

(** No key of the table is an asterisk, and no value of the table is the
    answer for natural persons. *)
Lemma tabla_sin_persona_fisica (k v : str) :
  (k, v) ∈ FORMAS_JURIDICAS_NIF -> k <> lit "*" /\ v <> PERSONA_FISICA.
Proof.
  revert k v.
  assert (Forall (fun kv => fst kv <> lit "*" /\ snd kv <> PERSONA_FISICA)
                 FORMAS_JURIDICAS_NIF) as H.
  { apply (bool_decide_unpack _). by vm_compute. }
  intros k v Hin. rewrite Forall_forall in H. exact (H (k, v) Hin).
Qed.

End NifFacts.

(** On ASCII identifiers the classification does not depend on the rest of
    the character database. *)
Lemma interpretar_ascii (ud : unicode) (s : str) :
  ascii_compatible ud -> all_ascii s ->
  NifUtils.interpretar_forma_juridica_desde_nif ud (Some s)
  = NifUtils.interpretar_forma_juridica_desde_nif basic_unicode (Some s).
Proof.
  intros Hud Hs. rewrite !interpretar_casos.
  destruct (negb (truthy (Some s))); [done|]. cbv zeta.
  destruct (strip_ascii ud Hud s Hs) as [E1 A1]. simpl default.
  rewrite (upper_ascii_map ud Hud _ A1), basic_upper_map, <- E1.
  pose proof (upper_all_ascii ud Hud _ A1) as A2.
  rewrite (upper_ascii_map ud Hud _ A1) in A2.
  destruct (map ascii_upper (strip ud s)) as [|c r]; [done|].
  destruct (contains 42 (c :: r)); [done|].
  destruct (dict_contains NifUtils.FORMAS_JURIDICAS_NIF [c]); [done|].
  apply Forall_cons in A2 as [Hc _].
  rewrite (isdigit_ascii ud Hud [c]); [done|]. by constructor.
Qed.

(** C3, as amended: the classification never fails and returns one of
    nineteen fixed strings, the seventeen legal forms of the table,
    "Persona física" and "Desconocido"; on the identifiers of the
    specification it answers as stated, and absent input is unknown. *)
Theorem interpretar_forma_juridica_total :
  (forall ud nif, exists r,
      NifUtils.interpretar_forma_juridica_desde_nif ud nif = Returns r
      /\ r ∈ NifUtils.RESULTADOS)
  /\ length NifUtils.RESULTADOS = 19%nat
  /\ NoDup NifUtils.RESULTADOS
  /\ (forall ud, ascii_compatible ud ->
      NifUtils.interpretar_forma_juridica_desde_nif ud (Some (lit "A12345678"))
      = Returns (lit "Sociedad Anónima (SA)")
      /\ NifUtils.interpretar_forma_juridica_desde_nif ud (Some (lit "B87654321"))
         = Returns (lit "Sociedad de Responsabilidad Limitada (SL)")
      /\ NifUtils.interpretar_forma_juridica_desde_nif ud (Some (lit "****5678A"))
         = Returns (lit "Persona física")
      /\ NifUtils.interpretar_forma_juridica_desde_nif ud (Some (lit "12345678Z"))
         = Returns (lit "Persona física")
      /\ NifUtils.interpretar_forma_juridica_desde_nif ud None
         = Returns (lit "Desconocido")).
Proof.
  split; [exact interpretar_devuelve|].
  split; [reflexivity|].
  split; [apply (bool_decide_unpack _); by vm_compute|].
  intros ud Hud.
  assert (forall s, forallb is_ascii s = true ->
            NifUtils.interpretar_forma_juridica_desde_nif ud (Some s)
            = NifUtils.interpretar_forma_juridica_desde_nif basic_unicode (Some s))
    as H.
  { intros s Hs. apply interpretar_ascii; [done|]. by apply all_ascii_forallb. }
  repeat split; try (rewrite H; [|by vm_compute]); by vm_compute.
Qed.

Lemma interpretar_forma_juridica_total_witness :
  NifUtils.interpretar_forma_juridica_desde_nif basic_unicode
    (Some (lit "A12345678")) = Returns (lit "Sociedad Anónima (SA)").
Proof.
  destruct interpretar_forma_juridica_total as (_ & _ & _ & H).
  exact (proj1 (H basic_unicode basic_unicode_compatible)).
Defined.

(** The identifiers that reach each of the nineteen answers. *)
Lemma resultados_alcanzados :
  map (NifUtils.interpretar_forma_juridica_desde_nif basic_unicode)
      (map (fun kv => Some (fst kv)) NifUtils.FORMAS_JURIDICAS_NIF
       ++ [Some (lit "12345678Z"); None])
  = map Returns NifUtils.RESULTADOS.
Proof. by vm_compute. Qed.

(** C3, as stated, fails: no set of eighteen strings holds every answer of
    the classification. *)
Lemma interpretar_forma_juridica_not_eighteen :
  ~ exists l : list str,
      length l = 18%nat
      /\ forall ud nif, exists r,
           NifUtils.interpretar_forma_juridica_desde_nif ud nif = Returns r
           /\ r ∈ l.
Proof.
  intros (l & Hlen & H).
  assert (NifUtils.RESULTADOS ⊆ l) as Hsub.
  { intros r Hr.
    assert (Returns r ∈ map Returns NifUtils.RESULTADOS) as Hin
      by (apply list_elem_of_fmap; eauto).
    rewrite <- resultados_alcanzados in Hin.
    apply list_elem_of_fmap in Hin as (nif & Hnif & _).
    destruct (H basic_unicode nif) as (r' & Hr' & Hl).
    rewrite Hr' in Hnif. by injection Hnif as ->. }
  assert (NoDup NifUtils.RESULTADOS) as Hnd
    by (apply (bool_decide_unpack _); by vm_compute).
  pose proof (submseteq_length _ _ (NoDup_submseteq _ _ Hnd Hsub)) as Hle.
  rewrite Hlen in Hle. vm_compute in Hle. lia.
Qed.

(** C4: an identifier is classified as a natural person exactly when its
    natural code is the asterisk; neither function fails. *)
Theorem es_persona_fisica_iff_codigo_natural (ud : unicode) (nif : option str) :
  (exists b, NifUtils.es_persona_fisica ud nif = Returns b)
  /\ (exists c, NifUtils.obtener_codigo_natural_desde_nif ud nif = Returns c)
  /\ (NifUtils.es_persona_fisica ud nif = Returns true
      <-> NifUtils.obtener_codigo_natural_desde_nif ud nif = Returns (lit "*")).
Proof.
  unfold NifUtils.es_persona_fisica.
  rewrite interpretar_casos, codigo_natural_casos.
  assert (forall A (x y : A), Returns x = Returns y <-> x = y) as Hinj.
  { intros A x y. split; [by intros [= ->] | by intros ->]. }
  destruct (negb (truthy nif)).
  { split; [by eexists|]. split; [by eexists|]. by vm_compute. }
  cbv zeta. destruct (contains 42 _).
  { split; [by eexists|]. split; [by eexists|]. by vm_compute. }
  destruct (upper ud (strip ud (default [] nif))) as [|c r].
  { split; [by eexists|]. split; [by eexists|]. by vm_compute. }
  destruct (dict_contains NifUtils.FORMAS_JURIDICAS_NIF [c]) eqn:E.
  - destruct (dict_contains_getitem _ _ E) as (v & -> & Hin).
    destruct (tabla_sin_persona_fisica _ _ Hin) as [Hk Hv].
    split; [by eexists|]. split; [by eexists|].
    change (Returns v ≫= _) with
      (Returns (A:=bool) (str_eqb v NifUtils.PERSONA_FISICA)).
    rewrite !Hinj, str_eqb_eq. by split.
  - destruct (isdigit ud [c]).
    { split; [by eexists|]. split; [by eexists|]. by vm_compute. }
    destruct (existsb _ _).
    { split; [by eexists|]. split; [by eexists|]. by vm_compute. }
    split; [by eexists|]. split; [by eexists|]. by vm_compute.
Qed.

(* ===================================================================== *)
(** * db/utils.py: normalizar *)
(* ===================================================================== *)

Section NormalizarFacts.
Import DbUtils.
Variable ud : unicode.
Hypothesis Hud : ascii_compatible ud.

Lemma espacio_32 : is_space ud 32 = true.
Proof. by rewrite (space_ascii ud Hud). Qed.

(** ** Stripping *)

Lemma rstrip_cons_fijo (c : N) (r : str) :
  rstrip ud (c :: r) = c :: r ->
  rstrip ud r = r /\ (is_space ud c = true -> r <> []).
Proof.
  simpl. destruct (rstrip ud r) as [|d r'] eqn:E.
  - destruct (is_space ud c); [discriminate|].
    intros [= <-]. split; [done | discriminate].
  - intros [= <-]. split; [done | discriminate].
Qed.

Lemma rstrip_idem (s : str) : rstrip ud (rstrip ud s) = rstrip ud s.
Proof.
  induction s as [|c r IH]; [done|]. simpl.
  destruct (rstrip ud r) as [|d r'] eqn:E.
  - destruct (is_space ud c) eqn:Ec; [done|]. simpl. by rewrite Ec.
  - change (rstrip ud (c :: d :: r')) with
      (match rstrip ud (d :: r') with
       | [] => if is_space ud c then [] else [c]
       | x => c :: x
       end).
    by rewrite IH.
Qed.

Lemma rstrip_sin_espacio_inicial (s : str) :
  sin_espacio_inicial ud s -> sin_espacio_inicial ud (rstrip ud s).
Proof.
  destruct s as [|c r]; [done|]. simpl. intros Hc.
  destruct (rstrip ud r); [by rewrite Hc|done].
Qed.

Lemma strip_forma (s : str) :
  rstrip ud (strip ud s) = strip ud s /\ sin_espacio_inicial ud (strip ud s).
Proof.
  unfold strip. split; [apply rstrip_idem|].
  apply rstrip_sin_espacio_inicial. apply lstrip_nil_or_head.
Qed.

Lemma espaciado_rstrip (p : N -> bool) (s : str) :
  espaciado ud p s -> rstrip ud s = s.
Proof.
  induction s as [|c r IH]; [done|]. intros [Hc Hr]. simpl.
  rewrite (IH Hr). destruct r as [|d r']; [|done].
  destruct (is_space ud c); [|done]. by destruct Hc.
Qed.

(** ** First substitution: runs of whitespace *)

Lemma re_sub_espacios_forma (t : str) :
  rstrip ud t = t ->
  forall b,
    espaciado ud (fun _ => false) (re_sub_espacios ud b t)
    /\ (b = true \/ sin_espacio_inicial ud t ->
        sin_espacio_inicial ud (re_sub_espacios ud b t))
    /\ (t <> [] -> re_sub_espacios ud b t <> []).
Proof.
  induction t as [|c r IH]; intros Ht b; [done|].
  destruct (rstrip_cons_fijo c r Ht) as [Hr Hne].
  destruct (IH Hr true) as (IH1 & IH2 & IH3).
  destruct (IH Hr false) as (IH1' & _ & _).
  simpl. destruct (is_space ud c) eqn:Ec.
  - specialize (Hne eq_refl). specialize (IH3 Hne).
    specialize (IH2 (or_introl eq_refl)).
    destruct b.
    + split; [done|]. split; [done|]. done.
    + split.
      * split; [|done]. intros _. split; [done|].
        destruct (re_sub_espacios ud true r); [done|]. by split.
      * split; [|done]. intros [?|H]; [done|]. simpl in H. congruence.
  - split; [|by split].
    split; [|done]. intros ?. congruence.
Qed.

Lemma re_sub_espacios_fijo (p : N -> bool) (s : str) :
  espaciado ud p s ->
  re_sub_espacios ud false s = s
  /\ (sin_espacio_inicial ud s -> re_sub_espacios ud true s = s).
Proof.
  induction s as [|c r IH]; [done|]. intros [Hc Hr].
  destruct (IH Hr) as [IH1 IH2]. simpl.
  destruct (is_space ud c) eqn:Ec.
  - destruct (Hc eq_refl) as [-> Hnext].
    split; [|intros H; congruence].
    f_equal. apply IH2. destruct r as [|d r']; [done|]. simpl. tauto.
  - split; [by rewrite IH1 | by rewrite IH1].
Qed.

(** ** Second substitution: whitespace before punctuation *)

Lemma re_sub_espacio_puntuacion_forma (u : str) :
  espaciado ud (fun _ => false) u ->
  espaciado ud is_punct (re_sub_espacio_puntuacion ud u)
  /\ (sin_espacio_inicial ud u ->
      sin_espacio_inicial ud (re_sub_espacio_puntuacion ud u))
  /\ (u <> [] -> sin_espacio_inicial ud u ->
      re_sub_espacio_puntuacion ud u <> []).
Proof.
  induction u as [|c r IH]; [done|]. intros [Hc Hr].
  destruct (IH Hr) as (IH1 & IH2 & IH3). simpl.
  destruct (is_space ud c) eqn:Ec; simpl.
  - destruct (Hc eq_refl) as [-> Hnext].
    destruct r as [|d r']; [done|]. destruct Hnext as [Hd _].
    unfold sigue_puntuacion. simpl lstrip. rewrite Hd.
    split; [|split; intros; simpl in *; congruence].
    destruct (is_punct d) eqn:Ep; [done|].
    split; [|done]. intros _. split; [done|].
    revert IH1. simpl. rewrite Hd. simpl. done.
  - split; [|by split]. split; [|done]. intros ?; congruence.
Qed.

Lemma re_sub_espacio_puntuacion_fijo (s : str) :
  espaciado ud is_punct s -> re_sub_espacio_puntuacion ud s = s.
Proof.
  induction s as [|c r IH]; [done|]. intros [Hc Hr]. simpl.
  rewrite (IH Hr). destruct (is_space ud c) eqn:Ec; [|done].
  destruct (Hc eq_refl) as [_ Hnext].
  destruct r as [|d r']; [done|]. destruct Hnext as [Hd Hp].
  unfold sigue_puntuacion. simpl. by rewrite Hd, Hp.
Qed.

(** ** The steps keep upper-case ASCII text upper-case ASCII *)

Lemma lstrip_Forall (Q : N -> Prop) (s : str) :
  Forall Q s -> Forall Q (lstrip ud s).
Proof.
  induction 1 as [|c r Hc Hr IH]; simpl; [done|].
  destruct (is_space ud c); [done | by constructor].
Qed.

Lemma rstrip_Forall (Q : N -> Prop) (s : str) :
  Forall Q s -> Forall Q (rstrip ud s).
Proof.
  induction 1 as [|c r Hc Hr IH]; simpl; [done|].
  destruct (rstrip ud r).
  - destruct (is_space ud c); [done | by constructor].
  - by constructor.
Qed.

Lemma re_sub_espacios_Forall (Q : N -> Prop) (s : str) (b : bool) :
  Q 32%N -> Forall Q s -> Forall Q (re_sub_espacios ud b s).
Proof.
  intros H32 Hs. revert b.
  induction Hs as [|c r Hc Hr IH]; intros b; simpl; [done|].
  destruct (is_space ud c); [destruct b|]; try constructor; auto.
Qed.

Lemma re_sub_espacio_puntuacion_Forall (Q : N -> Prop) (s : str) :
  Forall Q s -> Forall Q (re_sub_espacio_puntuacion ud s).
Proof.
  induction 1 as [|c r Hc Hr IH]; simpl; [done|].
  destruct (_ && _); [done | by constructor].
Qed.

Lemma ascii_ignore_all_ascii (s : str) : all_ascii (ascii_ignore s).
Proof.
  unfold all_ascii, ascii_ignore. apply Forall_forall. intros c Hc.
  apply list_elem_of_In, filter_In in Hc as [_ Hc]. by apply N.ltb_lt.
Qed.

Lemma ascii_ignore_fijo (s : str) : all_ascii s -> ascii_ignore s = s.
Proof.
  unfold ascii_ignore, is_ascii.
  induction 1 as [|c r Hc _ IH]; simpl; [done|].
  apply N.ltb_lt in Hc. by rewrite Hc, IH.
Qed.

Lemma upper_mayuscula (s : str) :
  all_ascii s -> Forall mayuscula_ascii (upper ud s).
Proof.
  intros H. rewrite (upper_ascii_map ud Hud s H).
  apply Forall_map. eapply Forall_impl; [exact H|].
  intros c Hc. split; [by apply ascii_upper_lt | apply ascii_upper_idem].
Qed.

Lemma upper_fijo (s : str) : Forall mayuscula_ascii s -> upper ud s = s.
Proof.
  intros H. rewrite (upper_ascii_map ud Hud s).
  - induction H as [|c r [_ Hc] _ IH]; simpl; [done|]. by rewrite Hc, IH.
  - eapply Forall_impl; [exact H|]. by intros c [? _].
Qed.
End NormalizarFacts.

(** On ASCII text the steps after the decomposition do not depend on the
    rest of the character database. *)
Section NormalizarAscii.
Import DbUtils.
Variable ud : unicode.
Hypothesis Hud : ascii_compatible ud.

Lemma re_sub_espacios_ascii (s : str) (b : bool) :
  all_ascii s -> re_sub_espacios ud b s = re_sub_espacios basic_unicode b s.
Proof.
  intros Hs. revert b.
  induction Hs as [|c r Hc _ IH]; intros b; simpl; [done|].
  rewrite (space_ascii ud Hud c Hc).
  destruct (ascii_space c); [destruct b|]; by rewrite IH.
Qed.

Lemma re_sub_espacio_puntuacion_ascii (s : str) :
  all_ascii s ->
  re_sub_espacio_puntuacion ud s = re_sub_espacio_puntuacion basic_unicode s.
Proof.
  induction 1 as [|c r Hc Hr IH]; simpl; [done|].
  rewrite (space_ascii ud Hud c Hc), IH. unfold sigue_puntuacion.
  by rewrite (proj1 (lstrip_ascii ud Hud r Hr)).
Qed.

Lemma pasos_ascii (a : str) :
  all_ascii a ->
  re_sub_espacio_puntuacion ud
    (re_sub_espacios ud false (strip ud (upper ud a)))
  = re_sub_espacio_puntuacion basic_unicode
      (re_sub_espacios basic_unicode false
         (strip basic_unicode (upper basic_unicode a))).
Proof.
  intros Ha.
  pose proof (upper_all_ascii ud Hud a Ha) as A1.
  destruct (strip_ascii ud Hud _ A1) as [E2 A2].
  assert (all_ascii (re_sub_espacios ud false (strip ud (upper ud a)))) as A3.
  { apply re_sub_espacios_Forall; [lia | exact A2]. }
  rewrite (re_sub_espacio_puntuacion_ascii _ A3).
  rewrite (re_sub_espacios_ascii _ _ A2), E2.
  by rewrite (upper_ascii_map ud Hud a Ha), basic_upper_map.
Qed.

(** A normalized text that is not empty is a fixed point. *)
Lemma normalizar_fijo (s r : str) :
  normalizar ud (Some s) = Some r -> r <> [] ->
  normalizar ud (Some r) = Some r.
Proof.
  unfold normalizar. destruct (negb (truthy (Some s))); [done|].
  cbv zeta. simpl default. intros [= Hr] Hne.
  set (a := ascii_ignore (nfkd ud s)) in Hr.
  pose proof (ascii_ignore_all_ascii (nfkd ud s)) as Ha. fold a in Ha.
  pose proof (upper_mayuscula ud Hud a Ha) as Hb.
  destruct (strip_forma ud (upper ud a)) as [Ht1 Ht2].
  assert (Forall mayuscula_ascii (strip ud (upper ud a))) as Ht3.
  { unfold strip. by apply rstrip_Forall, lstrip_Forall. }
  destruct (re_sub_espacios_forma ud _ Ht1 false) as (Hw1 & Hw2 & _).
  specialize (Hw2 (or_intror Ht2)).
  pose proof (re_sub_espacios_Forall ud mayuscula_ascii _ false
                (conj eq_refl eq_refl) Ht3) as Hw3.
  destruct (re_sub_espacio_puntuacion_forma ud _ Hw1) as (Hp1 & Hp2 & _).
  specialize (Hp2 Hw2).
  pose proof (re_sub_espacio_puntuacion_Forall ud mayuscula_ascii _ Hw3)
    as Hp3.
  rewrite Hr in Hp1, Hp2, Hp3. clear Hr.
  assert (all_ascii r) as Hr.
  { eapply Forall_impl; [exact Hp3|]. by intros c [? _]. }
  destruct r as [|c r']; [done|]. simpl negb. cbv iota.
  rewrite (nfkd_ascii ud Hud) by (by apply all_ascii_forallb).
  rewrite (ascii_ignore_fijo _ Hr), (upper_fijo ud Hud _ Hp3).
  unfold strip. rewrite (lstrip_id ud (c :: r') Hp2).
  rewrite (espaciado_rstrip ud _ _ Hp1).
  rewrite (proj1 (re_sub_espacios_fijo ud _ _ Hp1)).
  by rewrite (re_sub_espacio_puntuacion_fijo ud _ Hp1).
Qed.
End NormalizarAscii.

(** C7, as amended: normalizing a second time changes nothing whenever the
    normalized text is not empty; when it is empty (the text held only
    whitespace or characters without an ASCII form) the second call yields
    an absent result; "Educación" normalizes to "EDUCACION"; absent and
    empty input yield an absent result. *)
Theorem normalizar_idempotente (ud : unicode) :
  ascii_compatible ud ->
  (forall s, DbUtils.normalizar ud (Some s) <> Some [] ->
     DbUtils.normalizar ud (DbUtils.normalizar ud (Some s))
     = DbUtils.normalizar ud (Some s))
  /\ (forall s, DbUtils.normalizar ud (Some s) = Some [] ->
        DbUtils.normalizar ud (DbUtils.normalizar ud (Some s)) = None)
  /\ (nfkd ud (lit "Educación") = lit "Educacio" ++ [769%N] ++ lit "n" ->
      DbUtils.normalizar ud (Some (lit "Educación")) = Some (lit "EDUCACION"))
  /\ DbUtils.normalizar ud None = None
  /\ DbUtils.normalizar ud (Some []) = None.
Proof.
  intros Hud. split; [|split; [|split; [|by split]]].
  - intros s Hne.
    destruct (DbUtils.normalizar ud (Some s)) as [r|] eqn:E; [|done].
    apply (normalizar_fijo ud Hud s r E). congruence.
  - by intros s ->.
  - intros Hn. unfold DbUtils.normalizar. simpl negb. cbv iota zeta.
    simpl default. rewrite Hn.
    rewrite (pasos_ascii ud Hud); [by vm_compute|].
    apply ascii_ignore_all_ascii.
Qed.

Lemma normalizar_idempotente_witness :
  DbUtils.normalizar basic_unicode
    (DbUtils.normalizar basic_unicode (Some (lit "Educación")))
  = DbUtils.normalizar basic_unicode (Some (lit "Educación"))
  /\ DbUtils.normalizar basic_unicode (Some (lit "Educación"))
     = Some (lit "EDUCACION").
Proof.
  destruct (normalizar_idempotente basic_unicode basic_unicode_compatible)
    as (H1 & _ & H3 & _).
  split; [apply H1; by vm_compute | apply H3; by vm_compute].
Defined.

(** Whatever the character database, a text of one space normalizes to the
    empty text, which is then taken for absent input. *)
Lemma normalizar_espacio (ud : unicode) :
  ascii_compatible ud ->
  DbUtils.normalizar ud (Some (lit " ")) = Some []
  /\ DbUtils.normalizar ud (Some []) = None.
Proof.
  intros Hud. split; [|done].
  unfold DbUtils.normalizar. simpl negb. cbv iota zeta. simpl default.
  rewrite (nfkd_ascii ud Hud) by done.
  rewrite (pasos_ascii ud Hud); [by vm_compute|].
  apply ascii_ignore_all_ascii.
Qed.

(** C7, as stated, fails: normalizing " " gives the empty text, and
    normalizing the empty text gives an absent result. *)
Lemma normalizar_not_idempotent :
  DbUtils.normalizar basic_unicode
    (DbUtils.normalizar basic_unicode (Some (lit " ")))
  <> DbUtils.normalizar basic_unicode (Some (lit " ")).
Proof. by vm_compute. Qed.

(* ===================================================================== *)
(** * business/equivalencia.py *)
(* ===================================================================== *)

Section FloatFacts.
Import Equivalencia.

(** Comparing the other way round gives the opposite answer. *)
Lemma SFcompare_antisym (a b : float) :
  SFcompare b a = CompOpp <$> SFcompare a b.
Proof.
  destruct a as [sa|sa| |sa ma ea], b as [sb|sb| |sb mb eb]; simpl;
    try done; try (by destruct sa); try (by destruct sb);
    try (by destruct sa, sb).
  pose proof (Pos.compare_antisym ma mb) as Hm. unfold Pos.compare in Hm.
  destruct sa, sb; simpl; try done.
  - rewrite (Z.compare_antisym ea eb).
    destruct (ea ?= eb)%Z; simpl; try done.
    by rewrite Hm, CompOpp_involutive.
  - rewrite (Z.compare_antisym ea eb).
    destruct (ea ?= eb)%Z; simpl; try done.
    by rewrite Hm.
Qed.

Lemma fleb_not_fltb (a b : float) : fleb a b = true -> fltb b a = false.
Proof.
  unfold fleb, fltb, SFleb, SFltb. rewrite (SFcompare_antisym a b).
  by destruct (SFcompare a b) as [[]|].
Qed.

Lemma fltb_not_fltb (a b : float) : fltb a b = true -> fltb b a = false.
Proof.
  unfold fltb, SFltb. rewrite (SFcompare_antisym a b).
  by destruct (SFcompare a b) as [[]|].
Qed.

(** Adding to zero gives the same number (the two zeros are one number). *)
Lemma fadd_0_l (x : float) : fadd f0 x = x \/ feqb (fadd f0 x) x = true.
Proof. destruct x as [[]|[]| |]; simpl; auto. Qed.

Lemma py_max_0_no_negativo (y : float) : fltb (py_max f0 y) f0 = false.
Proof.
  unfold py_max. destruct (fltb f0 y) eqn:E; [|done].
  by apply fltb_not_fltb.
Qed.
End FloatFacts.

(** An [int] percentage converts to its float without error. *)
Lemma float_of_int_porcentaje (p : Z) :
  (0 <= p <= 100)%Z ->
  Equivalencia.float_of_int p = Returns (Equivalencia.of_int p).
Proof.
  intros Hp.
  assert (forallb (fun n => match Equivalencia.of_int (Z.of_nat n) with
                            | S754_infinity _ => false
                            | _ => true
                            end) (seq 0 101) = true) as H by by vm_compute.
  rewrite forallb_forall in H. specialize (H (Z.to_nat p)).
  rewrite Z2Nat.id in H by lia. unfold Equivalencia.float_of_int.
  destruct (Equivalencia.of_int p); try done.
  discriminate H. apply in_seq. lia.
Qed.

(** C5: the dispatch of [calcular_importe_equivalente].  An absent or zero
    nominal amount gives 0.0 for every instrument; a loan gives 25% of the
    principal for a term of 60 months or more, also when no term is given,
    and 15% for a shorter term; a guarantee gives the nominal amount times
    the coverage percentage over 100 (80 when none is given) times 0.05; an
    instrument that is none of the recognised ones gives the nominal amount
    and logs one warning that names it. *)
Theorem calcular_importe_equivalente_dispatch :
  (forall fecha regimen instrumento metadata,
      Equivalencia.calcular_importe_equivalente
        None fecha regimen instrumento metadata
      = (Returns Equivalencia.f0, []))
  /\ (forall x fecha regimen instrumento metadata,
      Equivalencia.feqb x Equivalencia.f0 = true ->
      Equivalencia.calcular_importe_equivalente
        (Some x) fecha regimen instrumento metadata
      = (Returns Equivalencia.f0, []))
  /\ (forall x fecha regimen metadata,
      Equivalencia.feqb x Equivalencia.f0 = false ->
      let plazo := default ∅ metadata !! "plazo_meses" in
      let r := Equivalencia.calcular_importe_equivalente
                 (Some x) fecha regimen (Some Equivalencia.PRESTAMO) metadata in
      let veinticinco :=
        (Returns (Equivalencia.fmul x Equivalencia.f0_25), []) in
      let quince :=
        (Returns (Equivalencia.fmul x Equivalencia.f0_15), []) in
      (plazo = None -> r = veinticinco)
      /\ (forall m, plazo = Some (Equivalencia.VInt m) ->
            (60 <= m)%Z -> r = veinticinco)
      /\ (forall m, plazo = Some (Equivalencia.VInt m) ->
            (m < 60)%Z -> r = quince)
      /\ (forall f, plazo = Some (Equivalencia.VFloat f) ->
            Equivalencia.fleb (Equivalencia.of_int 60) f = true ->
            r = veinticinco)
      /\ (forall f, plazo = Some (Equivalencia.VFloat f) ->
            Equivalencia.fltb f (Equivalencia.of_int 60) = true ->
            r = quince))
  /\ (forall x fecha regimen metadata,
      Equivalencia.feqb x Equivalencia.f0 = false ->
      let porcentaje := default ∅ metadata !! "porcentaje_garantia" in
      let r := Equivalencia.calcular_importe_equivalente
                 (Some x) fecha regimen (Some Equivalencia.GARANTIA) metadata in
      let prima (cobertura : Equivalencia.float) :=
        (Returns (Equivalencia.fmul (Equivalencia.fmul x cobertura)
                                    Equivalencia.f0_05),
         @nil string) in
      (porcentaje = None ->
       r = prima (Equivalencia.fdiv (Equivalencia.of_int 80) Equivalencia.f100))
      /\ (forall p, porcentaje = Some (Equivalencia.VInt p) ->
            (0 <= p <= 100)%Z ->
            r = prima (Equivalencia.fdiv (Equivalencia.of_int p)
                                         Equivalencia.f100))
      /\ (forall p, porcentaje = Some (Equivalencia.VInt p) ->
            r = match Equivalencia.float_of_int p with
                | Returns c => prima (Equivalencia.fdiv c Equivalencia.f100)
                | Raises e => (Raises e, [])
                end)
      /\ (forall p, porcentaje = Some (Equivalencia.VFloat p) ->
            r = prima (Equivalencia.fdiv p Equivalencia.f100)))
  /\ (forall x fecha regimen instrumento metadata,
      Equivalencia.feqb x Equivalencia.f0 = false ->
      instrumento ∉ [Equivalencia.SUBVENCION_DIRECTA; Equivalencia.PRESTAMO;
                     Equivalencia.GARANTIA; Equivalencia.CAPITAL;
                     Equivalencia.VENTAJA_FISCAL] ->
      Equivalencia.calcular_importe_equivalente
        (Some x) fecha regimen (Some instrumento) metadata
      = (Returns x,
         ["Instrumento no reconocido '" +:+ instrumento
            +:+ "'. Usando importe nominal como equivalente."])).
Proof.
  unfold Equivalencia.calcular_importe_equivalente.
  split; [done|]. split; [by intros x ? ? ? ? ->|].
  split; [|split].
  - intros x fecha regimen metadata ->. cbv zeta.
    unfold Equivalencia._calcular_equivalente_prestamo_placeholder.
    change (String.eqb Equivalencia.PRESTAMO Equivalencia.SUBVENCION_DIRECTA)
      with false.
    change (String.eqb Equivalencia.PRESTAMO Equivalencia.PRESTAMO) with true.
    cbv iota.
    split; [by intros ->|].
    split; [|split; [|split]].
    + intros m -> Hm. unfold Equivalencia.lt_int. cbn [default from_option id].
      by rewrite (proj2 (Z.ltb_ge m 60) Hm).
    + intros m -> Hm. unfold Equivalencia.lt_int. cbn [default from_option id].
      by rewrite (proj2 (Z.ltb_lt m 60) Hm).
    + intros f -> Hf. unfold Equivalencia.lt_int. cbn [default from_option id].
      by rewrite (fleb_not_fltb _ _ Hf).
    + intros f -> Hf. unfold Equivalencia.lt_int. cbn [default from_option id].
      by rewrite Hf.
  - intros x fecha regimen metadata ->. cbv zeta.
    unfold Equivalencia._calcular_equivalente_garantia_placeholder.
    change (String.eqb Equivalencia.GARANTIA Equivalencia.SUBVENCION_DIRECTA)
      with false.
    change (String.eqb Equivalencia.GARANTIA Equivalencia.PRESTAMO) with false.
    change (String.eqb Equivalencia.GARANTIA Equivalencia.GARANTIA) with true.
    cbv iota.
    split; [by intros ->|]. split; [|split].
    + intros p -> Hp. cbn [default from_option id Equivalencia.div_float].
      by rewrite (float_of_int_porcentaje p Hp).
    + intros p ->. cbn [default from_option id Equivalencia.div_float].
      by destruct (Equivalencia.float_of_int p).
    + by intros p ->.
  - intros x fecha regimen instrumento metadata -> Hi.
    assert (forall s, s ∈ [Equivalencia.SUBVENCION_DIRECTA;
                           Equivalencia.PRESTAMO; Equivalencia.GARANTIA;
                           Equivalencia.CAPITAL; Equivalencia.VENTAJA_FISCAL] ->
                      String.eqb instrumento s = false) as Hne.
    { intros s Hs. apply String.eqb_neq. by intros ->. }
    rewrite !Hne; [done|set_solver..].
Qed.

Lemma calcular_importe_equivalente_dispatch_witness :
  Equivalencia.calcular_importe_equivalente
    (Some (Equivalencia.of_int 100000)) {| Equivalencia.year := 2023;
      Equivalencia.month := 1; Equivalencia.day := 1 |} None
    (Some "prestamo") (Some {[ "plazo_meses" := Equivalencia.VInt 60 ]})
  = (Returns (Equivalencia.of_int 25000), [])
  /\ Equivalencia.calcular_importe_equivalente
       (Some (Equivalencia.of_int 100000)) {| Equivalencia.year := 2023;
         Equivalencia.month := 1; Equivalencia.day := 1 |} None
       (Some "prestamo") (Some {[ "plazo_meses" := Equivalencia.VInt 59 ]})
     = (Returns (Equivalencia.of_int 15000), [])
  /\ Equivalencia.calcular_importe_equivalente
       (Some (Equivalencia.of_int 100000)) {| Equivalencia.year := 2023;
         Equivalencia.month := 1; Equivalencia.day := 1 |} None
       (Some "leasing") None
     = (Returns (Equivalencia.of_int 100000),
        ["Instrumento no reconocido 'leasing'. Usando importe nominal como equivalente."])
  /\ Equivalencia.calcular_importe_equivalente
       (Some (Equivalencia.of_int 100000)) {| Equivalencia.year := 2023;
         Equivalencia.month := 1; Equivalencia.day := 1 |} None
       (Some "garantia")
       (Some {[ "porcentaje_garantia" := Equivalencia.VInt (2 ^ 1024) ]})
     = (Raises OverflowError, []).
Proof.
  destruct calcular_importe_equivalente_dispatch as (_ & _ & Hp & Hg & Ho).
  split; [|split; [|split]]; cycle 3.
  { destruct (Hg (Equivalencia.of_int 100000)
                {| Equivalencia.year := 2023; Equivalencia.month := 1;
                   Equivalencia.day := 1 |} None
                (Some {[ "porcentaje_garantia"
                         := Equivalencia.VInt (2 ^ 1024) ]}) eq_refl)
      as (_ & _ & H & _).
    etransitivity; [exact (H (2 ^ 1024)%Z eq_refl) | by vm_compute]. }
  - destruct (Hp (Equivalencia.of_int 100000)
                {| Equivalencia.year := 2023; Equivalencia.month := 1;
                   Equivalencia.day := 1 |} None
                (Some {[ "plazo_meses" := Equivalencia.VInt 60 ]}) eq_refl)
      as (_ & H & _).
    exact (H 60%Z eq_refl ltac:(lia)).
  - destruct (Hp (Equivalencia.of_int 100000)
                {| Equivalencia.year := 2023; Equivalencia.month := 1;
                   Equivalencia.day := 1 |} None
                (Some {[ "plazo_meses" := Equivalencia.VInt 59 ]}) eq_refl)
      as (_ & _ & H & _).
    exact (H 59%Z eq_refl ltac:(lia)).
  - apply (Ho (Equivalencia.of_int 100000)); [reflexivity|].
    apply (bool_decide_unpack _). by vm_compute.
Defined.

(** C6: the de-minimis check assumes no prior aid: the prior total is 0,
    the new total is the new amount, the ceiling is 300000, the check is
    valid exactly when the new total does not exceed the ceiling, and the
    remaining margin is the larger of 0 and ceiling minus total, never
    negative.  250000 is valid with margin 50000; 350000 is not valid, with
    margin 0. *)
Theorem validar_limite_de_minimis_aritmetica :
  (forall beneficiario_id x fecha ventana,
     let r := Equivalencia.validar_limite_de_minimis
                beneficiario_id x fecha ventana in
     Equivalencia.acumulado_previo r = Equivalencia.f0
     /\ (Equivalencia.acumulado_total r = x
         \/ Equivalencia.feqb (Equivalencia.acumulado_total r) x = true)
     /\ Equivalencia.limite_aplicable r = Equivalencia.of_int 300000
     /\ (Equivalencia.valido r = true <->
         Equivalencia.fleb (Equivalencia.acumulado_total r)
                           (Equivalencia.of_int 300000) = true)
     /\ Equivalencia.margen_restante r
        = (let resto := Equivalencia.fsub (Equivalencia.of_int 300000)
                                          (Equivalencia.acumulado_total r) in
           if Equivalencia.fltb Equivalencia.f0 resto then resto
           else Equivalencia.f0)
     /\ Equivalencia.fltb (Equivalencia.margen_restante r) Equivalencia.f0
        = false)
  /\ (forall beneficiario_id fecha ventana,
      let r := Equivalencia.validar_limite_de_minimis
                 beneficiario_id (Equivalencia.of_int 250000) fecha ventana in
      Equivalencia.valido r = true
      /\ Equivalencia.acumulado_total r = Equivalencia.of_int 250000
      /\ Equivalencia.margen_restante r = Equivalencia.of_int 50000)
  /\ (forall beneficiario_id fecha ventana,
      let r := Equivalencia.validar_limite_de_minimis
                 beneficiario_id (Equivalencia.of_int 350000) fecha ventana in
      Equivalencia.valido r = false
      /\ Equivalencia.acumulado_total r = Equivalencia.of_int 350000
      /\ Equivalencia.margen_restante r = Equivalencia.f0).
Proof.
  split; [|split].
  - intros beneficiario_id x fecha ventana. cbv zeta.
    unfold Equivalencia.validar_limite_de_minimis. simpl.
    split; [done|]. split; [apply fadd_0_l|]. split; [done|].
    split; [done|]. split; [done|]. apply py_max_0_no_negativo.
  - intros. by vm_compute.
  - intros. by vm_compute.
Qed.

(* ===================================================================== *)
(** * db/models.py: the derived amount of a grant *)
(* ===================================================================== *)

Lemma or_0_default (x : option Z) : Models.or_0 x = default 0%Z x.
Proof.
  destruct x as [v|]; [|done]. simpl.
  destruct (Z.eqb_spec v 0) as [->|]; done.
Qed.

(** C9: the derived amount of a grant is its equivalent amount when the
    linked regime is state aid, and its nominal amount otherwise (also when
    no regime is linked); an unset amount counts as 0. *)
Theorem concesion_importe (c : Models.Concesion) :
  (Models.es_ayuda_estado c = true <->
   exists r, Models.regimen_ayuda c = Some r
             /\ Models.descripcion_norm r = "ayuda_estado")
  /\ Models.importe c
     = if Models.es_ayuda_estado c
       then default 0%Z (Models.importe_equivalente c)
       else default 0%Z (Models.importe_nominal c).
Proof.
  split.
  - unfold Models.es_ayuda_estado, Models.regimen_tipo_norm.
    rewrite bool_decide_eq_true.
    destruct (Models.regimen_ayuda c) as [r|].
    + split; [intros [= H]; by exists r | by intros (r' & [= <-] & ->)].
    + split; [done | by intros (r' & ? & _)].
  - unfold Models.importe. by rewrite !or_0_default.
Qed.

Lemma bind_Returns {A B} (a : A) (k : A -> outcome B) :
  Returns a ≫= k = k a.
Proof. reflexivity. Qed.

(* ===================================================================== *)
(** * auth/jwt_auth.py *)
(* ===================================================================== *)

Section JwtFacts.
Import Jose JwtAuth.
Variable int_str : string -> option Z.

(** The time claims that [int] cannot read raise [TypeError]: with the
    JSON values at hand, these are the null ones. *)
Lemma int_claim_casos (v : json) :
  (exists z, int_claim int_str v = Returns z)
  \/ int_claim int_str v = Raises JWTError
  \/ (v = JNull /\ int_claim int_str v = Raises TypeError).
Proof.
  unfold int_claim, int. destruct v as [|b|z|s]; eauto.
  destruct (int_str s); eauto.
Qed.

Lemma int_claim_JInt (z : Z) : int_claim int_str (JInt z) = Returns z.
Proof. done. Qed.

Lemma bind_Returns_inv {A B} (m : outcome A) (k : A -> outcome B) (b : B) :
  m ≫= k = Returns b -> exists a, m = Returns a /\ k a = Returns b.
Proof. destruct m as [a|e]; [by exists a | done]. Qed.

(** What a claim set that validates satisfies. *)
Lemma validate_claims_Returns (now : Z) (p : gmap string json) :
  _validate_claims int_str now p = Returns tt ->
  (forall v, p !! "exp" = Some v ->
     exists e, int_claim int_str v = Returns e /\ (timegm now <= e)%Z)
  /\ (forall v, p !! "sub" = Some v -> exists u, v = JStr u).
Proof.
  unfold _validate_claims. intros H.
  apply bind_Returns_inv in H as (x1 & _ & H).
  apply bind_Returns_inv in H as (x2 & _ & H).
  apply bind_Returns_inv in H as (x3 & He & H).
  apply bind_Returns_inv in H as (x4 & _ & H).
  apply bind_Returns_inv in H as (x5 & Hs & _).
  split.
  - intros v Hv. unfold _validate_exp in He. rewrite Hv in He.
    apply bind_Returns_inv in He as (e & He & Hlt). exists e.
    split; [done|]. destruct (e <? timegm now)%Z eqn:El; [done|].
    by apply Z.ltb_ge.
  - intros v Hv. unfold _validate_str in Hs. rewrite Hv in Hs.
    destruct v; try done. by eexists.
Qed.

(** A token decodes exactly when it was signed with the key and the
    algorithm of the module and its registered claims are valid. *)
Lemma decode_token_Some (now : Z) (t : token) (p : gmap string json) :
  decode_token int_str now t = Returns (Some p)
  <-> t = Signed SECRET_KEY ALGORITHM p
      /\ _validate_claims int_str now p = Returns tt.
Proof.
  unfold decode_token, decode.
  destruct t as [k a c|raw]; [|by split; [|intros [? _]]].
  simpl existsb. rewrite orb_false_r.
  destruct (String.eqb_spec k SECRET_KEY) as [->|Hk];
    destruct (String.eqb_spec a ALGORITHM) as [->|Ha]; simpl;
    try (split; [done | intros [[= ? ?] _]; congruence]).
  destruct (_validate_claims int_str now c) as [[]|e] eqn:E.
  - rewrite bind_Returns. split; [by intros [= ->] | by intros [[= ->] _]].
  - split.
    + cbn [mbind outcome_bind Py.bind]. by destruct e.
    + intros [[= ->] ?]. congruence.
Qed.

(** What [decode_token] does with a token of the module's key and
    algorithm. *)
Lemma decode_token_Signed (now : Z) (p : gmap string json) :
  decode_token int_str now (Signed SECRET_KEY ALGORITHM p)
  = match _validate_claims int_str now p with
    | Returns _ => Returns (Some p)
    | Raises JWTError => Returns None
    | Raises e => Raises e
    end.
Proof.
  unfold decode_token, decode.
  change (String.eqb SECRET_KEY SECRET_KEY
          && existsb (String.eqb ALGORITHM) [ALGORITHM]) with true.
  cbv iota. by destruct (_validate_claims int_str now p) as [[]|e].
Qed.

Lemma timegm_mono (a b : Z) : (a <= b)%Z -> (timegm a <= timegm b)%Z.
Proof. intros H. unfold timegm. by apply Z.div_le_mono. Qed.


Lemma datetime_add_Returns (dt delta : Z) :
  (datetime_min <= dt + delta <= datetime_max)%Z ->
  datetime_add dt delta = Returns (dt + delta)%Z.
Proof.
  intros [H1 H2]. unfold datetime_add. cbv zeta.
  by rewrite (proj2 (Z.leb_le _ _) H1), (proj2 (Z.leb_le _ _) H2).
Qed.

Lemma datetime_add_inv (dt delta r : Z) :
  datetime_add dt delta = Returns r ->
  r = (dt + delta)%Z /\ (datetime_min <= dt + delta <= datetime_max)%Z.
Proof.
  unfold datetime_add. cbv zeta.
  destruct (datetime_min <=? dt + delta)%Z eqn:E1; [|done].
  destruct (dt + delta <=? datetime_max)%Z eqn:E2; [|done].
  intros [= <-]. apply Z.leb_le in E1, E2. done.
Qed.

(** The token that [create_access_token] returns. *)
Lemma create_access_token_inv (now : Z) (data : gmap string json)
    (delta : option Z) (t : token) :
  create_access_token now data delta = Returns t ->
  let vida := match delta with
              | Some d => if (d =? 0)%Z then 1800000000%Z else d
              | None => 1800000000%Z
              end in
  t = Signed SECRET_KEY ALGORITHM
        (<["exp" := JInt (timegm (now + vida))]> data)
  /\ (datetime_min <= now + vida <= datetime_max)%Z.
Proof.
  unfold create_access_token. cbv zeta. intros H.
  apply bind_Returns_inv in H as (e & He & [= <-]).
  destruct delta as [d|]; [destruct (d =? 0)%Z|];
    apply datetime_add_inv in He as [-> ?]; done.
Qed.

Lemma create_access_token_Returns (now : Z) (data : gmap string json)
    (delta : option Z) :
  let vida := match delta with
              | Some d => if (d =? 0)%Z then 1800000000%Z else d
              | None => 1800000000%Z
              end in
  (datetime_min <= now + vida <= datetime_max)%Z ->
  create_access_token now data delta
  = Returns (Signed SECRET_KEY ALGORITHM
               (<["exp" := JInt (timegm (now + vida))]> data)).
Proof.
  cbv zeta. intros H. unfold create_access_token. cbv zeta.
  change (timedelta_minutes ACCESS_TOKEN_EXPIRE_MINUTES) with 1800000000%Z.
  destruct delta as [d|]; [destruct (d =? 0)%Z|];
    by rewrite (datetime_add_Returns _ _ H).
Qed.

Lemma create_refresh_token_Returns (now : Z) (data : gmap string json) :
  (datetime_min <= now + 604800000000 <= datetime_max)%Z ->
  create_refresh_token now data
  = Returns (Signed SECRET_KEY ALGORITHM
               (<["type" := JStr "refresh"]>
                  (<["exp" := JInt (timegm (now + 604800000000))]> data))).
Proof.
  intros H. unfold create_refresh_token. cbv zeta.
  change (timedelta_days REFRESH_TOKEN_EXPIRE_DAYS) with 604800000000%Z.
  by rewrite (datetime_add_Returns _ _ H).
Qed.

(** The claim set of a token pair is valid until it expires. *)
Lemma validate_claims_pair (now e : Z) (u r : string) :
  (timegm now <= e)%Z ->
  _validate_claims int_str now
    (<["exp" := JInt e]> {[ "sub" := JStr u; "role" := JStr r ]})
  = Returns tt.
Proof.
  intros He.
  unfold _validate_claims, _validate_iat, _validate_nbf, _validate_exp,
    _validate_str, _validate_ausente.
  simplify_map_eq. cbn [int_claim int mbind outcome_bind Py.bind].
  by rewrite (proj2 (Z.ltb_ge e (timegm now)) He).
Qed.

Lemma validate_claims_pair_refresh (now e : Z) (u r : string) :
  (timegm now <= e)%Z ->
  _validate_claims int_str now
    (<["type" := JStr "refresh"]>
       (<["exp" := JInt e]> {[ "sub" := JStr u; "role" := JStr r ]}))
  = Returns tt.
Proof.
  intros He.
  unfold _validate_claims, _validate_iat, _validate_nbf, _validate_exp,
    _validate_str, _validate_ausente.
  simplify_map_eq. cbn [int_claim int mbind outcome_bind Py.bind].
  by rewrite (proj2 (Z.ltb_ge e (timegm now)) He).
Qed.

(** An expired claim set whose [iat] and [nbf] are not null is refused
    with a [JWTError]. *)
Lemma validate_claims_expired (now e : Z) (p : gmap string json) :
  p !! "exp" = Some (JInt e) -> (e < timegm now)%Z ->
  p !! "iat" <> Some JNull -> p !! "nbf" <> Some JNull ->
  _validate_claims int_str now p = Raises JWTError.
Proof.
  intros Hp He Hi Hn. unfold _validate_claims.
  assert (_validate_iat int_str p = Returns tt
          \/ _validate_iat int_str p = Raises JWTError) as [-> | ->];
    [|rewrite bind_Returns|done].
  { unfold _validate_iat. destruct (p !! "iat") as [v|]; [|by left].
    destruct (int_claim_casos v) as [[z ->]|[->|[-> _]]]; auto. done. }
  assert (_validate_nbf int_str now p = Returns tt
          \/ _validate_nbf int_str now p = Raises JWTError) as [-> | ->];
    [|rewrite bind_Returns|done].
  { unfold _validate_nbf. destruct (p !! "nbf") as [v|]; [|by left].
    destruct (int_claim_casos v) as [[z ->]|[->|[-> _]]]; auto; [|done].
    rewrite bind_Returns. destruct (timegm now <? z)%Z; auto. }
  unfold _validate_exp. rewrite Hp, int_claim_JInt, bind_Returns.
  by rewrite (proj2 (Z.ltb_lt e (timegm now)) He).
Qed.

(** A null [iat] makes the codec raise [TypeError]. *)
Lemma validate_claims_iat_nulo (now : Z) (p : gmap string json) :
  p !! "iat" = Some JNull ->
  _validate_claims int_str now p = Raises TypeError.
Proof. intros H. unfold _validate_claims, _validate_iat. by rewrite H. Qed.
End JwtFacts.

Section JwtTheorems.
Import Jose JwtAuth.
Variable int_str : string -> option Z.

Lemma pair_lookup_sub (e : Z) (u r : string) :
  (<["exp" := JInt e]> ({[ "sub" := JStr u; "role" := JStr r ]}
     : gmap string json)) !! "sub" = Some (JStr u).
Proof. by simplify_map_eq. Qed.

Lemma pair_lookup_role (e : Z) (u r : string) :
  (<["exp" := JInt e]> ({[ "sub" := JStr u; "role" := JStr r ]}
     : gmap string json)) !! "role" = Some (JStr r).
Proof. by simplify_map_eq. Qed.

(** The pair that [create_token_pair] returns. *)
Lemma create_token_pair_inv (now : Z) (u r : string) (pair : Token) :
  create_token_pair now u r = Returns pair ->
  access_token pair
  = Signed SECRET_KEY ALGORITHM
      (<["exp" := JInt (timegm (now + 1800000000))]>
         {[ "sub" := JStr u; "role" := JStr r ]})
  /\ refresh_token pair
     = Signed SECRET_KEY ALGORITHM
         (<["type" := JStr "refresh"]>
            (<["exp" := JInt (timegm (now + 604800000000))]>
               {[ "sub" := JStr u; "role" := JStr r ]}))
  /\ token_type pair = "bearer".
Proof.
  unfold create_token_pair. intros H.
  apply bind_Returns_inv in H as (a & Ha & H).
  apply bind_Returns_inv in H as (b & Hb & [= <-]).
  apply create_access_token_inv in Ha as [-> _].
  unfold create_refresh_token in Hb. cbv zeta in Hb.
  apply bind_Returns_inv in Hb as (e & He & [= <-]).
  apply datetime_add_inv in He as [-> _]. done.
Qed.

(** While the clock is a [datetime] and stays one for seven days,
    [create_token_pair] returns. *)
Lemma create_token_pair_Returns (now : Z) (u r : string) :
  (datetime_min <= now)%Z -> (now + timedelta_days 7 <= datetime_max)%Z ->
  exists pair, create_token_pair now u r = Returns pair.
Proof.
  unfold timedelta_days, datetime_min, datetime_max. intros H1 H2.
  unfold create_token_pair.
  rewrite create_access_token_Returns
    by (unfold datetime_min, datetime_max; lia).
  rewrite bind_Returns.
  rewrite create_refresh_token_Returns
    by (unfold datetime_min, datetime_max; lia).
  rewrite bind_Returns. by eexists.
Qed.

Lemma verify_token_pair (now now' : Z) (u r : string) (pair : Token) :
  create_token_pair now u r = Returns pair ->
  (now' <= now + timedelta_minutes 30)%Z ->
  verify_token int_str now' (access_token pair)
  = Returns (Some {| username := u; role := r |}).
Proof.
  intros Hp Hn. apply create_token_pair_inv in Hp as (-> & _ & _).
  change (timedelta_minutes 30) with 1800000000%Z in Hn.
  unfold verify_token.
  rewrite (proj2 (decode_token_Some int_str now' _ _)
             (conj eq_refl (validate_claims_pair int_str now' _ u r
                              (timegm_mono _ _ Hn)))).
  rewrite bind_Returns.
  unfold get, get_default. by rewrite pair_lookup_sub, pair_lookup_role.
Qed.


Lemma refresh_access_token_Some (now : Z) (t t' : token) :
  refresh_access_token int_str now t = Returns (Some t') ->
  exists p u,
    decode_token int_str now t = Returns (Some p)
    /\ p !! "type" = Some (JStr "refresh")
    /\ p !! "sub" = Some (JStr u)
    /\ create_access_token now
         {[ "sub" := JStr u;
            "role" := default (JStr "user") (p !! "role") ]} None
       = Returns t'.
Proof.
  unfold refresh_access_token. intros H.
  apply bind_Returns_inv in H as ([p|] & E & H); [|done].
  pose proof E as E'. apply decode_token_Some in E' as [-> Hv].
  unfold get, get_default in H.
  destruct (p !! "type") as [[| | |ty]|] eqn:Ety; try done. simpl in H.
  destruct (String.eqb_spec ty "refresh") as [->|]; [|done]. simpl in H.
  destruct (p !! "sub") as [v|] eqn:Esub; [|done].
  destruct (proj2 (validate_claims_Returns int_str now p Hv) v Esub)
    as [u ->].
  simpl in H. apply bind_Returns_inv in H as (t0 & Ht0 & [= <-]).
  exists p, u. by repeat split.
Qed.
End JwtTheorems.




(** A null [iat] in the claim set: the codec raises [TypeError], which
    [decode_token] does not catch. *)
Lemma decode_token_TypeError (int_str : string -> option Z) (now now' : Z)
    (data : gmap string Jose.json) (delta : option Z) (t : Jose.token) :
  data !! "iat" = Some Jose.JNull ->
  JwtAuth.create_access_token now data delta = Returns t ->
  JwtAuth.decode_token int_str now' t = Raises TypeError.
Proof.
  intros Hi Ht. apply create_access_token_inv in Ht as [-> _].
  rewrite decode_token_Signed, validate_claims_iat_nulo; [done|].
  by rewrite lookup_insert_ne.
Qed.





(* ===================================================================== *)
(** * auth/service.py: update_user *)
(* ===================================================================== *)

Section ServiceFacts.
Import Service.

Lemma mismos_campos_refl (u : Usuario) : mismos_campos u u.
Proof. by repeat split. Qed.

Lemma mismos_campos_role (now : Z) (u : Usuario) (v : option string) :
  mismos_campos u (touch now (setattr u (I_role v))).
Proof. by repeat split. Qed.
End ServiceFacts.

(** C8: an update that sets only the role leaves every other stored field
    of the user as it was: the call either returns the stored user, with
    the new role, or raises and stores nothing; no other row changes; and
    for an id that is not in the table the call returns no result and the
    table is unchanged. *)
Theorem update_user_parcial :
  (forall (now : Z) (db : gmap string Service.Usuario) (user_id : string)
          (u : Service.Usuario) (v : option string),
      db !! user_id = Some u ->
      let r := Service.update_user now db user_id (Service.solo_role v) in
      (exists u', fst r !! user_id = Some u'
                  /\ Service.mismos_campos u u'
                  /\ ((snd r = Returns (Some u') /\ Service.role u' = v)
                      \/ (snd r = Raises IntegrityError /\ fst r = db)))
      /\ (forall k, k <> user_id -> fst r !! k = db !! k))
  /\ (forall (now : Z) (db : gmap string Service.Usuario) (user_id : string)
             (user_data : Service.UsuarioUpdate),
      db !! user_id = None ->
      Service.update_user now db user_id user_data = (db, Returns None)).
Proof.
  split.
  - intros now db user_id u v Hu. cbv zeta.
    unfold Service.update_user, Service.get_user_by_id. rewrite Hu.
    change (fold_left Service.setattr
              (Service.model_dump_exclude_unset (Service.solo_role v)) u)
      with (Service.setattr u (Service.I_role v)).
    unfold Service.commit.
    destruct (bool_decide (Service.setattr u (Service.I_role v) = u)) eqn:E.
    + apply bool_decide_eq_true in E. simpl. split; [|done].
      exists u. split; [done|]. split; [apply mismos_campos_refl|].
      left. split; [by rewrite Hu|]. by rewrite <- E.
    + destruct (Service.not_null _ && Service.unique db user_id _); simpl.
      * split; [|by intros k Hk; rewrite lookup_insert_ne].
        eexists. split; [apply lookup_insert_eq|].
        split; [apply mismos_campos_role|].
        left. split; [by rewrite lookup_insert_eq | done].
      * split; [|done]. exists u. split; [done|].
        split; [apply mismos_campos_refl|]. by right.
  - intros now db user_id user_data Hu.
    unfold Service.update_user, Service.get_user_by_id. by rewrite Hu.
Qed.

Lemma update_user_parcial_witness :
  let u := {| Service.id := "u1"; Service.username := "ana";
              Service.email := Some "ana@example.org";
              Service.hashed_password := "$2b$12$hash";
              Service.nombre := Some "Ana"; Service.role := Some "user";
              Service.activo := Some true;
              Service.telegram_chat_id := None;
              Service.telegram_username := None;
              Service.telegram_verificado := Some false;
              Service.created_at := 10; Service.updated_at := None |} in
  let db : gmap string Service.Usuario := {[ "u1" := u ]} in
  (exists u', fst (Service.update_user 20 db "u1"
                     (Service.solo_role (Some "viewer"))) !! "u1" = Some u'
              /\ Service.mismos_campos u u')
  /\ Service.update_user 20 db "u2" (Service.solo_role (Some "viewer"))
     = (db, Returns None).
Proof.
  intros u db. destruct update_user_parcial as [H1 H2]. split.
  - destruct (H1 20%Z db "u1" u (Some "viewer") (lookup_singleton_eq _ _))
      as [(u' & Hu' & Hsame & _) _].
    exists u'. by split.
  - apply H2. by apply lookup_singleton_ne.
Defined.

(* ===================================================================== *)
(** * db/nif_utils.py: the derived predicates and the entity type *)
(* ===================================================================== *)


Section NifMore.
Import NifUtils.
Variable ud : unicode.

Lemma juridica_casos (nif : option str) :
  es_persona_juridica ud nif =
  forma ← interpretar_forma_juridica_desde_nif ud nif;
  Returns (negb (str_eqb forma PERSONA_FISICA || str_eqb forma DESCONOCIDO)).
Proof.
  unfold es_persona_juridica.
  destruct (interpretar_forma_juridica_desde_nif ud nif) as [f|e]; [|done].
  simpl. by rewrite orb_false_r.
Qed.

Lemma tipo_entidad_casos (nif : option str) :
  obtener_tipo_entidad_desde_nif ud nif =
  if negb (truthy nif) then Returns DESCONOCIDO
  else
    let nif_clean := upper ud (strip ud (default [] nif)) in
    if contains 42 nif_clean then Returns DESCONOCIDO
    else match nif_clean with
         | [] => Returns DESCONOCIDO
         | c :: _ =>
           if existsb (str_eqb [c]) [lit "P"; lit "Q"; lit "S"]
           then Returns (lit "Pública")
           else if dict_contains FORMAS_JURIDICAS_NIF [c]
           then Returns (lit "Privada")
           else if isdigit ud [c]
                   || existsb (str_eqb [c]) [lit "X"; lit "Y"; lit "Z"]
           then Returns (lit "Privada")
           else Returns DESCONOCIDO
         end.
Proof.
  unfold obtener_tipo_entidad_desde_nif.
  destruct (negb (truthy nif)); [done|]. cbv zeta.
  destruct (upper ud (strip ud (default [] nif))) as [|c r]; simpl.
  - by destruct (contains 42 []).
  - by destruct (contains 42 (c :: r)).
Qed.

Lemma tabla_sin_desconocido (k v : str) :
  (k, v) ∈ FORMAS_JURIDICAS_NIF ->
  v <> DESCONOCIDO /\ k <> lit "?" /\ length k = 1%nat.
Proof.
  assert (Forall (fun kv => snd kv <> DESCONOCIDO /\ fst kv <> lit "?"
                            /\ length (fst kv) = 1%nat)
                 FORMAS_JURIDICAS_NIF) as H.
  { apply (bool_decide_unpack _). by vm_compute. }
  intros Hin. rewrite Forall_forall in H. exact (H (k, v) Hin).
Qed.

Lemma publicas_en_tabla (c : N) :
  existsb (str_eqb [c]) [lit "P"; lit "Q"; lit "S"] = true ->
  dict_contains FORMAS_JURIDICAS_NIF [c] = true.
Proof.
  intros H. apply existsb_exists in H as (k & Hk & Heq).
  apply str_eqb_eq in Heq. rewrite Heq. clear Heq.
  apply list_elem_of_In in Hk.
  repeat (apply elem_of_cons in Hk as [->|Hk]; [by vm_compute|]).
  by apply elem_of_nil in Hk.
Qed.

Lemma existsb_str_eqb (x : str) (l : list str) :
  existsb (str_eqb x) l = true <-> x ∈ l.
Proof.
  rewrite existsb_exists. split.
  - intros (k & Hk & Heq). apply str_eqb_eq in Heq. subst.
    by apply list_elem_of_In.
  - intros H. exists x. split; [by apply list_elem_of_In|].
    by apply str_eqb_eq.
Qed.
End NifMore.

(** X1: the two predicates never fail and never hold together; both are
    false exactly when the classification is "Desconocido", which is
    exactly when the natural code is "?". *)
Theorem nif_fisica_juridica_excluyentes (ud : unicode) (nif : option str) :
  exists f j : bool,
    NifUtils.es_persona_fisica ud nif = Returns f
    /\ NifUtils.es_persona_juridica ud nif = Returns j
    /\ (f && j = false)
    /\ ((f || j = false) <->
        NifUtils.interpretar_forma_juridica_desde_nif ud nif
        = Returns NifUtils.DESCONOCIDO)
    /\ ((f || j = false) <->
        NifUtils.obtener_codigo_natural_desde_nif ud nif = Returns (lit "?")).
Proof.
  rewrite juridica_casos. unfold NifUtils.es_persona_fisica.
  rewrite interpretar_casos, codigo_natural_casos.
  destruct (negb (truthy nif)).
  { exists false, false. by vm_compute. }
  cbv zeta. destruct (contains 42 _).
  { exists true, false. by vm_compute. }
  destruct (upper ud (strip ud (default [] nif))) as [|c r].
  { exists false, false. by vm_compute. }
  destruct (dict_contains NifUtils.FORMAS_JURIDICAS_NIF [c]) eqn:E.
  - destruct (dict_contains_getitem _ _ E) as (v & -> & Hin).
    destruct (tabla_sin_persona_fisica _ _ Hin) as [_ Hv].
    destruct (tabla_sin_desconocido _ _ Hin) as (Hd & Hq & _).
    exists false, true.
    rewrite !bind_Returns.
    assert (str_eqb v NifUtils.PERSONA_FISICA = false) as ->.
    { apply not_true_is_false. by rewrite str_eqb_eq. }
    assert (str_eqb v NifUtils.DESCONOCIDO = false) as ->.
    { apply not_true_is_false. by rewrite str_eqb_eq. }
    repeat split; try done; intros ?; exfalso; congruence.
  - destruct (isdigit ud [c]).
    { exists true, false. by vm_compute. }
    destruct (existsb _ _).
    { exists true, false. by vm_compute. }
    exists false, false. by vm_compute.
Qed.

(** X2: the natural code is one character: the asterisk, the question mark
    or a key of the table; when it is a key, the identifier is a legal
    person and its classification is the table's entry for the code. *)
Theorem codigo_natural_indexa_tabla (ud : unicode) (nif : option str) :
  exists c, NifUtils.obtener_codigo_natural_desde_nif ud nif = Returns c
    /\ length c = 1%nat
    /\ (c = lit "*" \/ c = lit "?"
        \/ (dict_contains NifUtils.FORMAS_JURIDICAS_NIF c = true
            /\ NifUtils.interpretar_forma_juridica_desde_nif ud nif
               = dict_getitem NifUtils.FORMAS_JURIDICAS_NIF c
            /\ NifUtils.es_persona_juridica ud nif = Returns true)).
Proof.
  rewrite juridica_casos, interpretar_casos, codigo_natural_casos.
  destruct (negb (truthy nif)); [exists (lit "?"); by auto|].
  cbv zeta. destruct (contains 42 _); [exists (lit "*"); by auto|].
  destruct (upper ud (strip ud (default [] nif))) as [|c r];
    [exists (lit "?"); by auto|].
  destruct (dict_contains NifUtils.FORMAS_JURIDICAS_NIF [c]) eqn:E.
  - exists [c]. split; [done|]. split; [done|]. right. right.
    split; [done|]. split; [done|].
    destruct (dict_contains_getitem _ _ E) as (v & -> & Hin).
    destruct (tabla_sin_persona_fisica _ _ Hin) as [_ Hv].
    destruct (tabla_sin_desconocido _ _ Hin) as (Hd & _).
    rewrite !bind_Returns.
    assert (str_eqb v NifUtils.PERSONA_FISICA = false) as ->.
    { apply not_true_is_false. by rewrite str_eqb_eq. }
    assert (str_eqb v NifUtils.DESCONOCIDO = false) as ->.
    { apply not_true_is_false. by rewrite str_eqb_eq. }
    done.
  - destruct (isdigit ud [c]); [exists (lit "*"); by auto|].
    destruct (existsb _ _); [exists (lit "*") | exists (lit "?")]; by auto.
Qed.

(** X3: the entity type never fails and is "Pública", "Privada" or
    "Desconocido"; it is "Pública" exactly when the natural code is P, Q or
    S; a legal person is never of unknown type; an unknown classification
    has unknown type; and a natural person is "Privada" unless the
    identifier is redacted with asterisks, in which case the type is
    "Desconocido". *)
Theorem tipo_entidad_coherente (ud : unicode) (nif : option str) :
  exists t, NifUtils.obtener_tipo_entidad_desde_nif ud nif = Returns t
    /\ t ∈ [lit "Pública"; lit "Privada"; lit "Desconocido"]
    /\ (t = lit "Pública" <->
        exists c, NifUtils.obtener_codigo_natural_desde_nif ud nif = Returns c
                  /\ c ∈ [lit "P"; lit "Q"; lit "S"])
    /\ (NifUtils.es_persona_juridica ud nif = Returns true ->
        t <> lit "Desconocido")
    /\ (NifUtils.interpretar_forma_juridica_desde_nif ud nif
        = Returns NifUtils.DESCONOCIDO -> t = lit "Desconocido")
    /\ (NifUtils.es_persona_fisica ud nif = Returns true ->
        if contains 42 (upper ud (strip ud (default [] nif)))
        then t = lit "Desconocido" else t = lit "Privada").
Proof.
  rewrite juridica_casos. unfold NifUtils.es_persona_fisica.
  rewrite tipo_entidad_casos, interpretar_casos, codigo_natural_casos.
  assert (forall c : str, Returns c = Returns (lit "?") ->
            c ∈ [lit "P"; lit "Q"; lit "S"] -> False) as Hq.
  { intros c H Hin. assert (c = lit "?") as -> by congruence.
    apply existsb_str_eqb in Hin. by vm_compute in Hin. }
  assert (forall c : str, Returns c = Returns (lit "*") ->
            c ∈ [lit "P"; lit "Q"; lit "S"] -> False) as Ha.
  { intros c H Hin. assert (c = lit "*") as -> by congruence.
    apply existsb_str_eqb in Hin. by vm_compute in Hin. }
  destruct (negb (truthy nif)).
  { exists (lit "Desconocido"). split; [done|].
    split; [apply (bool_decide_unpack _); by vm_compute|].
    split; [|by vm_compute].
    split; [by vm_compute | intros (c & Hc & Hin); by destruct (Hq c)]. }
  cbv zeta. destruct (contains 42 _).
  { exists (lit "Desconocido"). split; [done|].
    split; [apply (bool_decide_unpack _); by vm_compute|].
    split; [|by vm_compute].
    split; [by vm_compute | intros (c & Hc & Hin); by destruct (Ha c)]. }
  destruct (upper ud (strip ud (default [] nif))) as [|c r].
  { exists (lit "Desconocido"). split; [done|].
    split; [apply (bool_decide_unpack _); by vm_compute|].
    split; [|by vm_compute].
    split; [by vm_compute | intros (c & Hc & Hin); by destruct (Hq c)]. }
  destruct (existsb (str_eqb [c]) [lit "P"; lit "Q"; lit "S"]) eqn:Ep.
  - rewrite (publicas_en_tabla c Ep).
    exists (lit "Pública"). split; [done|].
    split; [apply (bool_decide_unpack _); by vm_compute|].
    split; [|split; [by vm_compute|]].
    + split; [|done]. intros _. exists [c]. split; [done|].
      by apply existsb_str_eqb.
    + destruct (dict_contains_getitem _ _ (publicas_en_tabla c Ep))
        as (v & -> & Hin).
      destruct (tabla_sin_persona_fisica _ _ Hin) as [_ Hv].
      destruct (tabla_sin_desconocido _ _ Hin) as (Hd & _).
      split; [intros [= ?]; done|].
      rewrite !bind_Returns.
      intros [= H]. apply str_eqb_eq in H. done.
  - destruct (dict_contains NifUtils.FORMAS_JURIDICAS_NIF [c]) eqn:E.
    + exists (lit "Privada"). split; [done|].
    split; [apply (bool_decide_unpack _); by vm_compute|].
      split; [|split; [by vm_compute|]].
      * split; [by vm_compute|]. intros (c' & [= <-] & Hin).
        apply existsb_str_eqb in Hin. congruence.
      * destruct (dict_contains_getitem _ _ E) as (v & -> & Hin).
        destruct (tabla_sin_persona_fisica _ _ Hin) as [_ Hv].
        destruct (tabla_sin_desconocido _ _ Hin) as (Hd & _).
        split; [intros [= ?]; done|].
        rewrite !bind_Returns.
        intros [= H]. apply str_eqb_eq in H. done.
    + destruct (isdigit ud [c]); [rewrite orb_true_l | rewrite orb_false_l].
      { exists (lit "Privada"). split; [done|].
    split; [apply (bool_decide_unpack _); by vm_compute|].
        split; [|by vm_compute].
        split; [by vm_compute | intros (c' & Hc & Hin); by destruct (Ha c')]. }
      destruct (existsb (str_eqb [c]) [lit "X"; lit "Y"; lit "Z"]).
      { exists (lit "Privada"). split; [done|].
    split; [apply (bool_decide_unpack _); by vm_compute|].
        split; [|by vm_compute].
        split; [by vm_compute | intros (c' & Hc & Hin); by destruct (Ha c')]. }
      exists (lit "Desconocido"). split; [done|].
    split; [apply (bool_decide_unpack _); by vm_compute|].
      split; [|by vm_compute].
      split; [by vm_compute | intros (c' & Hc & Hin); by destruct (Hq c')].
Qed.

Section NifCanonica.
Import NifUtils.
Variable ud : unicode.
Hypothesis Hud : ascii_compatible ud.

Lemma ascii_space_upper (c : N) : ascii_space (ascii_upper c) = ascii_space c.
Proof.
  unfold ascii_upper.
  destruct ((97 <=? c) && (c <=? 122))%N eqn:E; [|done].
  apply andb_true_iff in E as [E1 E2]. apply N.leb_le in E1, E2.
  unfold ascii_space.
  rewrite (proj2 (N.leb_gt (c - 32) 13)) by lia.
  rewrite (proj2 (N.leb_gt (c - 32) 32)) by lia.
  rewrite (proj2 (N.leb_gt c 13)) by lia.
  rewrite (proj2 (N.leb_gt c 32)) by lia.
  by rewrite !andb_false_r.
Qed.

Lemma is_space_upper (c : N) :
  (c < 128)%N -> is_space ud (ascii_upper c) = is_space ud c.
Proof.
  intros Hc. rewrite !(space_ascii ud Hud); [apply ascii_space_upper|done|].
  by apply ascii_upper_lt.
Qed.

Lemma lstrip_map_upper (x : str) :
  all_ascii x -> lstrip ud (map ascii_upper x) = map ascii_upper (lstrip ud x).
Proof.
  induction 1 as [|c r Hc _ IH]; simpl; [done|].
  rewrite (is_space_upper c Hc). by destruct (is_space ud c).
Qed.

Lemma rstrip_map_upper (x : str) :
  all_ascii x -> rstrip ud (map ascii_upper x) = map ascii_upper (rstrip ud x).
Proof.
  induction 1 as [|c r Hc _ IH]; simpl; [done|].
  rewrite IH, (is_space_upper c Hc).
  destruct (rstrip ud r); simpl; [by destruct (is_space ud c)|done].
Qed.

Lemma strip_idem (s : str) : strip ud (strip ud s) = strip ud s.
Proof.
  unfold strip.
  rewrite (lstrip_id ud (rstrip ud (lstrip ud s))).
  - apply rstrip_idem.
  - apply (rstrip_sin_espacio_inicial ud), lstrip_nil_or_head.
Qed.

(** Cleaning a cleaned ASCII identifier changes nothing. *)
Lemma nif_clean_fijo (s : str) :
  all_ascii s ->
  upper ud (strip ud (upper ud (strip ud s))) = upper ud (strip ud s).
Proof.
  intros Hs. destruct (strip_ascii ud Hud s Hs) as [_ A1].
  rewrite (upper_ascii_map ud Hud _ A1).
  unfold strip at 1.
  rewrite (lstrip_map_upper _ A1).
  rewrite (rstrip_map_upper (lstrip ud (strip ud s)))
    by (by apply lstrip_Forall).
  fold (strip ud (strip ud s)). rewrite strip_idem.
  rewrite (upper_ascii_map ud Hud (map ascii_upper (strip ud s))).
  - rewrite map_map. apply map_ext. intros c. apply ascii_upper_idem.
  - apply Forall_map. eapply Forall_impl; [exact A1|].
    intros c. apply ascii_upper_lt.
Qed.
End NifCanonica.

(** X4: the three functions read an ASCII identifier only through its
    cleaned form (stripped, then upper-cased): called on the cleaned form
    they answer as on the identifier itself, so case and surrounding
    whitespace never matter. *)
Theorem nif_forma_canonica (ud : unicode) (s : str) :
  ascii_compatible ud -> all_ascii s ->
  let limpio := upper ud (strip ud s) in
  NifUtils.interpretar_forma_juridica_desde_nif ud (Some limpio)
  = NifUtils.interpretar_forma_juridica_desde_nif ud (Some s)
  /\ NifUtils.obtener_codigo_natural_desde_nif ud (Some limpio)
     = NifUtils.obtener_codigo_natural_desde_nif ud (Some s)
  /\ NifUtils.obtener_tipo_entidad_desde_nif ud (Some limpio)
     = NifUtils.obtener_tipo_entidad_desde_nif ud (Some s).
Proof.
  intros Hud Hs. cbv zeta.
  rewrite !interpretar_casos, !codigo_natural_casos, !tipo_entidad_casos.
  cbv zeta. simpl default.
  rewrite (nif_clean_fijo ud Hud s Hs).
  destruct s as [|c r].
  { by destruct (upper ud (strip ud [])) eqn:E. }
  destruct (upper ud (strip ud (c :: r))) as [|d t] eqn:E; [done|].
  done.
Qed.

Lemma nif_forma_canonica_witness :
  NifUtils.interpretar_forma_juridica_desde_nif basic_unicode
    (Some (lit "B87654321"))
  = NifUtils.interpretar_forma_juridica_desde_nif basic_unicode
      (Some (lit "  b87654321 ")).
Proof.
  refine (proj1 (nif_forma_canonica basic_unicode (lit "  b87654321 ")
                   basic_unicode_compatible _)).
  apply all_ascii_forallb. by vm_compute.
Defined.

(* ===================================================================== *)
(** * db/utils.py: the shape of normalized text, and the organ lookup *)
(* ===================================================================== *)

Section NormalizarForma.
Import DbUtils.
Variable ud : unicode.

Lemma espaciado_lookup (p : N -> bool) (r : str) (i : nat) (c : N) :
  espaciado ud p r -> r !! i = Some c -> is_space ud c = true ->
  c = 32%N
  /\ exists d, r !! S i = Some d /\ is_space ud d = false /\ p d = false.
Proof.
  revert i. induction r as [|x r IH]; intros i Hr Hi Hc; [done|].
  destruct Hr as [Hx Hr]. destruct i as [|i]; simpl in Hi.
  - injection Hi as ->. destruct (Hx Hc) as [-> Hn]. split; [done|].
    destruct r as [|d r']; [done|]. exists d. by split.
  - exact (IH i Hr Hi Hc).
Qed.

Lemma mayuscula_no_minuscula (c : N) :
  mayuscula_ascii c -> (c < 128)%N /\ ~ (97 <= c <= 122)%N.
Proof.
  intros [Hc Hu]. split; [done|]. intros [H1 H2].
  unfold ascii_upper in Hu.
  rewrite (proj2 (N.leb_le 97 c) H1), (proj2 (N.leb_le c 122) H2) in Hu.
  simpl in Hu. lia.
Qed.

Hypothesis Hud : ascii_compatible ud.

Lemma normalizar_invariantes (s r : str) :
  normalizar ud (Some s) = Some r ->
  Forall mayuscula_ascii r /\ sin_espacio_inicial ud r
  /\ espaciado ud is_punct r.
Proof.
  unfold normalizar. destruct (negb (truthy (Some s))); [done|].
  cbv zeta. simpl default. intros [= Hr].
  set (a := ascii_ignore (nfkd ud s)) in Hr.
  pose proof (ascii_ignore_all_ascii (nfkd ud s)) as Ha. fold a in Ha.
  destruct (strip_forma ud (upper ud a)) as [Ht1 Ht2].
  assert (Forall mayuscula_ascii (strip ud (upper ud a))) as Ht3.
  { unfold strip. apply rstrip_Forall, lstrip_Forall.
    by apply upper_mayuscula. }
  destruct (re_sub_espacios_forma ud _ Ht1 false) as (Hw1 & Hw2 & _).
  specialize (Hw2 (or_intror Ht2)).
  pose proof (re_sub_espacios_Forall ud mayuscula_ascii _ false
                (conj eq_refl eq_refl) Ht3) as Hw3.
  destruct (re_sub_espacio_puntuacion_forma ud _ Hw1) as (Hp1 & Hp2 & _).
  specialize (Hp2 Hw2).
  pose proof (re_sub_espacio_puntuacion_Forall ud mayuscula_ascii _ Hw3)
    as Hp3.
  rewrite Hr in Hp1, Hp2, Hp3. done.
Qed.
End NormalizarForma.

(** X5: a normalized text holds only ASCII characters, none of them a
    lower-case letter; it neither starts nor ends with whitespace; its
    only whitespace characters are single spaces, each followed by a
    character that is neither whitespace nor one of [. , : ;]. *)
Theorem normalizar_forma (ud : unicode) (s r : str) :
  ascii_compatible ud ->
  DbUtils.normalizar ud (Some s) = Some r ->
  Forall (fun c => (c < 128)%N /\ ~ (97 <= c <= 122)%N) r
  /\ strip ud r = r
  /\ (forall i c, r !! i = Some c -> is_space ud c = true ->
        c = 32%N
        /\ exists d, r !! S i = Some d /\ is_space ud d = false
                     /\ DbUtils.is_punct d = false).
Proof.
  intros Hud Hn.
  destruct (normalizar_invariantes ud Hud s r Hn) as (H1 & H2 & H3).
  split; [|split].
  - eapply Forall_impl; [exact H1|]. apply mayuscula_no_minuscula.
  - unfold strip. rewrite (lstrip_id ud r H2).
    by apply (espaciado_rstrip ud DbUtils.is_punct).
  - intros i c. by apply espaciado_lookup.
Qed.

Lemma normalizar_forma_witness :
  DbUtils.normalizar basic_unicode
    (Some (lit "  Ministerio   de  Educación ,  Cultura . "))
  = Some (lit "MINISTERIO DE EDUCACION, CULTURA.")
  /\ strip basic_unicode (lit "MINISTERIO DE EDUCACION, CULTURA.")
     = lit "MINISTERIO DE EDUCACION, CULTURA.".
Proof.
  assert (DbUtils.normalizar basic_unicode
            (Some (lit "  Ministerio   de  Educación ,  Cultura . "))
          = Some (lit "MINISTERIO DE EDUCACION, CULTURA.")) as H
    by (by vm_compute).
  split; [exact H|].
  exact (proj1 (proj2 (normalizar_forma basic_unicode _ _
                         basic_unicode_compatible H))).
Defined.

Section OrganoFacts.
Import DbUtils Organos.
Variable ud : unicode.

(** The conditional around each call of [normalizar] changes nothing:
    [normalizar] itself answers [None] on falsy input. *)
Lemma normalizar_si_truthy (x : option str) :
  (if truthy x then normalizar ud x else None) = normalizar ud x.
Proof. unfold normalizar. by destruct (truthy x). Qed.

Lemma find_primero {A} (f : A -> bool) (l : list A) :
  match find f l with
  | Some x => exists pre post,
      l = pre ++ x :: post /\ f x = true /\ Forall (fun y => f y = false) pre
  | None => Forall (fun y => f y = false) l
  end.
Proof.
  induction l as [|a l IH]; simpl; [constructor|].
  destruct (f a) eqn:E.
  - exists [], l. by repeat split.
  - destruct (find f l) as [x|].
    + destruct IH as (pre & post & -> & Hx & Hpre).
      exists (a :: pre), post. repeat split; [done|]. by constructor.
    + by constructor.
Qed.
End OrganoFacts.

(** X6: [buscar_organo_id] answers with the key of a row whose
    normalized levels 1 and 2 equal the normalized arguments, and whose
    level 3 does too when the normalized third argument is a non-empty
    text; it answers [None] exactly when no row matches.  Without a usable
    third argument the third level of the row is not looked at.  Which
    matching row answers is the database's choice, but whether there is an
    answer is not: it is the same for every order of the rows. *)
Theorem buscar_organo_id_coincide (ud : unicode)
    (session session' : list Organos.Organo)
    (nivel1 nivel2 nivel3 : option str) :
  session ≡ₚ session' ->
  let n1 := DbUtils.normalizar ud nivel1 in
  let n2 := DbUtils.normalizar ud nivel2 in
  let n3 := DbUtils.normalizar ud nivel3 in
  let coincide (o : Organos.Organo) : Prop :=
    Organos.nivel1_norm o = n1 /\ Organos.nivel2_norm o = n2
    /\ (truthy n3 = true -> Organos.nivel3_norm o = n3) in
  match Organos.buscar_organo_id ud session nivel1 nivel2 nivel3 with
  | Some i => (exists o, o ∈ session /\ Organos.id o = i /\ coincide o)
              /\ exists o', o' ∈ session' /\ coincide o'
                   /\ Organos.buscar_organo_id ud session'
                        nivel1 nivel2 nivel3 = Some (Organos.id o')
  | None => Forall (fun y => ~ coincide y) session
            /\ Organos.buscar_organo_id ud session' nivel1 nivel2 nivel3
               = None
  end.
Proof.
  intros Hperm. cbv zeta.
  assert (forall l : list Organos.Organo,
    match Organos.buscar_organo_id ud l nivel1 nivel2 nivel3 with
    | Some i => exists o, o ∈ l /\ Organos.id o = i
        /\ Organos.nivel1_norm o = DbUtils.normalizar ud nivel1
        /\ Organos.nivel2_norm o = DbUtils.normalizar ud nivel2
        /\ (truthy (DbUtils.normalizar ud nivel3) = true ->
            Organos.nivel3_norm o = DbUtils.normalizar ud nivel3)
    | None => Forall (fun y =>
        ~ (Organos.nivel1_norm y = DbUtils.normalizar ud nivel1
           /\ Organos.nivel2_norm y = DbUtils.normalizar ud nivel2
           /\ (truthy (DbUtils.normalizar ud nivel3) = true ->
               Organos.nivel3_norm y = DbUtils.normalizar ud nivel3))) l
    end) as Hl.
  { intros l. unfold Organos.buscar_organo_id.
    rewrite !normalizar_si_truthy.
    destruct (truthy (DbUtils.normalizar ud nivel3)) eqn:E3.
    - match goal with |- context [find ?f l] =>
        pose proof (find_primero f l) as H; destruct (find f l)
      end.
      + destruct H as (pre & post & -> & Hx & _).
        rewrite !andb_true_iff, !bool_decide_eq_true in Hx.
        exists o. split; [by apply elem_of_app; right; left|].
        repeat split; try tauto; try done.
      + eapply Forall_impl; [exact H|]. intros y Hy (H1 & H2 & H3).
        cbv beta in Hy.
        rewrite (bool_decide_eq_true_2 _ H1), (bool_decide_eq_true_2 _ H2),
          (bool_decide_eq_true_2 _ (H3 eq_refl)) in Hy. done.
    - match goal with |- context [find ?f l] =>
        pose proof (find_primero f l) as H; destruct (find f l)
      end.
      + destruct H as (pre & post & -> & Hx & _).
        rewrite !andb_true_iff, !bool_decide_eq_true in Hx.
        exists o. split; [by apply elem_of_app; right; left|].
        repeat split; try tauto; try done.
      + eapply Forall_impl; [exact H|]. intros y Hy (H1 & H2 & _).
        cbv beta in Hy.
        rewrite (bool_decide_eq_true_2 _ H1), (bool_decide_eq_true_2 _ H2)
          in Hy. done. }
  pose proof (Hl session) as H1. pose proof (Hl session') as H2.
  destruct (Organos.buscar_organo_id ud session nivel1 nivel2 nivel3)
    as [i|].
  - split; [exact H1|]. destruct H1 as (o & Hin & _ & Ho).
    destruct (Organos.buscar_organo_id ud session' nivel1 nivel2 nivel3)
      as [i'|].
    + destruct H2 as (o' & Hin' & <- & Ho'). by exists o'.
    + rewrite Forall_forall in H2. destruct (H2 o); [|done].
      by rewrite <- Hperm.
  - split; [exact H1|].
    destruct (Organos.buscar_organo_id ud session' nivel1 nivel2 nivel3)
      as [i'|]; [|done].
    destruct H2 as (o' & Hin' & _ & Ho'). rewrite Forall_forall in H1.
    destruct (H1 o'); [|done]. by rewrite Hperm.
Qed.

Lemma buscar_organo_id_coincide_witness :
  let o1 := {| Organos.id := "o1"; Organos.codigo := "E1";
               Organos.nivel1_norm := Some (lit "ESTADO");
               Organos.nivel2_norm := Some (lit "MINISTERIO DE EDUCACION");
               Organos.nivel3_norm := None;
               Organos.nombre := "Educación" |} in
  let o2 := {| Organos.id := "o2"; Organos.codigo := "E2";
               Organos.nivel1_norm := Some (lit "ESTADO");
               Organos.nivel2_norm := Some (lit "MINISTERIO DE EDUCACION");
               Organos.nivel3_norm := Some (lit "SECRETARIA");
               Organos.nombre := "Secretaría" |} in
  Organos.buscar_organo_id basic_unicode [o1; o2]
    (Some (lit "Estado")) (Some (lit "Ministerio de Educación")) None
  = Some "o1"
  /\ exists o', o' ∈ [o2; o1]
       /\ Organos.buscar_organo_id basic_unicode [o2; o1]
            (Some (lit "Estado")) (Some (lit "Ministerio de Educación"))
            None = Some (Organos.id o').
Proof.
  intros o1 o2.
  pose proof (buscar_organo_id_coincide basic_unicode [o1; o2] [o2; o1]
                (Some (lit "Estado"))
                (Some (lit "Ministerio de Educación")) None
                (Permutation_swap o2 o1 [])) as H.
  cbv zeta in H.
  assert (Organos.buscar_organo_id basic_unicode [o1; o2]
            (Some (lit "Estado")) (Some (lit "Ministerio de Educación"))
            None = Some "o1") as E by by vm_compute.
  rewrite E in H. split; [done|].
  destruct H as (_ & o' & Hin & _ & Ho'). by exists o'.
Defined.

(** X7: the lookup is insensitive to the spelling of its arguments: given
    the normalized forms of the three names instead of the names, it
    answers the same, provided the normalized forms of the first two are
    not the empty text. *)
Theorem buscar_organo_id_normalizado (ud : unicode)
    (session : list Organos.Organo) (nivel1 nivel2 nivel3 : option str) :
  ascii_compatible ud ->
  DbUtils.normalizar ud nivel1 <> Some [] ->
  DbUtils.normalizar ud nivel2 <> Some [] ->
  Organos.buscar_organo_id ud session
    (DbUtils.normalizar ud nivel1) (DbUtils.normalizar ud nivel2)
    (DbUtils.normalizar ud nivel3)
  = Organos.buscar_organo_id ud session nivel1 nivel2 nivel3.
Proof.
  intros Hud H1 H2.
  assert (forall x, DbUtils.normalizar ud x <> Some [] ->
            DbUtils.normalizar ud (DbUtils.normalizar ud x)
            = DbUtils.normalizar ud x) as Hfix.
  { intros [s|] Hx; [|done].
    destruct (DbUtils.normalizar ud (Some s)) as [r|] eqn:E; [|done].
    apply (normalizar_fijo ud Hud s r E). congruence. }
  unfold Organos.buscar_organo_id. rewrite !normalizar_si_truthy.
  rewrite (Hfix nivel1 H1), (Hfix nivel2 H2).
  destruct (DbUtils.normalizar ud nivel3) as [[|c r]|] eqn:E3; [done| |done].
  rewrite <- E3, (Hfix nivel3); [done|]. by rewrite E3.
Qed.

Lemma buscar_organo_id_normalizado_witness :
  let session :=
    [ {| Organos.id := "o1"; Organos.codigo := "E1";
         Organos.nivel1_norm := Some (lit "ESTADO");
         Organos.nivel2_norm := Some (lit "MINISTERIO DE EDUCACION");
         Organos.nivel3_norm := None; Organos.nombre := "Educación" |} ] in
  Organos.buscar_organo_id basic_unicode session
    (Some (lit "ESTADO")) (Some (lit "MINISTERIO DE EDUCACION")) None
  = Organos.buscar_organo_id basic_unicode session
      (Some (lit " estado")) (Some (lit "Ministerio  de Educación")) None
  /\ Organos.buscar_organo_id basic_unicode session
       (Some (lit " estado")) (Some (lit "Ministerio  de Educación")) None
     = Some "o1".
Proof.
  intros session. split; [|by vm_compute].
  refine (buscar_organo_id_normalizado basic_unicode session
            (Some (lit " estado")) (Some (lit "Ministerio  de Educación"))
            None basic_unicode_compatible _ _); by vm_compute.
Defined.

(* ===================================================================== *)
(** * auth/jwt_auth.py: refreshing and verifying *)
(* ===================================================================== *)

Section JwtMore.
Import Jose JwtAuth.
Variable int_str : string -> option Z.

(** A claim set with an integer [exp] and without null [iat] and [nbf]
    validates or is refused; the codec raises nothing else. *)
Lemma validate_claims_sin_TypeError (now e : Z) (p : gmap string json) :
  p !! "exp" = Some (JInt e) ->
  p !! "iat" <> Some JNull -> p !! "nbf" <> Some JNull ->
  _validate_claims int_str now p = Returns tt
  \/ _validate_claims int_str now p = Raises JWTError.
Proof.
  intros Hp Hi Hn.
  destruct (Z.ltb_spec e (timegm now)) as [Hlt|Hge].
  { right. by apply (validate_claims_expired int_str now e). }
  unfold _validate_claims.
  assert (_validate_iat int_str p = Returns tt
          \/ _validate_iat int_str p = Raises JWTError) as [-> | ->];
    [|rewrite bind_Returns|by right].
  { unfold _validate_iat. destruct (p !! "iat") as [v|]; [|by left].
    destruct (int_claim_casos int_str v) as [[z ->]|[->|[-> _]]]; auto.
    done. }
  assert (_validate_nbf int_str now p = Returns tt
          \/ _validate_nbf int_str now p = Raises JWTError) as [-> | ->];
    [|rewrite bind_Returns|by right].
  { unfold _validate_nbf. destruct (p !! "nbf") as [v|]; [|by left].
    destruct (int_claim_casos int_str v) as [[z ->]|[->|[-> _]]]; auto;
      [|done].
    rewrite bind_Returns. destruct (timegm now <? z)%Z; auto. }
  unfold _validate_exp. rewrite Hp, int_claim_JInt, bind_Returns.
  rewrite (proj2 (Z.ltb_ge e (timegm now)) Hge), bind_Returns.
  unfold _validate_ausente, _validate_str.
  destruct (p !! "aud"), (p !! "sub") as [[]|], (p !! "jti") as [[]|],
    (p !! "at_hash"); simpl; auto.
Qed.

(** A token without the refresh marker, whose [iat] and [nbf] are not
    null, is answered with no result. *)
Lemma refresh_sin_marca (now now' : Z) (data : gmap string json)
    (delta : option Z) (t : token) :
  data !! "type" <> Some (JStr "refresh") ->
  data !! "iat" <> Some JNull -> data !! "nbf" <> Some JNull ->
  create_access_token now data delta = Returns t ->
  refresh_access_token int_str now' t = Returns None.
Proof.
  intros Hty Hi Hn Ht. apply create_access_token_inv in Ht as [-> _].
  unfold refresh_access_token. rewrite decode_token_Signed.
  match goal with |- context [JInt ?x] => generalize x end. intros e.
  destruct (validate_claims_sin_TypeError now' e _
              (lookup_insert_eq data "exp" (JInt e))) as [-> | ->].
  - by rewrite lookup_insert_ne.
  - by rewrite lookup_insert_ne.
  - rewrite bind_Returns. unfold get. rewrite lookup_insert_ne by done.
    destruct (data !! "type") as [[| | |ty]|] eqn:Ety; try done. simpl.
    by destruct (String.eqb_spec ty "refresh") as [->|].
  - done.
Qed.

Lemma refresh_pair (now now' : Z) (u r : string) (pair : Token)
    (t' : token) :
  create_token_pair now u r = Returns pair ->
  create_access_token now' {[ "sub" := JStr u; "role" := JStr r ]} None
  = Returns t' ->
  (now' <= now + timedelta_days 7)%Z ->
  refresh_access_token int_str now' (refresh_token pair)
  = Returns (Some t').
Proof.
  intros Hp Ht' Hn. apply create_token_pair_inv in Hp as (_ & -> & _).
  change (timedelta_days 7) with 604800000000%Z in Hn.
  unfold refresh_access_token.
  rewrite (proj2 (decode_token_Some int_str now' _ _)
             (conj eq_refl (validate_claims_pair_refresh int_str now' _ u r
                              (timegm_mono _ _ Hn)))).
  rewrite bind_Returns. unfold get, get_default.
  simplify_map_eq. by rewrite Ht'.
Qed.
End JwtMore.

(** X8: refreshing with the refresh token of a pair, before it expires,
    mints an access token that verifies, until its own expiry, as the user
    and role the pair was made for. *)
Theorem refresh_then_verify (int_str : string -> option Z)
    (now now' now'' : Z) (username role : string) :
  (JwtAuth.datetime_min <= now)%Z ->
  (now + JwtAuth.timedelta_days 7 <= JwtAuth.datetime_max)%Z ->
  (JwtAuth.datetime_min <= now')%Z ->
  (now' + JwtAuth.timedelta_minutes 30 <= JwtAuth.datetime_max)%Z ->
  (now' <= now + JwtAuth.timedelta_days 7)%Z ->
  (now'' <= now' + JwtAuth.timedelta_minutes 30)%Z ->
  exists pair t',
    JwtAuth.create_token_pair now username role = Returns pair
    /\ JwtAuth.refresh_access_token int_str now'
         (JwtAuth.refresh_token pair) = Returns (Some t')
    /\ JwtAuth.verify_token int_str now'' t'
       = Returns (Some {| JwtAuth.username := username;
                          JwtAuth.role := role |}).
Proof.
  intros H1 H2 H3 H4 Hn Hn'.
  destruct (create_token_pair_Returns now username role H1 H2)
    as [pair Hp].
  assert (JwtAuth.datetime_min <= now' + 1800000000
          <= JwtAuth.datetime_max)%Z as Hr
    by (unfold JwtAuth.timedelta_minutes, JwtAuth.datetime_min,
          JwtAuth.datetime_max in *; lia).
  pose proof (create_access_token_Returns now'
                {[ "sub" := Jose.JStr username; "role" := Jose.JStr role ]}
                None Hr) as Ht'.
  cbv zeta in Ht'.
  exists pair. eexists. split; [done|]. split.
  - by apply (refresh_pair int_str now now' username role pair _ Hp Ht').
  - unfold JwtAuth.verify_token.
    change (JwtAuth.timedelta_minutes 30) with 1800000000%Z in Hn'.
    rewrite (proj2 (decode_token_Some int_str now'' _ _)
               (conj eq_refl (validate_claims_pair int_str now'' _
                                username role (timegm_mono _ _ Hn')))).
    rewrite bind_Returns. unfold JwtAuth.get, JwtAuth.get_default.
    by rewrite pair_lookup_sub, pair_lookup_role.
Qed.

Lemma refresh_then_verify_witness :
  exists pair t',
    JwtAuth.create_token_pair 1000000000 "ana" "admin" = Returns pair
    /\ JwtAuth.refresh_access_token Jose.int_str_ejemplo 5000000000
         (JwtAuth.refresh_token pair) = Returns (Some t')
    /\ JwtAuth.verify_token Jose.int_str_ejemplo 5100000000 t'
       = Returns (Some {| JwtAuth.username := "ana";
                          JwtAuth.role := "admin" |}).
Proof. apply refresh_then_verify; by vm_compute. Defined.

(** X9: an access token minted by [refresh_access_token] is never itself
    accepted by [refresh_access_token], at any time: refreshes do not
    chain. *)
Theorem refresh_no_encadena (int_str : string -> option Z) (now now' : Z)
    (t t' : Jose.token) :
  JwtAuth.refresh_access_token int_str now t = Returns (Some t') ->
  JwtAuth.refresh_access_token int_str now' t' = Returns None.
Proof.
  intros H.
  apply refresh_access_token_Some in H as (p & u & _ & _ & _ & Ht').
  refine (refresh_sin_marca int_str now now' _ None t' _ _ _ Ht');
    destruct (p !! "role"); by simplify_map_eq.
Qed.

Lemma refresh_no_encadena_witness :
  exists pair t',
    JwtAuth.create_token_pair 1000000000 "ana" "admin" = Returns pair
    /\ JwtAuth.refresh_access_token Jose.int_str_ejemplo 2000000000
         (JwtAuth.refresh_token pair) = Returns (Some t')
    /\ JwtAuth.refresh_access_token Jose.int_str_ejemplo 2000000001 t'
       = Returns None.
Proof.
  do 2 eexists. split; [by vm_compute|].
  assert (forall t t', JwtAuth.refresh_access_token Jose.int_str_ejemplo
                         2000000000 t = Returns (Some t') ->
                       JwtAuth.refresh_access_token Jose.int_str_ejemplo
                         2000000000 t = Returns (Some t')
                       /\ JwtAuth.refresh_access_token Jose.int_str_ejemplo
                            2000000001 t' = Returns None) as H.
  { intros t t' Ht. split; [exact Ht|].
    exact (refresh_no_encadena Jose.int_str_ejemplo 2000000000 2000000001
             t t' Ht). }
  apply H. by vm_compute.
Defined.

(** X10: [verify_token] does not look at the type marker: the refresh
    token of a pair verifies as the user, with the role, for the seven
    days of its life. *)
Theorem verify_token_acepta_refresh (int_str : string -> option Z)
    (now now' : Z) (username role : string) :
  (JwtAuth.datetime_min <= now)%Z ->
  (now + JwtAuth.timedelta_days 7 <= JwtAuth.datetime_max)%Z ->
  (now' <= now + JwtAuth.timedelta_days 7)%Z ->
  exists pair,
    JwtAuth.create_token_pair now username role = Returns pair
    /\ JwtAuth.verify_token int_str now' (JwtAuth.refresh_token pair)
       = Returns (Some {| JwtAuth.username := username;
                          JwtAuth.role := role |}).
Proof.
  intros H1 H2 Hn.
  destruct (create_token_pair_Returns now username role H1 H2)
    as [pair Hp].
  exists pair. split; [done|].
  apply create_token_pair_inv in Hp as (_ & -> & _).
  change (JwtAuth.timedelta_days 7) with 604800000000%Z in Hn.
  unfold JwtAuth.verify_token.
  rewrite (proj2 (decode_token_Some int_str now' _ _)
             (conj eq_refl (validate_claims_pair_refresh int_str now' _
                              username role (timegm_mono _ _ Hn)))).
  rewrite bind_Returns. unfold JwtAuth.get, JwtAuth.get_default.
  by simplify_map_eq.
Qed.

Lemma verify_token_acepta_refresh_witness :
  exists pair,
    JwtAuth.create_token_pair 1000000000 "ana" "admin" = Returns pair
    /\ JwtAuth.verify_token Jose.int_str_ejemplo 500000000000
         (JwtAuth.refresh_token pair)
       = Returns (Some {| JwtAuth.username := "ana";
                          JwtAuth.role := "admin" |}).
Proof. apply verify_token_acepta_refresh; by vm_compute. Defined.

(** X12: what a successful verification tells: the token was signed with
    the key and the algorithm of the module, its subject is the returned
    user name, its role claim is the returned role (or is missing and the
    role is "user"), and an expiry it carries has not passed.  Text that is
    no token verifies to no user. *)
Theorem verify_token_correcto (int_str : string -> option Z) (now : Z)
    (t : Jose.token) (user : JwtAuth.UserInToken) :
  JwtAuth.verify_token int_str now t = Returns (Some user) ->
  exists p,
    t = Jose.Signed JwtAuth.SECRET_KEY JwtAuth.ALGORITHM p
    /\ p !! "sub" = Some (Jose.JStr (JwtAuth.username user))
    /\ (p !! "role" = Some (Jose.JStr (JwtAuth.role user))
        \/ (p !! "role" = None /\ JwtAuth.role user = "user"))
    /\ (forall e, p !! "exp" = Some (Jose.JInt e) ->
                  (Jose.timegm now <= e)%Z).
Proof.
  unfold JwtAuth.verify_token. intros H.
  apply bind_Returns_inv in H as ([p|] & E & H); [|done].
  apply decode_token_Some in E as [-> Hv].
  destruct (validate_claims_Returns int_str now p Hv) as [Hexp Hsub].
  unfold JwtAuth.get, JwtAuth.get_default in H.
  destruct (p !! "sub") as [v|] eqn:Esub; [|done].
  destruct (Hsub v eq_refl) as [u ->]. simpl in H.
  exists p. split; [done|].
  assert (forall e, p !! "exp" = Some (Jose.JInt e) ->
                    (Jose.timegm now <= e)%Z) as Hexp'.
  { intros e He. destruct (Hexp _ He) as (e' & [= <-] & Hle). done. }
  destruct (p !! "role") as [[| | |r]|] eqn:Er; simpl in H; try done.
  - injection H as <-. by repeat split; [|left|].
  - injection H as <-. repeat split; try done. by right.
Qed.

Lemma verify_token_correcto_witness :
  exists p,
    Jose.Signed JwtAuth.SECRET_KEY JwtAuth.ALGORITHM
      {[ "sub" := Jose.JStr "ana"; "exp" := Jose.JInt 2000 ]}
    = Jose.Signed JwtAuth.SECRET_KEY JwtAuth.ALGORITHM p
    /\ p !! "sub" = Some (Jose.JStr "ana").
Proof.
  destruct (verify_token_correcto Jose.int_str_ejemplo 1000000000
              (Jose.Signed JwtAuth.SECRET_KEY JwtAuth.ALGORITHM
                 {[ "sub" := Jose.JStr "ana"; "exp" := Jose.JInt 2000 ]})
              {| JwtAuth.username := "ana"; JwtAuth.role := "user" |})
    as (p & Hp & Hsub & _); [by vm_compute|].
  exists p. by split.
Defined.

(* ===================================================================== *)
(** * business/equivalencia.py: warnings, errors and the exceeded ceiling *)
(* ===================================================================== *)

Section EquivalenciaMore.
Import Equivalencia.

Lemma f300000_valor : f300000 = S754_finite false 5153960755200000 (-34).
Proof. by vm_compute. Qed.

(** A result rounded with the negative sign is not above zero. *)
Lemma redondeo_negativo (mx ex : Z) (lx : location) :
  fltb f0 (binary_round_aux 53 1024 true mx ex lx) = false.
Proof.
  unfold binary_round_aux.
  destruct (shr_fexp 53 1024 mx ex lx) as [mrs' e'].
  destruct (shr_fexp 53 1024 _ e' loc_Exact) as [mrs'' e''].
  destruct (shr_m mrs'') as [|m|m]; [done| |done].
  by destruct (e'' <=? 1024 - 53)%Z.
Qed.

Lemma normalize_no_positivo (z e : Z) :
  (z <= 0)%Z -> fltb f0 (binary_normalize 53 1024 z e false) = false.
Proof.
  intros Hz. destruct z as [|p|p]; [done|lia|].
  unfold binary_normalize, binary_round.
  destruct (shl_align p e _) as [mz ez]. apply redondeo_negativo.
Qed.

Lemma digits2_pos_cota (m : positive) :
  (2 ^ (Zpos (digits2_pos m) - 1) <= Zpos m)%Z.
Proof.
  induction m as [p IH|p IH|]; simpl digits2_pos; [| |done].
  - rewrite Pos2Z.inj_succ.
    replace (Z.succ (Zpos (digits2_pos p)) - 1)%Z
      with (Z.succ (Zpos (digits2_pos p) - 1))%Z by lia.
    rewrite Z.pow_succ_r by lia. lia.
  - rewrite Pos2Z.inj_succ.
    replace (Z.succ (Zpos (digits2_pos p)) - 1)%Z
      with (Z.succ (Zpos (digits2_pos p) - 1))%Z by lia.
    rewrite Z.pow_succ_r by lia. lia.
Qed.

Lemma iter_xO_cota (m d : positive) :
  (2 * Zpos m <= Zpos (Pos.iter xO m d))%Z.
Proof.
  induction d as [|d IH] using Pos.peano_ind; [simpl; lia|].
  rewrite Pos.iter_succ. lia.
Qed.

(** Above the ceiling, ceiling minus amount is not above zero. *)
Lemma fsub_excedido (x : float) :
  valid_binary 53 1024 x = true -> fleb x f300000 = false ->
  fltb f0 (fsub f300000 x) = false.
Proof.
  rewrite f300000_valor. intros Hv Hle.
  destruct x as [s|s| |s m e]; try done.
  - by destruct s.
  - destruct s; [done|].
    unfold fleb, SFleb, SFcompare in Hle.
    unfold fsub, SFsub. cbv zeta.
    apply normalize_no_positivo. unfold cond_Zopp.
    destruct (Z.compare_spec e (-34)) as [->|Hlt|Hgt]; [| done |].
    + destruct (Pos.compare_cont Eq m 5153960755200000) eqn:Ec; try done.
      pose proof (proj1 (Pos.compare_gt_iff m 5153960755200000)) as Hgt.
      unfold Pos.compare in Hgt. specialize (Hgt Ec). clear Ec Hle.
      rewrite Z.min_id. unfold shl_align. rewrite Z.sub_diag.
      cbn [fst]. lia.
    + unfold valid_binary, bounded, canonical_mantissa, fexp, emin in Hv.
      apply andb_true_iff in Hv as [Hc _]. apply Z.eqb_eq in Hc.
      assert (Zpos (digits2_pos m) = 53%Z) as Hd by lia.
      pose proof (digits2_pos_cota m) as Hm. rewrite Hd in Hm.
      change (2 ^ (53 - 1))%Z with 4503599627370496%Z in Hm.
      rewrite (Z.min_l (-34) e) by lia.
      unfold shl_align. rewrite Z.sub_diag.
      destruct (-34 - e)%Z as [|p|p] eqn:Ed; [lia|lia|].
      cbn [fst]. pose proof (iter_xO_cota m p). lia.
Qed.
End EquivalenciaMore.

(** X13: what [calcular_importe_equivalente] logs and raises.  A warning
    is logged exactly when the amount is present and not zero and the
    instrument is a string other than the five recognised ones.  The call
    raises exactly when the amount is present and not zero and the
    instrument is a loan whose [plazo_meses] is given and is no number
    ([TypeError]), or a guarantee whose [porcentaje_garantia] is given and
    is no number ([TypeError]) or is an [int] too large to convert to a
    float ([OverflowError]).  For no instrument, a direct grant, a capital
    contribution and a tax advantage the nominal amount is returned as it
    is. *)
Theorem calcular_importe_equivalente_avisos_errores
    (importe : option Equivalencia.float) (fecha : Equivalencia.date)
    (regimen instrumento : option string)
    (metadata : option (gmap string Equivalencia.value)) :
  let r := Equivalencia.calcular_importe_equivalente
             importe fecha regimen instrumento metadata in
  let presente :=
    exists v, importe = Some v
              /\ Equivalencia.feqb v Equivalencia.f0 = false in
  let no_numero (k : string) :=
    exists w, default ∅ metadata !! k = Some w
              /\ (w = Equivalencia.VNone \/ exists s, w = Equivalencia.VStr s)
  in
  let demasiado_grande (k : string) :=
    exists p sg, default ∅ metadata !! k = Some (Equivalencia.VInt p)
                 /\ Equivalencia.of_int p = S754_infinity sg in
  (snd r <> [] <->
   presente /\ exists s, instrumento = Some s
     /\ s ∉ [Equivalencia.SUBVENCION_DIRECTA; Equivalencia.PRESTAMO;
             Equivalencia.GARANTIA; Equivalencia.CAPITAL;
             Equivalencia.VENTAJA_FISCAL])
  /\ (forall e, fst r = Raises e <->
        presente
        /\ ((e = TypeError /\ instrumento = Some Equivalencia.PRESTAMO
             /\ no_numero "plazo_meses")
            \/ (e = TypeError /\ instrumento = Some Equivalencia.GARANTIA
                /\ no_numero "porcentaje_garantia")
            \/ (e = OverflowError
                /\ instrumento = Some Equivalencia.GARANTIA
                /\ demasiado_grande "porcentaje_garantia")))
  /\ (forall v, importe = Some v ->
        Equivalencia.feqb v Equivalencia.f0 = false ->
        instrumento ∈ [None; Some Equivalencia.SUBVENCION_DIRECTA;
                       Some Equivalencia.CAPITAL;
                       Some Equivalencia.VENTAJA_FISCAL] ->
        r = (Returns v, [])).
Proof.
  cbv zeta. unfold Equivalencia.calcular_importe_equivalente.
  destruct importe as [v|].
  2:{ split; [|split]; [| |done].
      - split; [done | by intros [(v & ? & _) _]].
      - intros e. split; [done | by intros ((v & ? & _) & _)]. }
  destruct (Equivalencia.feqb v Equivalencia.f0) eqn:E0.
  { split; [|split].
    - split; [done | intros [(v' & [= <-] & ?) _]; congruence].
    - intros e. split; [done | intros ((v' & [= <-] & ?) & _); congruence].
    - intros v' [= <-] ?. congruence. }
  assert (exists v', Some v = Some v'
                     /\ Equivalencia.feqb v' Equivalencia.f0 = false) as Hpres
    by (by exists v).
  destruct instrumento as [s|].
  2:{ split; [|split]; [| |by intros v' [= <-]].
      - split; [done | by intros [_ (s & ? & _)]].
      - intros e. split; [done | by intros (_ & [(_ & ? & _)|[(_ & ? & _)|(_ & ? & _)]])]. }
  destruct (String.eqb_spec s Equivalencia.SUBVENCION_DIRECTA) as [->|H1].
  { split; [|split]; [| |by intros v' [= <-]].
    - split; [done | intros [_ (s & [= <-] & Hs)]; exfalso; apply Hs; repeat constructor].
    - intros e. split; [done | by intros (_ & [(_ & ? & _)|[(_ & ? & _)|(_ & ? & _)]])]. }
  destruct (String.eqb_spec s Equivalencia.PRESTAMO) as [->|H2].
  { split; [|split].
    - split; [done | intros [_ (s & [= <-] & Hs)]; exfalso; apply Hs; repeat constructor].
    - intros e. cbn [fst].
      unfold Equivalencia._calcular_equivalente_prestamo_placeholder.
      destruct (default ∅ metadata !! "plazo_meses") as [w|] eqn:Ew;
        [destruct w as [|z|f|t]|]; cbn [default from_option id Equivalencia.lt_int];
        rewrite ?bind_Returns.
      + split.
        * intros [= <-]. split; [done|]. left. split; [done|].
          split; [done|]. exists Equivalencia.VNone. by split; [|left].
        * by intros (_ & [(-> & _)|[(_ & ? & _)|(_ & ? & _)]]).
      + destruct (z <? 60)%Z;
          (split; [done | intros (_ & [(_ & _ & w & [= <-] & [?|[? ?]])|[(_ & ? & _)|(_ & ? & _)]]); done]).
      + destruct (Equivalencia.fltb f (Equivalencia.of_int 60));
          (split; [done | intros (_ & [(_ & _ & w & [= <-] & [?|[? ?]])|[(_ & ? & _)|(_ & ? & _)]]); done]).
      + split.
        * intros [= <-]. split; [done|]. left. split; [done|].
          split; [done|]. exists (Equivalencia.VStr t). split; [done|].
          right. by exists t.
        * by intros (_ & [(-> & _)|[(_ & ? & _)|(_ & ? & _)]]).
      + destruct (60 <? 60)%Z;
          (split; [done | intros (_ & [(_ & _ & w & ? & _)|[(_ & ? & _)|(_ & ? & _)]]); done]).
    - intros v' _ _ Hin. exfalso.
      repeat (apply elem_of_cons in Hin as [Hin|Hin]; [done|]).
      by apply elem_of_nil in Hin. }
  destruct (String.eqb_spec s Equivalencia.GARANTIA) as [->|H3].
  { split; [|split].
    - split; [done | intros [_ (s & [= <-] & Hs)]; exfalso; apply Hs; repeat constructor].
    - intros e. cbn [fst].
      unfold Equivalencia._calcular_equivalente_garantia_placeholder.
      destruct (default ∅ metadata !! "porcentaje_garantia") as [w|] eqn:Ew;
        [destruct w as [|z|f|t]|];
        cbn [default from_option id Equivalencia.div_float];
        rewrite ?bind_Returns.
      + split.
        * intros [= <-]. split; [done|]. right. left. split; [done|].
          split; [done|]. exists Equivalencia.VNone. by split; [|left].
        * by intros (_ & [(_ & ? & _)|[(-> & _)|(_ & _ & p & sg & ? & _)]]).
      + unfold Equivalencia.float_of_int.
        destruct (Equivalencia.of_int z) as [sg|sg| |sg m ex] eqn:Ez;
          rewrite ?bind_Returns; cbn [mbind outcome_bind Py.bind].
        * split; [done | intros (_ & [(_ & ? & _)|[(_ & _ & w & [= <-] & [?|[? ?]])|(_ & _ & p & sg' & [= <-] & ?)]]); congruence].
        * split.
          -- intros [= <-]. split; [done|]. right. right. split; [done|].
             split; [done|]. by exists z, sg.
          -- by intros (_ & [(_ & ? & _)|[(_ & _ & w & [= <-] & [?|[? ?]])|(-> & _)]]).
        * split; [done | intros (_ & [(_ & ? & _)|[(_ & _ & w & [= <-] & [?|[? ?]])|(_ & _ & p & sg' & [= <-] & ?)]]); congruence].
        * split; [done | intros (_ & [(_ & ? & _)|[(_ & _ & w & [= <-] & [?|[? ?]])|(_ & _ & p & sg' & [= <-] & ?)]]); congruence].
      + split; [done | intros (_ & [(_ & ? & _)|[(_ & _ & w & [= <-] & [?|[? ?]])|(_ & _ & p & sg & ? & _)]]); done].
      + split.
        * intros [= <-]. split; [done|]. right. left. split; [done|].
          split; [done|]. exists (Equivalencia.VStr t). split; [done|].
          right. by exists t.
        * by intros (_ & [(_ & ? & _)|[(-> & _)|(_ & _ & p & sg & ? & _)]]).
      + split; [by vm_compute | intros (_ & [(_ & ? & _)|[(_ & _ & w & ? & _)|(_ & _ & p & sg & ? & _)]]); done].
    - intros v' _ _ Hin. exfalso.
      repeat (apply elem_of_cons in Hin as [Hin|Hin]; [done|]).
      by apply elem_of_nil in Hin. }
  destruct (String.eqb_spec s Equivalencia.CAPITAL) as [->|H4].
  { split; [|split]; [| |by intros v' [= <-]].
    - split; [done | intros [_ (s & [= <-] & Hs)]; exfalso; apply Hs; repeat constructor].
    - intros e. split; [done | by intros (_ & [(_ & ? & _)|[(_ & ? & _)|(_ & ? & _)]])]. }
  destruct (String.eqb_spec s Equivalencia.VENTAJA_FISCAL) as [->|H5].
  { split; [|split]; [| |by intros v' [= <-]].
    - split; [done | intros [_ (s & [= <-] & Hs)]; exfalso; apply Hs; repeat constructor].
    - intros e. split; [done | by intros (_ & [(_ & ? & _)|[(_ & ? & _)|(_ & ? & _)]])]. }
  split; [|split].
  - split; [|done]. intros _. split; [done|]. exists s. split; [done|].
    intros Hin.
    repeat (apply elem_of_cons in Hin as [Hin|Hin]; [done|]).
    by apply elem_of_nil in Hin.
  - intros e. split; [done|].
    intros (_ & [(_ & [= ->] & _)|[(_ & [= ->] & _)|(_ & [= ->] & _)]]);
      done.
  - intros v' _ _ Hin. exfalso.
    repeat (apply elem_of_cons in Hin as [Hin|Hin]; [congruence|]).
    by apply elem_of_nil in Hin.
Qed.

(** X14: whether the check is valid depends on the new amount alone: it is
    valid exactly when the amount is at most 300000, so an amount that is
    not a number is never valid; and whenever the check is not valid the
    remaining margin is zero. *)
Theorem validar_limite_de_minimis_excedido
    (beneficiario_id : string) (x : Equivalencia.float)
    (fecha : Equivalencia.date) (ventana : Z) :
  valid_binary 53 1024 x = true ->
  let r := Equivalencia.validar_limite_de_minimis
             beneficiario_id x fecha ventana in
  Equivalencia.valido r = Equivalencia.fleb x (Equivalencia.of_int 300000)
  /\ (Equivalencia.valido r = false ->
      Equivalencia.margen_restante r = Equivalencia.f0).
Proof.
  intros Hv. cbv zeta. unfold Equivalencia.validar_limite_de_minimis.
  cbv zeta. cbn [Equivalencia.valido Equivalencia.margen_restante].
  change (Equivalencia.of_int 300000) with Equivalencia.f300000.
  assert (Equivalencia.fleb (Equivalencia.fadd Equivalencia.f0 x)
                            Equivalencia.f300000
          = Equivalencia.fleb x Equivalencia.f300000) as Hle.
  { by destruct x as [[]|[]| |]. }
  split; [exact Hle|]. rewrite Hle. intros Hx.
  unfold Equivalencia.py_max.
  assert (Equivalencia.fadd Equivalencia.f0 x = x) as ->.
  { destruct x as [[]|[]| |]; try done; by vm_compute in Hx. }
  by rewrite (fsub_excedido x Hv Hx).
Qed.

Lemma validar_limite_de_minimis_excedido_witness :
  Equivalencia.margen_restante
    (Equivalencia.validar_limite_de_minimis "b1"
       (Equivalencia.of_int 300001)
       {| Equivalencia.year := 2024; Equivalencia.month := 5;
          Equivalencia.day := 2 |} 3)
  = Equivalencia.f0.
Proof.
  refine (proj2 (validar_limite_de_minimis_excedido "b1"
                   (Equivalencia.of_int 300001) _ 3 _) _); by vm_compute.
Defined.

(* ===================================================================== *)
(** * auth/service.py: the rest of the user service *)
(* ===================================================================== *)

Section ServiceQueries.
Import Service.

Lemma first_Some (f : Usuario -> bool) (db : gmap string Usuario)
    (u : Usuario) :
  first f db = Some u -> exists k, db !! k = Some u /\ f u = true.
Proof.
  unfold first. destruct (find _ _) as [[k v]|] eqn:E; [|done].
  intros [= <-]. apply find_some in E as [Hin Hf].
  exists k. split; [|done].
  by apply elem_of_map_to_list, list_elem_of_In.
Qed.

Lemma first_None (f : Usuario -> bool) (db : gmap string Usuario) :
  first f db = None -> forall k u, db !! k = Some u -> f u = false.
Proof.
  unfold first. destruct (find _ _) as [kv|] eqn:E; [done|].
  intros _ k u Hk.
  apply (find_none _ _ E (k, u)).
  by apply list_elem_of_In, elem_of_map_to_list.
Qed.

(** When at most one row passes the filter, [first] finds it. *)
Lemma first_unico (f : Usuario -> bool) (db : gmap string Usuario)
    (k : string) (u : Usuario) :
  db !! k = Some u -> f u = true ->
  (forall k' u', db !! k' = Some u' -> f u' = true -> u' = u) ->
  first f db = Some u.
Proof.
  intros Hk Hf Hun.
  destruct (first f db) as [u'|] eqn:E.
  - apply first_Some in E as (k' & Hk' & Hf'). f_equal. by eapply Hun.
  - by rewrite (first_None f db E k u Hk) in Hf.
Qed.

Lemma all_elem (f : Usuario -> bool) (db : gmap string Usuario)
    (u : Usuario) :
  u ∈ all f db <-> (exists k, db !! k = Some u) /\ f u = true.
Proof.
  unfold all. rewrite list_elem_of_In, filter_In, <- list_elem_of_In.
  rewrite list_elem_of_fmap. split.
  - intros [([k v] & -> & Hin) Hf]. split; [|done].
    exists k. by apply elem_of_map_to_list.
  - intros [[k Hk] Hf]. split; [|done].
    exists (k, u). split; [done|]. by apply elem_of_map_to_list.
Qed.

Lemma unique_ext (db : gmap string Usuario) (k : string) (u u' : Usuario) :
  email u' = email u -> telegram_chat_id u' = telegram_chat_id u ->
  unique db k u' = unique db k u.
Proof. intros H1 H2. unfold unique. by rewrite H1, H2. Qed.

Lemma unique_spec (db : gmap string Usuario) (k : string) (u : Usuario) :
  unique db k u = true <->
  forall k' v, db !! k' = Some v -> k' <> k ->
    email v <> email u
    /\ (telegram_chat_id u = None \/ telegram_chat_id v <> telegram_chat_id u).
Proof.
  unfold unique. rewrite bool_decide_eq_true. unfold map_Forall. split.
  - intros H k' v Hk' Hne. destruct (H k' v Hk') as [?|?]; [done|done].
  - intros H k' v Hk'. destruct (decide (k' = k)) as [->|Hne]; [by left|].
    right. exact (H k' v Hk' Hne).
Qed.

Lemma commit_ok (now : Z) (db : gmap string Usuario) (k : string)
    (old new : Usuario) :
  not_null new = true -> unique db k new = true ->
  commit now db k old new
  = (if bool_decide (new = old) then db else <[k := touch now new]> db,
     Returns tt).
Proof.
  intros H1 H2. unfold commit. destruct (bool_decide (new = old)); [done|].
  by rewrite H1, H2.
Qed.
End ServiceQueries.

Section ServiceInvariant.
Import Service.
Variable lower : string -> string.

Lemma username_lookup (db : gmap string Usuario) (name : string)
    (u : Usuario) :
  consistente lower db ->
  (get_user_by_username lower db name = Some u
   <-> exists k, db !! k = Some u /\ username u = lower name).
Proof.
  intros Hc. unfold get_user_by_username. split.
  - intros H. apply first_Some in H as (k & Hk & Hf).
    exists k. split; [done|]. by apply String.eqb_eq.
  - intros (k & Hk & Hn). apply (first_unico _ db k u Hk).
    + by apply String.eqb_eq.
    + intros k' u' Hk' Hf. apply String.eqb_eq in Hf.
      destruct (Hc k u Hk) as (_ & _ & _ & _ & Hun).
      assert (k' = k) as -> by (apply (Hun k' u' Hk'); congruence).
      congruence.
Qed.

Lemma username_lookup_None (db : gmap string Usuario) (name : string) :
  get_user_by_username lower db name = None
  <-> forall k u, db !! k = Some u -> username u <> lower name.
Proof.
  unfold get_user_by_username. split.
  - intros H k u Hk Hn. pose proof (first_None _ db H k u Hk) as Hf.
    cbv beta in Hf. apply String.eqb_neq in Hf. done.
  - intros H. destruct (first _ db) as [u|] eqn:E; [|done].
    apply first_Some in E as (k & Hk & Hf). apply String.eqb_eq in Hf.
    by destruct (H k u Hk).
Qed.

(** Replacing a row by one with the same key and user name that passes
    the checks of the flush keeps the constraints. *)
Lemma consistente_insert (db : gmap string Usuario) (k : string)
    (old new : Usuario) :
  consistente lower db -> db !! k = Some old ->
  id new = id old -> username new = username old ->
  not_null new = true -> unique db k new = true ->
  consistente lower (<[k := new]> db).
Proof.
  intros Hc Hk Hid Hn Hnn Hu.
  destruct (Hc k old Hk) as (Hido & _ & _ & Hlo & Huno).
  pose proof (proj1 (unique_spec db k new) Hu) as Hu'.
  intros k1 u1 H1. apply lookup_insert_Some in H1 as [[<- <-]|[Hne H1]].
  - split; [congruence|]. split; [done|]. split.
    + apply unique_spec. intros k' v Hk' Hne.
      rewrite lookup_insert_ne in Hk' by done. exact (Hu' k' v Hk' Hne).
    + split; [congruence|]. intros k' u' Hk' Hnu.
      apply lookup_insert_Some in Hk' as [[<- <-]|[Hne Hk']]; [done|].
      apply (Huno k' u' Hk'). congruence.
  - destruct (Hc k1 u1 H1) as (Hid1 & Hnn1 & Hu1 & Hl1 & Hun1).
    pose proof (proj1 (unique_spec db k1 u1) Hu1) as Hu1'.
    split; [done|]. split; [done|]. split.
    + apply unique_spec. intros k' v Hk' Hne'.
      apply lookup_insert_Some in Hk' as [[<- <-]|[Hne2 Hk']].
      * destruct (Hu' k1 u1 H1) as [He Ht]; [done|].
        split; [congruence|].
        destruct (telegram_chat_id u1) as [c|] eqn:Ec; [|by left].
        right. destruct Ht as [Ht|Ht]; congruence.
      * exact (Hu1' k' v Hk' Hne').
    + split; [done|]. intros k' u' Hk' Hnu.
      apply lookup_insert_Some in Hk' as [[<- <-]|[Hne2 Hk']].
      * apply (Hun1 k old Hk). congruence.
      * by apply (Hun1 k' u' Hk').
Qed.

Lemma consistente_delete (db : gmap string Usuario) (k : string) :
  consistente lower db -> consistente lower (delete k db).
Proof.
  intros Hc k1 u1 H1. apply lookup_delete_Some in H1 as [Hne H1].
  destruct (Hc k1 u1 H1) as (Hid1 & Hnn1 & Hu1 & Hl1 & Hun1).
  split; [done|]. split; [done|]. split.
  - apply unique_spec. intros k' v Hk' Hne'.
    apply lookup_delete_Some in Hk' as [_ Hk'].
    exact (proj1 (unique_spec db k1 u1) Hu1 k' v Hk' Hne').
  - split; [done|]. intros k' u' Hk' Hnu.
    apply lookup_delete_Some in Hk' as [_ Hk']. by apply (Hun1 k' u').
Qed.

(** The flush of a changed row keeps the constraints, whatever its
    outcome. *)
Lemma consistente_commit (now : Z) (db : gmap string Usuario) (k : string)
    (old new : Usuario) :
  consistente lower db -> db !! k = Some old ->
  id new = id old -> username new = username old ->
  consistente lower (fst (commit now db k old new)).
Proof.
  intros Hc Hk Hid Hn. unfold commit.
  destruct (bool_decide (new = old)); [done|].
  destruct (not_null new) eqn:Hnn; [|done].
  destruct (unique db k new) eqn:Hu; [|done]. simpl.
  apply (consistente_insert db k old (touch now new)); try done.
Qed.
End ServiceInvariant.

Section ServiceCreate.
Import Service.
Variable lower : string -> string.
Variable pw : hasher.

Lemma insertable_spec (db : gmap string Usuario) (u : Usuario) :
  insertable db u = true <->
  db !! id u = None /\ not_null u = true
  /\ (forall k v, db !! k = Some v -> username v <> username u)
  /\ unique db (id u) u = true.
Proof.
  unfold insertable. rewrite !andb_true_iff, !bool_decide_eq_true.
  unfold map_Forall. tauto.
Qed.

Lemma consistente_nuevo (db : gmap string Usuario) (u : Usuario) :
  consistente lower db -> insertable db u = true ->
  lower (username u) = username u ->
  consistente lower (<[id u := u]> db).
Proof.
  intros Hc Hi Hl. apply insertable_spec in Hi as (Hk & Hnn & Hun & Hu).
  pose proof (proj1 (unique_spec db (id u) u) Hu) as Hu'.
  intros k1 u1 H1. apply lookup_insert_Some in H1 as [[<- <-]|[Hne H1]].
  - split; [done|]. split; [done|]. split.
    + apply unique_spec. intros k' v Hk' Hne.
      rewrite lookup_insert_ne in Hk' by done. exact (Hu' k' v Hk' Hne).
    + split; [done|]. intros k' u' Hk' Hnu.
      apply lookup_insert_Some in Hk' as [[<- <-]|[Hne Hk']]; [done|].
      by destruct (Hun k' u' Hk').
  - destruct (Hc k1 u1 H1) as (Hid1 & Hnn1 & Hu1 & Hl1 & Hun1).
    pose proof (proj1 (unique_spec db k1 u1) Hu1) as Hu1'.
    split; [done|]. split; [done|]. split.
    + apply unique_spec. intros k' v Hk' Hne'.
      apply lookup_insert_Some in Hk' as [[<- <-]|[Hne2 Hk']].
      * destruct (Hu' k1 u1 H1) as [He Ht]; [done|].
        split; [congruence|].
        destruct (telegram_chat_id u1) as [c|] eqn:Ec; [|by left].
        right. destruct Ht as [Ht|Ht]; congruence.
      * exact (Hu1' k' v Hk' Hne').
    + split; [done|]. intros k' u' Hk' Hnu.
      apply lookup_insert_Some in Hk' as [[<- <-]|[Hne2 Hk']].
      * by destruct (Hun k1 u1 H1).
      * by apply (Hun1 k' u' Hk').
Qed.

Lemma consistente_create_user (now : Z) (new_id : string) (salt : Z)
    (db : gmap string Usuario) (d : UsuarioCreate) :
  (forall s, lower (lower s) = lower s) ->
  consistente lower db ->
  consistente lower (fst (create_user lower pw now new_id salt db d)).
Proof.
  intros Hl Hc. unfold create_user. cbv zeta.
  match goal with |- context [insertable db ?u] =>
    destruct (insertable db u) eqn:Hi; [|done];
    exact (consistente_nuevo db u Hc Hi (Hl _))
  end.
Qed.

Lemma consistente_vacia : consistente lower (∅ : gmap string Usuario).
Proof. intros k u Hk. by rewrite lookup_empty in Hk. Qed.
End ServiceCreate.

(** X15: [create_user] either stores the new user and returns it, or
    raises [IntegrityError] and stores nothing.  It raises when the user
    name or the e-mail address is already taken, compared without regard
    to case.  When it returns, the row is stored under the new key with
    the user name and e-mail lower-cased and the password hashed, no other
    row changes, and the user is found by its name in any spelling of
    upper and lower case. *)
Theorem create_user_lookup (lower : string -> string) (pw : Service.hasher)
    (now : Z) (new_id : string) (salt : Z)
    (db : gmap string Service.Usuario) (d : Service.UsuarioCreate) :
  (forall s, lower (lower s) = lower s) ->
  Service.consistente lower db ->
  let r := Service.create_user lower pw now new_id salt db d in
  ((exists u, snd r = Returns u)
   \/ (snd r = Raises IntegrityError /\ fst r = db))
  /\ (Service.get_user_by_username lower db (Service.c_username d) <> None ->
      r = (db, Raises IntegrityError))
  /\ (Service.get_user_by_email lower db (Service.c_email d) <> None ->
      r = (db, Raises IntegrityError))
  /\ (forall u, snd r = Returns u ->
        db !! new_id = None
        /\ fst r !! new_id = Some u
        /\ (forall k, k <> new_id -> fst r !! k = db !! k)
        /\ Service.username u = lower (Service.c_username d)
        /\ Service.email u = Some (lower (Service.c_email d))
        /\ Service.hashed_password u
           = Service.get_password_hash pw salt (Service.c_password d)
        /\ forall name, lower name = lower (Service.c_username d) ->
             Service.get_user_by_username lower (fst r) name = Some u).
Proof.
  intros Hl Hc. cbv zeta.
  pose proof (consistente_create_user lower pw now new_id salt db d Hl Hc)
    as Hc'.
  unfold Service.create_user in *. cbv zeta in *.
  match goal with |- context [Service.insertable db ?x] => set (u := x) in * end.
  destruct (Service.insertable db u) eqn:Hi.
  - apply insertable_spec in Hi as (Hk & Hnn & Hun & Hu).
    split; [left; by exists u|]. split; [|split].
    + intros H. exfalso.
      destruct (Service.get_user_by_username lower db _) as [v|] eqn:E;
        [|done].
      apply first_Some in E as (k & Hkv & Hf). apply String.eqb_eq in Hf.
      by destruct (Hun k v Hkv).
    + intros H. exfalso.
      destruct (Service.get_user_by_email lower db _) as [v|] eqn:E; [|done].
      apply first_Some in E as (k & Hkv & Hf).
      apply bool_decide_eq_true in Hf.
      destruct (decide (k = new_id)) as [->|Hne].
      * change (Service.id u) with new_id in Hk. congruence.
      * destruct (proj1 (unique_spec db _ u) Hu k v Hkv Hne) as [He _].
        by destruct He.
    + intros u' [= <-]. simpl fst in *.
      split; [done|]. split; [apply lookup_insert_eq|].
      split; [intros k Hne; by apply lookup_insert_ne|].
      split; [done|]. split; [done|]. split; [done|].
      intros name Hname.
      apply (username_lookup lower _ name u Hc').
      exists new_id. split; [apply lookup_insert_eq|]. by rewrite Hname.
  - split; [by right|]. split; [done|]. split; [done|]. by intros u' ?.
Qed.

Lemma authenticate_user_lookup_aux (lower : string -> string)
    (pw : Service.hasher) (db : gmap string Service.Usuario)
    (name password : string) (u : Service.Usuario) :
  Service.consistente lower db ->
  (exists k, db !! k = Some u
     /\ Service.username u = lower name
     /\ Service.activo u = Some true
     /\ Service.verify_password pw password (Service.hashed_password u)
        = Returns true) ->
  Service.authenticate_user lower pw db name password = Returns (Some u).
Proof.
  intros Hc (k & Hk & Hn & Ha & Hv). unfold Service.authenticate_user.
  rewrite (proj2 (username_lookup lower db name u Hc)) by (by exists k).
  by rewrite Ha, Hv.
Qed.

(** X16: on a table that satisfies its constraints, [authenticate_user]
    returns a user exactly when a stored user has the given name (compared
    lower-cased), is active, and the password checks against its hash; so
    it never returns an inactive user. *)
Theorem authenticate_user_caracterizacion (lower : string -> string)
    (pw : Service.hasher) (db : gmap string Service.Usuario)
    (name password : string) (u : Service.Usuario) :
  Service.consistente lower db ->
  (Service.authenticate_user lower pw db name password = Returns (Some u)
   <-> exists k, db !! k = Some u
         /\ Service.username u = lower name
         /\ Service.activo u = Some true
         /\ Service.verify_password pw password (Service.hashed_password u)
            = Returns true).
Proof.
  intros Hc. unfold Service.authenticate_user. split.
  - destruct (Service.get_user_by_username lower db name) as [v|] eqn:E;
      [|done].
    apply (username_lookup lower db name v Hc) in E as (k & Hk & Hn).
    destruct (Service.activo v) as [[]|] eqn:Ea; simpl; try done.
    destruct (Service.verify_password pw password _) as [[]|] eqn:Ev;
      simpl; try done.
    intros [= <-]. by exists k.
  - by apply authenticate_user_lookup_aux.
Qed.

Lemma lower_char_idem (c : ascii) :
  Service.lower_char (Service.lower_char c) = Service.lower_char c.
Proof. by destruct c as [[] [] [] [] [] [] [] []]. Qed.

Lemma lower_ascii_idem (s : string) :
  Service.lower_ascii (Service.lower_ascii s) = Service.lower_ascii s.
Proof.
  induction s as [|c r IH]; simpl; [done|]. by rewrite lower_char_idem, IH.
Qed.

Lemma db_ejemplo_consistente :
  Service.consistente Service.lower_ascii Service.db_ejemplo.
Proof.
  unfold Service.db_ejemplo.
  apply consistente_create_user; [apply lower_ascii_idem|].
  apply consistente_create_user; [apply lower_ascii_idem|].
  apply consistente_vacia.
Qed.

Lemma create_user_lookup_witness :
  Service.get_user_by_username Service.lower_ascii Service.db_ejemplo "LUIS"
  = Service.db_ejemplo !! "u2"
  /\ Service.create_user Service.lower_ascii Service.hasher_ejemplo 30 "u3" 3
       Service.db_ejemplo Service.ana
     = (Service.db_ejemplo, Raises IntegrityError).
Proof.
  split.
  - destruct (create_user_lookup Service.lower_ascii Service.hasher_ejemplo
                20 "u2" 2
                (fst (Service.create_user Service.lower_ascii
                        Service.hasher_ejemplo 10 "u1" 1 ∅ Service.ana))
                Service.luis lower_ascii_idem)
      as (_ & _ & _ & H).
    + apply consistente_create_user; [apply lower_ascii_idem|].
      apply consistente_vacia.
    + destruct (H _ eq_refl) as (_ & Hk & _ & _ & _ & _ & Hn).
      change (Service.db_ejemplo !! "u2") with
        (fst (Service.create_user Service.lower_ascii Service.hasher_ejemplo
                20 "u2" 2
                (fst (Service.create_user Service.lower_ascii
                        Service.hasher_ejemplo 10 "u1" 1 ∅ Service.ana))
                Service.luis) !! "u2").
      rewrite Hk. by apply Hn.
  - refine (proj1 (proj2 (create_user_lookup Service.lower_ascii
                     Service.hasher_ejemplo 30 "u3" 3 Service.db_ejemplo
                     Service.ana lower_ascii_idem db_ejemplo_consistente)) _).
    by vm_compute.
Defined.

Lemma authenticate_user_caracterizacion_witness :
  exists u,
    Service.authenticate_user Service.lower_ascii Service.hasher_ejemplo
      Service.db_ejemplo "ANA" "Secreto01" = Returns (Some u)
    /\ Service.db_ejemplo !! "u1" = Some u.
Proof.
  destruct (Service.db_ejemplo !! "u1") as [u|] eqn:E; [|by vm_compute in E].
  exists u. split; [|done].
  apply (authenticate_user_caracterizacion Service.lower_ascii
           Service.hasher_ejemplo Service.db_ejemplo "ANA" "Secreto01" u
           db_ejemplo_consistente).
  exists "u1". vm_compute in E. injection E as <-. by vm_compute.
Defined.

Section ServiceMutators.
Import Service.
Variable lower : string -> string.
Variable pw : hasher.

(** A stored row passes the checks of the flush after a change that keeps
    its e-mail address, role, chat id and non-null columns. *)
Lemma commit_mismas_claves (now : Z) (db : gmap string Usuario) (k : string)
    (old new : Usuario) :
  consistente lower db -> db !! k = Some old ->
  not_null new = true ->
  email new = email old -> telegram_chat_id new = telegram_chat_id old ->
  commit now db k old new
  = (if bool_decide (new = old) then db else <[k := touch now new]> db,
     Returns tt).
Proof.
  intros Hc Hk Hnn He Ht. apply commit_ok; [done|].
  rewrite (unique_ext db k old new He Ht).
  by destruct (Hc k old Hk) as (_ & _ & ? & _).
Qed.

Lemma not_null_activo (u : Usuario) (b : bool) :
  not_null u = true -> not_null (setattr u (I_activo (Some b))) = true.
Proof.
  unfold not_null. rewrite !andb_true_iff, !bool_decide_eq_true.
  simpl. intros [[? ?] _]. by repeat split.
Qed.

Lemma delete_user_efecto (now : Z) (db : gmap string Usuario) (k : string)
    (u : Usuario) :
  consistente lower db -> db !! k = Some u ->
  exists u',
    delete_user now db k = (<[k := u']> db, Returns true)
    /\ consistente lower (<[k := u']> db)
    /\ activo u' = Some false
    /\ id u' = id u /\ username u' = username u /\ email u' = email u
    /\ hashed_password u' = hashed_password u /\ role u' = role u
    /\ telegram_chat_id u' = telegram_chat_id u.
Proof.
  intros Hc Hk. unfold delete_user, get_user_by_id. rewrite Hk.
  destruct (Hc k u Hk) as (_ & Hnn & Hu & _).
  rewrite (commit_mismas_claves now db k u _ Hc Hk
             (not_null_activo u false Hnn) eq_refl eq_refl).
  destruct (bool_decide (setattr u (I_activo (Some false)) = u)) eqn:E.
  - apply bool_decide_eq_true in E. exists u.
    rewrite (insert_id db k u Hk). split; [done|]. split; [done|].
    split; [by rewrite <- E|]. by repeat split.
  - eexists. split; [reflexivity|]. split; [|by repeat split].
    apply (consistente_insert lower db k u); try done.
    by apply (not_null_activo u false).
Qed.
End ServiceMutators.

(** X17: the soft delete.  On a table that satisfies its constraints,
    [delete_user] of a stored user returns [True], leaves the row in the
    table with the active flag cleared and its identity, credentials and
    role as they were, and changes no other row; afterwards
    [authenticate_user] refuses that user whatever the password.  For a key
    that is not stored it returns [False] and changes nothing. *)
Theorem delete_user_desactiva (lower : string -> string)
    (pw : Service.hasher) (now : Z) (db : gmap string Service.Usuario)
    (k : string) :
  Service.consistente lower db ->
  let r := Service.delete_user now db k in
  match db !! k with
  | None => r = (db, Returns false)
  | Some u =>
    snd r = Returns true
    /\ (forall k', k' <> k -> fst r !! k' = db !! k')
    /\ (exists u', fst r !! k = Some u'
          /\ Service.activo u' = Some false
          /\ Service.username u' = Service.username u
          /\ Service.email u' = Service.email u
          /\ Service.hashed_password u' = Service.hashed_password u
          /\ Service.role u' = Service.role u)
    /\ forall password,
         Service.authenticate_user lower pw (fst r) (Service.username u)
           password = Returns None
  end.
Proof.
  intros Hc. cbv zeta. destruct (db !! k) as [u|] eqn:Hk.
  2:{ unfold Service.delete_user, Service.get_user_by_id. by rewrite Hk. }
  destruct (delete_user_efecto lower now db k u Hc Hk)
    as (u' & -> & Hc' & Ha & Hid & Hn & He & Hh & Hr & Ht).
  simpl fst. simpl snd.
  split; [done|]. split; [by intros k' Hne; apply lookup_insert_ne|].
  split; [exists u'; by rewrite lookup_insert_eq|].
  intros password. unfold Service.authenticate_user.
  destruct (Hc k u Hk) as (_ & _ & _ & Hl & _).
  rewrite (proj2 (username_lookup lower _ (Service.username u) u' Hc')).
  - by rewrite Ha.
  - exists k. split; [apply lookup_insert_eq | congruence].
Qed.

Lemma delete_user_desactiva_witness :
  snd (Service.delete_user 40 Service.db_ejemplo "u1") = Returns true
  /\ Service.authenticate_user Service.lower_ascii Service.hasher_ejemplo
       (fst (Service.delete_user 40 Service.db_ejemplo "u1")) "ana"
       "Secreto01" = Returns None.
Proof.
  pose proof (delete_user_desactiva Service.lower_ascii
                Service.hasher_ejemplo 40 Service.db_ejemplo "u1"
                db_ejemplo_consistente) as H.
  cbv zeta in H.
  eassert (Service.db_ejemplo !! "u1" = Some _) as E
    by (vm_compute; reflexivity).
  rewrite E in H. destruct H as (H1 & _ & _ & H4). split; [exact H1|].
  exact (H4 "Secreto01").
Defined.

(** X18: the hard delete.  [hard_delete_user] of a stored user returns
    [True] and removes exactly that row; afterwards the key is not found,
    and on a table that satisfies its constraints neither is the user
    name.  For a key that is not stored it returns [False] and changes
    nothing. *)
Theorem hard_delete_user_elimina (lower : string -> string)
    (db : gmap string Service.Usuario) (k : string) :
  Service.consistente lower db ->
  let r := Service.hard_delete_user db k in
  match db !! k with
  | None => r = (db, Returns false)
  | Some u =>
    snd r = Returns true
    /\ Service.get_user_by_id (fst r) k = None
    /\ (forall k', k' <> k -> fst r !! k' = db !! k')
    /\ Service.get_user_by_username lower (fst r) (Service.username u) = None
  end.
Proof.
  intros Hc. cbv zeta. unfold Service.hard_delete_user, Service.get_user_by_id.
  destruct (db !! k) as [u|] eqn:Hk; [|done]. simpl.
  split; [done|]. split; [apply lookup_delete_eq|].
  split; [by intros k' Hne; apply lookup_delete_ne|].
  apply username_lookup_None. intros k' u' Hk' Hn.
  apply lookup_delete_Some in Hk' as [Hne Hk'].
  destruct (Hc k u Hk) as (_ & _ & _ & Hl & Hun).
  apply Hne. symmetry. apply (Hun k' u' Hk'). congruence.
Qed.

Lemma hard_delete_user_elimina_witness :
  snd (Service.hard_delete_user Service.db_ejemplo "u2") = Returns true
  /\ Service.get_user_by_id
       (fst (Service.hard_delete_user Service.db_ejemplo "u2")) "u2" = None.
Proof.
  pose proof (hard_delete_user_elimina Service.lower_ascii
                Service.db_ejemplo "u2" db_ejemplo_consistente) as H.
  cbv zeta in H.
  eassert (Service.db_ejemplo !! "u2" = Some _) as E
    by (vm_compute; reflexivity).
  rewrite E in H. destruct H as (H1 & H2 & _). split; [exact H1 | exact H2].
Defined.

Section ServicePasswords.
Import Service.
Variable lower : string -> string.
Variable pw : hasher.

Lemma reset_password_efecto (now salt : Z) (db : gmap string Usuario)
    (k : string) (u : Usuario) (new_pw : string) :
  consistente lower db -> db !! k = Some u ->
  exists u',
    reset_password pw now salt db k new_pw = (<[k := u']> db, Returns true)
    /\ consistente lower (<[k := u']> db)
    /\ hashed_password u' = get_password_hash pw salt new_pw
    /\ username u' = username u /\ activo u' = activo u
    /\ email u' = email u /\ role u' = role u.
Proof.
  intros Hc Hk. unfold reset_password, get_user_by_id. rewrite Hk.
  destruct (Hc k u Hk) as (_ & Hnn & Hu & _).
  rewrite (commit_mismas_claves lower now db k u
             (set_hashed_password u (get_password_hash pw salt new_pw))
             Hc Hk Hnn eq_refl eq_refl).
  destruct (bool_decide (set_hashed_password u _ = u)) eqn:E.
  - apply bool_decide_eq_true in E. exists u.
    rewrite (insert_id db k u Hk). split; [done|]. split; [done|].
    split; [by rewrite <- E at 1|]. by repeat split.
  - eexists. split; [reflexivity|]. split; [|by repeat split].
    by apply (consistente_insert lower db k u).
Qed.

Lemma change_password_reset (now salt : Z) (db : gmap string Usuario)
    (k : string) (u : Usuario) (d : UsuarioChangePassword) :
  db !! k = Some u ->
  verify_password pw (current_password d) (hashed_password u)
  = Returns true ->
  change_password pw now salt db k d
  = reset_password pw now salt db k (new_password d).
Proof.
  intros Hk Hv. unfold change_password, reset_password, get_user_by_id.
  by rewrite Hk, Hv.
Qed.
End ServicePasswords.

(** X19: passwords.  Provided the hasher accepts the passwords it hashed:
    on a table that satisfies its constraints, [reset_password] of a stored
    active user returns [True], and afterwards the user authenticates with
    the new password; [change_password] does the same when the current
    password checks, and returns [False] without touching the table when
    it does not; both return [False] for a key that is not stored. *)
Theorem password_change (lower : string -> string) (pw : Service.hasher)
    (now salt : Z) (db : gmap string Service.Usuario) (k : string)
    (d : Service.UsuarioChangePassword) :
  (forall s p, Service.verify_password pw p
                 (Service.get_password_hash pw s p) = Returns true) ->
  Service.consistente lower db ->
  let r1 := Service.reset_password pw now salt db k
              (Service.new_password d) in
  let r2 := Service.change_password pw now salt db k d in
  match db !! k with
  | None => r1 = (db, Returns false) /\ r2 = (db, Returns false)
  | Some u =>
    snd r1 = Returns true
    /\ (Service.activo u = Some true ->
        exists u', fst r1 !! k = Some u'
          /\ Service.authenticate_user lower pw (fst r1)
               (Service.username u) (Service.new_password d)
             = Returns (Some u'))
    /\ (Service.verify_password pw (Service.current_password d)
          (Service.hashed_password u) = Returns true -> r2 = r1)
    /\ (Service.verify_password pw (Service.current_password d)
          (Service.hashed_password u) = Returns false ->
        r2 = (db, Returns false))
  end.
Proof.
  intros Hh Hc. cbv zeta. destruct (db !! k) as [u|] eqn:Hk.
  2:{ unfold Service.reset_password, Service.change_password,
        Service.get_user_by_id. by rewrite Hk. }
  destruct (reset_password_efecto lower pw now salt db k u
              (Service.new_password d) Hc Hk)
    as (u' & Hr & Hc' & Hp & Hn & Ha & _).
  rewrite Hr. simpl fst. simpl snd.
  split; [done|]. split; [|split].
  - intros Hact. exists u'. split; [apply lookup_insert_eq|].
    apply (authenticate_user_lookup_aux lower pw _ _ _ u' Hc').
    exists k. split; [apply lookup_insert_eq|].
    destruct (Hc k u Hk) as (_ & _ & _ & Hl & _).
    split; [congruence|]. split; [congruence|]. by rewrite Hp.
  - intros Hv. rewrite <- Hr. by apply (change_password_reset pw now salt db k u).
  - intros Hv. unfold Service.change_password, Service.get_user_by_id.
    by rewrite Hk, Hv.
Qed.

Lemma password_change_witness :
  snd (Service.reset_password Service.hasher_ejemplo 50 7
         Service.db_ejemplo "u2" "Nuevo0003") = Returns true
  /\ Service.change_password Service.hasher_ejemplo 50 7 Service.db_ejemplo
       "u2" {| Service.current_password := "equivocado";
               Service.new_password := "Nuevo0003" |}
     = (Service.db_ejemplo, Returns false).
Proof.
  pose proof (password_change Service.lower_ascii Service.hasher_ejemplo
                50 7 Service.db_ejemplo "u2"
                {| Service.current_password := "equivocado";
                   Service.new_password := "Nuevo0003" |}) as H.
  cbv zeta in H.
  destruct (Service.db_ejemplo !! "u2") as [u|] eqn:E; [|by vm_compute in E].
  destruct H as (H1 & _ & _ & H4).
  - intros s p. simpl. by rewrite String.eqb_refl.
  - apply db_ejemplo_consistente.
  - split; [exact H1|]. apply H4.
    vm_compute in E. injection E as <-. by vm_compute.
Defined.

Section ServiceTelegram.
Import Service.
Variable lower : string -> string.

Lemma link_telegram_efecto (now : Z) (db : gmap string Usuario)
    (k : string) (u : Usuario) (chat : string) (tg : option string) :
  consistente lower db -> db !! k = Some u ->
  (forall k' v, db !! k' = Some v -> k' <> k ->
     telegram_chat_id v <> Some chat) ->
  exists u',
    link_telegram now db k chat tg = (<[k := u']> db, Returns (Some u'))
    /\ consistente lower (<[k := u']> db)
    /\ telegram_chat_id u' = Some chat /\ telegram_username u' = tg
    /\ telegram_verificado u' = Some true
    /\ username u' = username u /\ email u' = email u
    /\ hashed_password u' = hashed_password u /\ role u' = role u
    /\ activo u' = activo u.
Proof.
  intros Hc Hk Hlibre. unfold link_telegram, get_user_by_id. rewrite Hk.
  destruct (Hc k u Hk) as (_ & Hnn & Hu & _). cbv zeta.
  set (new := setattr (setattr (setattr u (I_telegram_chat_id (Some chat)))
                         (I_telegram_username tg))
                      (I_telegram_verificado (Some true))).
  assert (unique db k new = true) as Hu'.
  { apply unique_spec. intros k' v Hk' Hne.
    destruct (proj1 (unique_spec db k u) Hu k' v Hk' Hne) as [He _].
    split; [exact He|]. right. by apply Hlibre with k'. }
  rewrite (commit_ok now db k u new Hnn Hu').
  destruct (bool_decide (new = u)) eqn:E.
  - apply bool_decide_eq_true in E. exists u. rewrite Hk.
    rewrite (insert_id db k u Hk). split; [done|]. split; [done|].
    rewrite <- E at 1 2 3. by repeat split.
  - exists (touch now new). rewrite lookup_insert_eq.
    split; [done|]. split; [|by repeat split].
    by apply (consistente_insert lower db k u).
Qed.

Lemma link_telegram_conflicto (now : Z) (db : gmap string Usuario)
    (k : string) (u : Usuario) (chat : string) (tg : option string) :
  consistente lower db -> db !! k = Some u ->
  (exists k' v, db !! k' = Some v /\ k' <> k
                /\ telegram_chat_id v = Some chat) ->
  link_telegram now db k chat tg = (db, Raises IntegrityError).
Proof.
  intros Hc Hk (k' & v & Hk' & Hne & Hv).
  unfold link_telegram, get_user_by_id. rewrite Hk. cbv zeta.
  destruct (Hc k u Hk) as (_ & Hnn & Hu & _).
  set (new := setattr (setattr (setattr u (I_telegram_chat_id (Some chat)))
                         (I_telegram_username tg))
                      (I_telegram_verificado (Some true))).
  unfold commit.
  destruct (bool_decide (new = u)) eqn:E.
  - apply bool_decide_eq_true in E.
    destruct (proj1 (unique_spec db k u) Hu k' v Hk' Hne) as [_ [Ht|Ht]].
    + rewrite <- E in Ht. done.
    + rewrite <- E in Ht. by destruct Ht.
  - destruct (unique db k new) eqn:Hu'.
    + destruct (proj1 (unique_spec db k new) Hu' k' v Hk' Hne)
        as [_ [Ht|Ht]]; [done | by destruct Ht].
    + by rewrite andb_false_r.
Qed.

Lemma unlink_telegram_efecto (now : Z) (db : gmap string Usuario)
    (k : string) (u : Usuario) :
  consistente lower db -> db !! k = Some u ->
  exists u',
    unlink_telegram now db k = (<[k := u']> db, Returns (Some u'))
    /\ consistente lower (<[k := u']> db)
    /\ telegram_chat_id u' = None /\ telegram_username u' = None
    /\ telegram_verificado u' = Some false
    /\ username u' = username u /\ email u' = email u
    /\ hashed_password u' = hashed_password u /\ role u' = role u
    /\ activo u' = activo u.
Proof.
  intros Hc Hk. unfold unlink_telegram, get_user_by_id. rewrite Hk.
  destruct (Hc k u Hk) as (_ & Hnn & Hu & _). cbv zeta.
  set (new := setattr (setattr (setattr u (I_telegram_chat_id None))
                         (I_telegram_username None))
                      (I_telegram_verificado (Some false))).
  assert (unique db k new = true) as Hu'.
  { apply unique_spec. intros k' v Hk' Hne.
    destruct (proj1 (unique_spec db k u) Hu k' v Hk' Hne) as [He _].
    split; [exact He | by left]. }
  rewrite (commit_ok now db k u new Hnn Hu').
  destruct (bool_decide (new = u)) eqn:E.
  - apply bool_decide_eq_true in E. exists u. rewrite Hk.
    rewrite (insert_id db k u Hk). split; [done|]. split; [done|].
    rewrite <- E at 1 2 3. by repeat split.
  - exists (touch now new). rewrite lookup_insert_eq.
    split; [done|]. split; [|by repeat split].
    by apply (consistente_insert lower db k u).
Qed.
End ServiceTelegram.

(** X20: the Telegram link.  On a table that satisfies its constraints and
    for a stored user: [link_telegram] with a chat id that no other user
    holds stores the chat id, the Telegram name and the verified flag and
    returns the stored user, whose other fields are unchanged; with a chat
    id that another user holds it raises [IntegrityError] and stores
    nothing; [unlink_telegram] clears the chat id and the Telegram name and
    clears the verified flag, so unlinking after linking leaves no trace of
    the link. *)
Theorem telegram_vinculo (lower : string -> string) (now now' : Z)
    (db : gmap string Service.Usuario) (k : string) (u : Service.Usuario)
    (chat : string) (tg : option string) :
  Service.consistente lower db -> db !! k = Some u ->
  ((forall k' v, db !! k' = Some v -> k' <> k ->
      Service.telegram_chat_id v <> Some chat) ->
   exists u' u'',
     Service.link_telegram now db k chat tg
     = (<[k := u']> db, Returns (Some u'))
     /\ Service.telegram_chat_id u' = Some chat
     /\ Service.telegram_username u' = tg
     /\ Service.telegram_verificado u' = Some true
     /\ Service.username u' = Service.username u
     /\ Service.email u' = Service.email u
     /\ Service.role u' = Service.role u
     /\ Service.activo u' = Service.activo u
     /\ snd (Service.unlink_telegram now' (<[k := u']> db) k)
        = Returns (Some u'')
     /\ Service.telegram_chat_id u'' = None
     /\ Service.telegram_username u'' = None
     /\ Service.telegram_verificado u'' = Some false
     /\ Service.username u'' = Service.username u
     /\ Service.email u'' = Service.email u)
  /\ ((exists k' v, db !! k' = Some v /\ k' <> k
                    /\ Service.telegram_chat_id v = Some chat) ->
      Service.link_telegram now db k chat tg = (db, Raises IntegrityError)).
Proof.
  intros Hc Hk. split.
  - intros Hlibre.
    destruct (link_telegram_efecto lower now db k u chat tg Hc Hk Hlibre)
      as (u' & Hl & Hc' & H1 & H2 & H3 & H4 & H5 & H6 & H7 & H8).
    destruct (unlink_telegram_efecto lower now' (<[k := u']> db) k u' Hc'
                (lookup_insert_eq _ _ _))
      as (u'' & Hul & _ & G1 & G2 & G3 & G4 & G5 & _).
    exists u', u''. rewrite Hul. simpl snd.
    repeat split; try done; congruence.
  - intros H. by apply (link_telegram_conflicto lower now db k u).
Qed.

Lemma telegram_vinculo_witness :
  exists u',
    Service.link_telegram 60 Service.db_ejemplo "u1" "12345" (Some "ana_tg")
    = (<["u1" := u']> Service.db_ejemplo, Returns (Some u'))
    /\ Service.telegram_chat_id u' = Some "12345".
Proof.
  destruct (Service.db_ejemplo !! "u1") as [u|] eqn:E; [|by vm_compute in E].
  destruct (telegram_vinculo Service.lower_ascii 60 70 Service.db_ejemplo
              "u1" u "12345" (Some "ana_tg") db_ejemplo_consistente E)
    as [H _].
  destruct H as (u' & u'' & Hl & Hc & _).
  - intros k' v Hk' Hne.
    assert (Service.telegram_chat_id v = None) as ->; [|done].
    assert (map_Forall (fun _ w => Service.telegram_chat_id w = None)
              Service.db_ejemplo) as Hall
      by (apply (bool_decide_unpack _); by vm_compute).
    exact (Hall k' v Hk').
  - exists u'. by split.
Defined.

Section ServiceConserva.
Import Service.
Variable lower : string -> string.
Variable pw : hasher.

Lemma setattr_id_username (u : Usuario) (i : item) :
  id (setattr u i) = id u /\ username (setattr u i) = username u.
Proof. by destruct i. Qed.

Lemma fold_setattr_id_username (l : list item) (u : Usuario) :
  id (fold_left setattr l u) = id u
  /\ username (fold_left setattr l u) = username u.
Proof.
  revert u. induction l as [|i l IH]; intros u; simpl; [done|].
  destruct (IH (setattr u i)) as [-> ->]. apply setattr_id_username.
Qed.

Lemma consistente_update_user (now : Z) (db : gmap string Usuario)
    (k : string) (d : UsuarioUpdate) :
  consistente lower db -> consistente lower (fst (update_user now db k d)).
Proof.
  intros Hc. unfold update_user, get_user_by_id.
  destruct (db !! k) as [u|] eqn:Hk; [|done]. cbv zeta.
  destruct (fold_setattr_id_username (model_dump_exclude_unset d) u)
    as [Hid Hn].
  pose proof (consistente_commit lower now db k u _ Hc Hk Hid Hn) as H.
  destruct (commit now db k u (fold_left setattr (model_dump_exclude_unset d) u))
    as [db' [[]|e]]; exact H.
Qed.

Lemma consistente_delete_user (now : Z) (db : gmap string Usuario)
    (k : string) :
  consistente lower db -> consistente lower (fst (delete_user now db k)).
Proof.
  intros Hc. unfold delete_user, get_user_by_id.
  destruct (db !! k) as [u|] eqn:Hk; [|done].
  pose proof (consistente_commit lower now db k u
                (setattr u (I_activo (Some false))) Hc Hk eq_refl eq_refl)
    as H.
  destruct (commit now db k u (setattr u (I_activo (Some false))))
    as [db' [[]|e]]; exact H.
Qed.

Lemma consistente_hard_delete_user (db : gmap string Usuario) (k : string) :
  consistente lower db -> consistente lower (fst (hard_delete_user db k)).
Proof.
  intros Hc. unfold hard_delete_user, get_user_by_id.
  destruct (db !! k) as [u|] eqn:Hk; [|done]. simpl.
  by apply consistente_delete.
Qed.

Lemma consistente_reset_password (now salt : Z) (db : gmap string Usuario)
    (k : string) (p : string) :
  consistente lower db ->
  consistente lower (fst (reset_password pw now salt db k p)).
Proof.
  intros Hc. unfold reset_password, get_user_by_id.
  destruct (db !! k) as [u|] eqn:Hk; [|done].
  pose proof (consistente_commit lower now db k u
                (set_hashed_password u (get_password_hash pw salt p))
                Hc Hk eq_refl eq_refl) as H.
  destruct (commit now db k u
              (set_hashed_password u (get_password_hash pw salt p)))
    as [db' [[]|e]]; exact H.
Qed.

Lemma consistente_change_password (now salt : Z) (db : gmap string Usuario)
    (k : string) (d : UsuarioChangePassword) :
  consistente lower db ->
  consistente lower (fst (change_password pw now salt db k d)).
Proof.
  intros Hc. unfold change_password, get_user_by_id.
  destruct (db !! k) as [u|] eqn:Hk; [|done].
  destruct (verify_password pw (current_password d) (hashed_password u))
    as [[|]|e]; [|done|done].
  pose proof (consistente_commit lower now db k u
                (set_hashed_password u
                   (get_password_hash pw salt (new_password d)))
                Hc Hk eq_refl eq_refl) as H.
  destruct (commit now db k u
              (set_hashed_password u
                 (get_password_hash pw salt (new_password d))))
    as [db' [[]|e]]; exact H.
Qed.

Lemma consistente_link_telegram (now : Z) (db : gmap string Usuario)
    (k chat : string) (tg : option string) :
  consistente lower db ->
  consistente lower (fst (link_telegram now db k chat tg)).
Proof.
  intros Hc. unfold link_telegram, get_user_by_id.
  destruct (db !! k) as [u|] eqn:Hk; [|done]. cbv zeta.
  match goal with |- context [commit now db k u ?n] =>
    pose proof (consistente_commit lower now db k u n Hc Hk eq_refl eq_refl)
      as H;
    destruct (commit now db k u n) as [db' [[]|e]]; exact H
  end.
Qed.

Lemma consistente_unlink_telegram (now : Z) (db : gmap string Usuario)
    (k : string) :
  consistente lower db ->
  consistente lower (fst (unlink_telegram now db k)).
Proof.
  intros Hc. unfold unlink_telegram, get_user_by_id.
  destruct (db !! k) as [u|] eqn:Hk; [|done]. cbv zeta.
  match goal with |- context [commit now db k u ?n] =>
    pose proof (consistente_commit lower now db k u n Hc Hk eq_refl eq_refl)
      as H;
    destruct (commit now db k u n) as [db' [[]|e]]; exact H
  end.
Qed.
End ServiceConserva.

(** X21: the constraints of the user table are an invariant of the
    service.  On a table where every row satisfies NOT NULL and UNIQUE,
    is keyed by its id and has a lower-cased, unique user name, every
    writing operation of [UserService] leaves such a table, whatever its
    arguments and whether it returns or raises. *)
Theorem servicio_conserva_restricciones (lower : string -> string)
    (pw : Service.hasher) (now salt : Z) (db : gmap string Service.Usuario) :
  (forall s, lower (lower s) = lower s) ->
  Service.consistente lower db ->
  (forall new_id d, Service.consistente lower
     (fst (Service.create_user lower pw now new_id salt db d)))
  /\ (forall k d, Service.consistente lower
        (fst (Service.update_user now db k d)))
  /\ (forall k, Service.consistente lower (fst (Service.delete_user now db k)))
  /\ (forall k, Service.consistente lower (fst (Service.hard_delete_user db k)))
  /\ (forall k d, Service.consistente lower
        (fst (Service.change_password pw now salt db k d)))
  /\ (forall k p, Service.consistente lower
        (fst (Service.reset_password pw now salt db k p)))
  /\ (forall k chat tg, Service.consistente lower
        (fst (Service.link_telegram now db k chat tg)))
  /\ (forall k, Service.consistente lower
        (fst (Service.unlink_telegram now db k))).
Proof.
  intros Hl Hc.
  split; [intros; by apply consistente_create_user|].
  split; [intros; by apply consistente_update_user|].
  split; [intros; by apply consistente_delete_user|].
  split; [intros; by apply consistente_hard_delete_user|].
  split; [intros; by apply consistente_change_password|].
  split; [intros; by apply consistente_reset_password|].
  split; [intros; by apply consistente_link_telegram|].
  intros; by apply consistente_unlink_telegram.
Qed.

Lemma servicio_conserva_restricciones_witness :
  Service.consistente Service.lower_ascii
    (fst (Service.update_user 80 Service.db_ejemplo "u2"
            (Service.solo_role (Some "viewer")))).
Proof.
  exact (proj1 (proj2 (servicio_conserva_restricciones Service.lower_ascii
                         Service.hasher_ejemplo 80 0 Service.db_ejemplo
                         lower_ascii_idem db_ejemplo_consistente))
           "u2" (Service.solo_role (Some "viewer"))).
Defined.

Section ServiceListados.
Import Service.

Lemma all_true_length (db : gmap string Usuario) :
  length (all (fun _ => true) db) = size db.
Proof.
  unfold all. rewrite forallb_filter_id by by apply forallb_forall.
  rewrite length_map. apply length_map_to_list.
Qed.

Lemma filter_particion (l : list Usuario) :
  Forall (fun u => is_Some (activo u)) l ->
  length (List.filter (fun u => bool_decide (activo u = Some true)) l)
  + length (List.filter (fun u => bool_decide (activo u = Some false)) l)
  = length l.
Proof.
  induction 1 as [|u l [b Hb] _ IH]; [done|]. simpl. rewrite Hb.
  destruct b; simpl; lia.
Qed.

Lemma get_users_count (db : gmap string Usuario) (skip limit : nat)
    (a : option bool) :
  length (get_users db skip limit a None)
  = Nat.min limit (count_users db a - skip).
Proof.
  unfold get_users, count_users. rewrite length_take, length_drop.
  destruct a as [a|].
  - unfold all.
    by rewrite (filter_ext _ (fun u => bool_decide (activo u = Some a))
                  (fun u => andb_true_r _)).
  - done.
Qed.
End ServiceListados.

(** X22: listing and counting.  [get_users] returns at most [limit] rows,
    each a stored row that passes the filters given; without a role filter
    it returns [min limit (count_users - skip)] rows, so listing pages meet
    the count.  [count_users] without a filter is the number of rows, and
    on a table that satisfies its constraints the active and the inactive
    users add up to it. *)
Theorem get_users_y_count_users (lower : string -> string)
    (db : gmap string Service.Usuario) (skip limit : nat)
    (a : option bool) (r : option string) :
  Service.consistente lower db ->
  length (Service.get_users db skip limit a r) <= limit
  /\ (forall u, u ∈ Service.get_users db skip limit a r ->
        (exists k, db !! k = Some u)
        /\ (forall b, a = Some b -> Service.activo u = Some b)
        /\ (forall s, r = Some s -> Service.role u = Some s))
  /\ length (Service.get_users db skip limit a None)
     = Nat.min limit (Service.count_users db a - skip)
  /\ Service.count_users db None = size db
  /\ Service.count_users db (Some true) + Service.count_users db (Some false)
     = size db.
Proof.
  intros Hc. split; [|split; [|split; [|split]]].
  - unfold Service.get_users. rewrite length_take. lia.
  - intros u Hu. unfold Service.get_users in Hu.
    apply elem_of_take in Hu as (i & Hu & _).
    rewrite lookup_drop in Hu. apply list_elem_of_lookup_2 in Hu.
    apply all_elem in Hu as [Hk Hf]. apply andb_true_iff in Hf as [H1 H2].
    split; [done|]. split.
    + intros b ->. by apply bool_decide_eq_true in H1.
    + intros s ->. by apply bool_decide_eq_true in H2.
  - apply get_users_count.
  - apply all_true_length.
  - unfold Service.count_users, Service.all. rewrite filter_particion.
    + rewrite length_map. apply length_map_to_list.
    + apply Forall_forall. intros u Hu. apply list_elem_of_fmap in Hu
        as ([k v] & -> & Hin). apply elem_of_map_to_list in Hin.
      destruct (Hc k v Hin) as (_ & Hnn & _). unfold Service.not_null in Hnn.
      apply andb_true_iff in Hnn as [_ Hnn].
      by apply bool_decide_eq_true in Hnn.
Qed.

Lemma get_users_y_count_users_witness :
  length (Service.get_users Service.db_ejemplo 1 5 None None) <= 5
  /\ Service.count_users Service.db_ejemplo (Some true)
     + Service.count_users Service.db_ejemplo (Some false)
     = size Service.db_ejemplo.
Proof.
  destruct (get_users_y_count_users Service.lower_ascii Service.db_ejemplo
              1 5 None None db_ejemplo_consistente)
    as (H1 & _ & _ & _ & H5).
  split; [exact H1 | exact H5].
Defined.

(** X23: the look-ups agree.  On a table that satisfies its constraints,
    a stored user is found again by its own user name, and a user found by
    name is found by its id; [user_exists] holds exactly when some stored
    row has the lower-cased name, and [email_exists] exactly when some
    stored row has the lower-cased address. *)
Theorem consultas_coherentes (lower : string -> string)
    (db : gmap string Service.Usuario) :
  Service.consistente lower db ->
  (forall k u, Service.get_user_by_id db k = Some u ->
     Service.get_user_by_username lower db (Service.username u) = Some u)
  /\ (forall name u, Service.get_user_by_username lower db name = Some u ->
        Service.get_user_by_id db (Service.id u) = Some u)
  /\ (forall name, Service.user_exists lower db name = true
        <-> exists k u, db !! k = Some u
                        /\ Service.username u = lower name)
  /\ (forall mail, Service.email_exists lower db mail = true
        <-> exists k u, db !! k = Some u
                        /\ Service.email u = Some (lower mail)).
Proof.
  intros Hc. split; [|split; [|split]].
  - intros k u Hk. apply (username_lookup lower db _ u Hc).
    exists k. split; [done|]. by destruct (Hc k u Hk) as (_ & _ & _ & -> & _).
  - intros name u H. apply (username_lookup lower db name u Hc) in H
      as (k & Hk & _).
    unfold Service.get_user_by_id. by destruct (Hc k u Hk) as (-> & _).
  - intros name. unfold Service.user_exists. rewrite bool_decide_eq_true.
    split.
    + intros [u Hu]. apply (username_lookup lower db name u Hc) in Hu
        as (k & Hk & Hn). by exists k, u.
    + intros (k & u & Hk & Hn). exists u.
      apply (username_lookup lower db name u Hc). by exists k.
  - intros mail. unfold Service.email_exists, Service.get_user_by_email.
    rewrite bool_decide_eq_true. split.
    + intros [u Hu]. apply first_Some in Hu as (k & Hk & Hf).
      apply bool_decide_eq_true in Hf. by exists k, u.
    + intros (k & u & Hk & Hm).
      destruct (Service.first _ db) as [v|] eqn:E; [by exists v|].
      pose proof (first_None _ db E k u Hk) as Hf. cbv beta in Hf.
      by apply bool_decide_eq_false in Hf.
Qed.

Lemma consultas_coherentes_witness :
  Service.user_exists Service.lower_ascii Service.db_ejemplo "Ana" = true.
Proof.
  destruct (consultas_coherentes Service.lower_ascii Service.db_ejemplo
              db_ejemplo_consistente) as (_ & _ & H & _).
  apply H. destruct (Service.db_ejemplo !! "u1") as [u|] eqn:E;
    [|by vm_compute in E].
  exists "u1", u. split; [done|].
  vm_compute in E. injection E as <-. by vm_compute.
Defined.

(* ===================================================================== *)
(** * auth/dependencies.py *)
(* ===================================================================== *)

Section DependenciesFacts.
Variable int_str : string -> option Z.
Variable lower : string -> string.

(** A stored, active user with the given (stored) name. *)
Local Abbreviation activo_con_nombre db name :=
  (exists k u, db !! k = Some u /\ Service.username u = name
               /\ Service.activo u = Some true).

Lemma get_current_user_casos (now : Z) (db : gmap string Service.Usuario)
    (t : Jose.token) (user : JwtAuth.UserInToken) :
  Service.consistente lower db ->
  JwtAuth.verify_token int_str now t = Returns (Some user) ->
  (Dependencies.get_current_user int_str lower now db t = Dependencies.Ok user
   /\ activo_con_nombre db (lower (JwtAuth.username user)))
  \/ (Dependencies.get_current_user int_str lower now db t
      = Dependencies.no_autorizado "Usuario no encontrado o inactivo"
      /\ ~ activo_con_nombre db (lower (JwtAuth.username user))).
Proof.
  intros Hc Hv. unfold Dependencies.get_current_user. rewrite Hv.
  destruct (Service.get_user_by_username lower db (JwtAuth.username user))
    as [u|] eqn:E.
  - pose proof E as E'.
    apply (username_lookup lower db _ u Hc) in E' as (k & Hk & Hn).
    destruct (Service.activo u) as [[]|] eqn:Ea; simpl.
    + left. split; [done|]. by exists k, u.
    + right. split; [done|]. intros (k' & u' & Hk' & Hn' & Ha').
      assert (Service.get_user_by_username lower db (JwtAuth.username user)
              = Some u') as E2
        by (apply (username_lookup lower db _ u' Hc); by exists k').
      congruence.
    + right. split; [done|]. intros (k' & u' & Hk' & Hn' & Ha').
      assert (Service.get_user_by_username lower db (JwtAuth.username user)
              = Some u') as E2
        by (apply (username_lookup lower db _ u' Hc); by exists k').
      congruence.
  - right. split; [done|]. intros (k' & u' & Hk' & Hn' & Ha').
    by apply (proj1 (username_lookup_None lower db _) E k' u' Hk').
Qed.

(** The dependency reads the table only to see whether an active user
    with the name of the token is stored. *)
Lemma get_current_user_ext (now : Z) (db db' : gmap string Service.Usuario)
    (t : Jose.token) :
  Service.consistente lower db -> Service.consistente lower db' ->
  (forall name, activo_con_nombre db name <-> activo_con_nombre db' name) ->
  Dependencies.get_current_user int_str lower now db t
  = Dependencies.get_current_user int_str lower now db' t.
Proof.
  intros Hc Hc' Heq.
  destruct (JwtAuth.verify_token int_str now t) as [[user|]|e] eqn:Hv.
  - destruct (get_current_user_casos now db t user Hc Hv) as [[-> H]|[-> H]];
    destruct (get_current_user_casos now db' t user Hc' Hv)
      as [[-> H']|[-> H']]; try done.
    + by apply Heq in H.
    + by apply Heq in H'.
  - unfold Dependencies.get_current_user. by rewrite Hv.
  - unfold Dependencies.get_current_user. by rewrite Hv.
Qed.

Lemma activo_con_nombre_insert (db : gmap string Service.Usuario)
    (k : string) (u u' : Service.Usuario) (name : string) :
  db !! k = Some u ->
  Service.username u' = Service.username u ->
  Service.activo u' = Service.activo u ->
  activo_con_nombre (<[k := u']> db) name <-> activo_con_nombre db name.
Proof.
  intros Hk Hn Ha. split.
  - intros (k1 & u1 & H1 & Hn1 & Ha1).
    apply lookup_insert_Some in H1 as [[<- <-]|[Hne H1]].
    + exists k, u. split; [done|]. split; congruence.
    + by exists k1, u1.
  - intros (k1 & u1 & H1 & Hn1 & Ha1).
    destruct (decide (k1 = k)) as [->|Hne].
    + exists k, u'. rewrite lookup_insert_eq. split; [done|].
      split; congruence.
    + exists k1, u1. by rewrite lookup_insert_ne.
Qed.

Lemma fold_setattr_activo (l : list Service.item) (u : Service.Usuario) :
  Forall (fun i => forall v, i <> Service.I_activo v) l ->
  Service.activo (fold_left Service.setattr l u) = Service.activo u.
Proof.
  intros H. revert u. induction H as [|i l Hi _ IH]; intros u; [done|].
  simpl. rewrite IH. destruct i; try done. by destruct (Hi v).
Qed.

Lemma model_dump_sin_activo (d : Service.UsuarioUpdate) :
  Service.u_activo d = None ->
  Forall (fun i => forall v, i <> Service.I_activo v)
         (Service.model_dump_exclude_unset d).
Proof.
  destruct d as [e n r a c tu tv]. simpl. intros ->.
  unfold Service.model_dump_exclude_unset. simpl.
  repeat (apply Forall_app; split);
    match goal with |- Forall _ (option_list (_ <$> ?o)) =>
      destruct o; simpl; [apply Forall_cons; split; [done|]|];
      apply Forall_nil_2
    end || apply Forall_nil_2.
Qed.

Lemma get_current_user_update_user (now now' : Z)
    (db : gmap string Service.Usuario) (k : string)
    (d : Service.UsuarioUpdate) (t : Jose.token) :
  Service.consistente lower db -> Service.u_activo d = None ->
  Dependencies.get_current_user int_str lower now'
    (fst (Service.update_user now db k d)) t
  = Dependencies.get_current_user int_str lower now' db t.
Proof.
  intros Hc Hd. symmetry. apply get_current_user_ext; [done| |].
  - by apply consistente_update_user.
  - intros name. unfold Service.update_user, Service.get_user_by_id.
    destruct (db !! k) as [u|] eqn:Hk; [|done]. cbv zeta.
    destruct (fold_setattr_id_username (Service.model_dump_exclude_unset d) u)
      as [_ Hn].
    pose proof (fold_setattr_activo _ u (model_dump_sin_activo d Hd)) as Ha.
    unfold Service.commit.
    destruct (bool_decide _); [done|].
    destruct (_ && _); [|done]. simpl fst. symmetry.
    by apply (activo_con_nombre_insert db k u).
Qed.
Lemma get_current_user_401 (now : Z) (db : gmap string Service.Usuario)
    (t : Jose.token) (c : Z) (d : string) (h : list (string * string)) :
  Dependencies.get_current_user int_str lower now db t
  = Dependencies.HTTPException c d h ->
  c = 401%Z /\ h = [("WWW-Authenticate", "Bearer")].
Proof.
  unfold Dependencies.get_current_user.
  destruct (JwtAuth.verify_token int_str now t) as [[user|]|e]; [| |done].
  - destruct (Service.get_user_by_username lower db _) as [u|].
    + destruct (negb _); [|done]. by intros [= <- _ <-].
    + by intros [= <- _ <-].
  - by intros [= <- _ <-].
Qed.
End DependenciesFacts.

(** X24: [get_current_user] on a table that satisfies its constraints.
    It returns the user of the token exactly when [verify_token] accepts
    the token and a stored user with that name, lower-cased, is active.
    Every HTTP error it raises is a 401 with the [WWW-Authenticate: Bearer]
    header, and the only other exception is one that [verify_token]
    raised. *)
Theorem get_current_user_caracterizacion (int_str : string -> option Z)
    (lower : string -> string)
    (now : Z) (db : gmap string Service.Usuario) (t : Jose.token) :
  Service.consistente lower db ->
  (forall user,
     Dependencies.get_current_user int_str lower now db t = Dependencies.Ok user
     <-> JwtAuth.verify_token int_str now t = Returns (Some user)
         /\ exists k u, db !! k = Some u
              /\ Service.username u = lower (JwtAuth.username user)
              /\ Service.activo u = Some true)
  /\ (forall c d h,
        Dependencies.get_current_user int_str lower now db t
        = Dependencies.HTTPException c d h ->
        c = 401%Z /\ h = [("WWW-Authenticate", "Bearer")])
  /\ (forall e,
        Dependencies.get_current_user int_str lower now db t = Dependencies.Error e
        <-> JwtAuth.verify_token int_str now t = Raises e).
Proof.
  intros Hc.
  destruct (JwtAuth.verify_token int_str now t) as [[user'|]|e'] eqn:Hv.
  - destruct (get_current_user_casos int_str lower now db t user' Hc Hv)
      as [[-> H]|[-> H]].
    + split; [|split]; [|done|done].
      intros user. split; [by intros [= <-] | by intros [[= <-] _]].
    + split; [|split].
      * intros user. split; [done|]. intros [[= <-] H']. by destruct H.
      * by intros c d h [= <- _ <-].
      * done.
  - unfold Dependencies.get_current_user. rewrite Hv.
    split; [|split]; [by split; [|intros []]| |done].
    by intros c d h [= <- _ <-].
  - unfold Dependencies.get_current_user. rewrite Hv.
    split; [|split]; [by split; [|intros []]|done|].
    intros e. split; congruence.
Qed.

Lemma get_current_user_caracterizacion_witness :
  Dependencies.get_current_user Jose.int_str_ejemplo Service.lower_ascii 1500000000 Service.db_ejemplo
    (JwtAuth.token_ejemplo "Luis" "user")
  = Dependencies.Ok {| JwtAuth.username := "Luis"; JwtAuth.role := "user" |}.
Proof.
  apply (get_current_user_caracterizacion Jose.int_str_ejemplo
           Service.lower_ascii 1500000000 Service.db_ejemplo _
           db_ejemplo_consistente).
  split; [by vm_compute|].
  destruct (Service.db_ejemplo !! "u2") as [u|] eqn:E; [|by vm_compute in E].
  exists "u2", u. split; [done|].
  vm_compute in E. injection E as <-. by vm_compute.
Defined.

(** X25: the role is the token's.  [get_current_user] reads the table only
    to see that the user is stored and active, so an [update_user] that
    does not set the active flag (a change of role, e-mail address, name or
    Telegram fields, succeeding or not) changes nothing in what the
    dependency answers for any token: a token issued before a change of
    role keeps its role until it expires. *)
Theorem get_current_user_rol_del_token (int_str : string -> option Z)
    (lower : string -> string)
    (now now' : Z) (db : gmap string Service.Usuario) (k : string)
    (d : Service.UsuarioUpdate) (t : Jose.token) :
  Service.consistente lower db -> Service.u_activo d = None ->
  Dependencies.get_current_user int_str lower now'
    (fst (Service.update_user now db k d)) t
  = Dependencies.get_current_user int_str lower now' db t.
Proof. apply get_current_user_update_user. Qed.

Lemma get_current_user_rol_del_token_witness :
  Dependencies.get_current_user Jose.int_str_ejemplo Service.lower_ascii 1500000000
    (fst (Service.update_user 1200 Service.db_ejemplo "u1"
            (Service.solo_role (Some "viewer"))))
    (JwtAuth.token_ejemplo "ana" "admin")
  = Dependencies.get_current_user Jose.int_str_ejemplo Service.lower_ascii 1500000000
      Service.db_ejemplo
      (JwtAuth.token_ejemplo "ana" "admin").
Proof.
  apply get_current_user_rol_del_token;
    [apply db_ejemplo_consistente | reflexivity].
Defined.

(** X26: a deactivated or removed user is refused although the token is
    still valid.  After [delete_user] or [hard_delete_user] of a stored
    user, every token that [verify_token] accepts for that user's name gets
    the 401 "Usuario no encontrado o inactivo" from [get_current_user], and
    [get_optional_user] answers [None]. *)
Theorem usuario_eliminado_rechazado (int_str : string -> option Z)
    (lower : string -> string)
    (now now' : Z) (db : gmap string Service.Usuario) (k : string)
    (u : Service.Usuario) (t : Jose.token) (user : JwtAuth.UserInToken) :
  Service.consistente lower db -> db !! k = Some u ->
  JwtAuth.verify_token int_str now' t = Returns (Some user) ->
  lower (JwtAuth.username user) = Service.username u ->
  (forall db', db' = fst (Service.delete_user now db k)
               \/ db' = fst (Service.hard_delete_user db k) ->
     Dependencies.get_current_user int_str lower now' db' t
     = Dependencies.HTTPException 401 "Usuario no encontrado o inactivo"
         [("WWW-Authenticate", "Bearer")]
     /\ Dependencies.get_optional_user int_str lower now' db' (Some t)
        = Returns None).
Proof.
  intros Hc Hk Hv Hn db' Hdb'.
  destruct (Hc k u Hk) as (_ & _ & _ & _ & Hun).
  unfold Dependencies.get_current_user, Dependencies.get_optional_user.
  rewrite Hv.
  destruct Hdb' as [-> | ->].
  - destruct (delete_user_efecto lower now db k u Hc Hk)
      as (u' & -> & Hc' & Ha & _ & Hn' & _). simpl fst.
    rewrite (proj2 (username_lookup lower _ (JwtAuth.username user) u' Hc')).
    + by rewrite Ha.
    + exists k. split; [apply lookup_insert_eq | congruence].
  - unfold Service.hard_delete_user, Service.get_user_by_id. rewrite Hk.
    simpl fst.
    rewrite (proj2 (username_lookup_None lower _ (JwtAuth.username user)));
      [done|].
    intros k1 u1 H1 Hn1. apply lookup_delete_Some in H1 as [Hne H1].
    apply Hne. symmetry. apply (Hun k1 u1 H1). congruence.
Qed.

Lemma usuario_eliminado_rechazado_witness :
  Dependencies.get_current_user Jose.int_str_ejemplo Service.lower_ascii 1500000000
    (fst (Service.delete_user 1200 Service.db_ejemplo "u2"))
    (JwtAuth.token_ejemplo "Luis" "user")
  = Dependencies.HTTPException 401 "Usuario no encontrado o inactivo"
      [("WWW-Authenticate", "Bearer")].
Proof.
  destruct (Service.db_ejemplo !! "u2") as [u|] eqn:E; [|by vm_compute in E].
  refine (proj1 (usuario_eliminado_rechazado Jose.int_str_ejemplo
                   Service.lower_ascii 1200 1500000000
                   Service.db_ejemplo "u2" u _
                   {| JwtAuth.username := "Luis"; JwtAuth.role := "user" |}
                   db_ejemplo_consistente E _ _ _ (or_introl eq_refl))).
  - by vm_compute.
  - vm_compute in E. injection E as <-. by vm_compute.
Defined.

(** X27: [require_role].  The role check runs after authentication: the
    checker returns the user exactly when [get_current_user] returns it and
    its role is one of the allowed roles; it raises 403 exactly when
    [get_current_user] returns a user whose role is not allowed; and every
    401 or exception of [get_current_user] passes through unchanged.
    Allowing more roles never refuses a user that was accepted, so whoever
    passes [require_admin] passes [require_user], and whoever passes
    [require_user] passes [require_viewer]. *)
Theorem require_role_capas (int_str : string -> option Z)
    (lower : string -> string)
    (allowed_roles : list string) (now : Z)
    (db : gmap string Service.Usuario) (t : Jose.token) :
  (forall user,
     Dependencies.require_role int_str lower allowed_roles now db t
     = Dependencies.Ok user
     <-> Dependencies.get_current_user int_str lower now db t = Dependencies.Ok user
         /\ JwtAuth.role user ∈ allowed_roles)
  /\ (forall d h,
        Dependencies.require_role int_str lower allowed_roles now db t
        = Dependencies.HTTPException 403 d h
        <-> exists user,
              Dependencies.get_current_user int_str lower now db t
              = Dependencies.Ok user
              /\ (JwtAuth.role user ∉ allowed_roles)
              /\ d = ("Acceso denegado. Se requiere rol: "
                      +:+ String.concat ", " allowed_roles)
              /\ h = [])
  /\ (forall c d h,
        Dependencies.get_current_user int_str lower now db t
        = Dependencies.HTTPException c d h ->
        Dependencies.require_role int_str lower allowed_roles now db t
        = Dependencies.HTTPException c d h)
  /\ (forall e,
        Dependencies.get_current_user int_str lower now db t = Dependencies.Error e ->
        Dependencies.require_role int_str lower allowed_roles now db t
        = Dependencies.Error e)
  /\ (forall roles' user,
        allowed_roles ⊆ roles' ->
        Dependencies.require_role int_str lower allowed_roles now db t
        = Dependencies.Ok user ->
        Dependencies.require_role int_str lower roles' now db t
        = Dependencies.Ok user)
  /\ (forall user,
        (Dependencies.require_admin int_str lower now db t = Dependencies.Ok user ->
         Dependencies.require_user int_str lower now db t = Dependencies.Ok user)
        /\ (Dependencies.require_user int_str lower now db t = Dependencies.Ok user ->
            Dependencies.require_viewer int_str lower now db t
            = Dependencies.Ok user)).
Proof.
  assert (forall roles user,
            Dependencies.require_role int_str lower roles now db t
            = Dependencies.Ok user
            <-> Dependencies.get_current_user int_str lower now db t
                = Dependencies.Ok user
                /\ JwtAuth.role user ∈ roles) as Hok.
  { intros roles user. unfold Dependencies.require_role.
    destruct (Dependencies.get_current_user int_str lower now db t)
      as [user'|c d h|e]; [|by split; [|intros []]|by split; [|intros []]].
    destruct (decide (JwtAuth.role user' ∈ roles)) as [Hin|Hin].
    - rewrite (bool_decide_eq_true_2 _ Hin). simpl.
      split; [by intros [= <-] | by intros [[= <-] _]].
    - rewrite (bool_decide_eq_false_2 _ Hin). simpl.
      split; [done | by intros [[= <-] ?]]. }
  assert (forall roles roles' user, roles ⊆ roles' ->
            Dependencies.require_role int_str lower roles now db t
            = Dependencies.Ok user ->
            Dependencies.require_role int_str lower roles' now db t
            = Dependencies.Ok user) as Hmono.
  { intros roles roles' user Hsub H. apply Hok in H as [H Hin].
    apply Hok. split; [done|]. by apply Hsub. }
  split; [apply Hok|]. split; [|split; [|split; [|split]]].
  - intros d h. unfold Dependencies.require_role.
    destruct (Dependencies.get_current_user int_str lower now db t)
      as [user'|c d' h'|e] eqn:Hg.
    + destruct (decide (JwtAuth.role user' ∈ allowed_roles)) as [Hin|Hin].
      * rewrite (bool_decide_eq_true_2 _ Hin). simpl.
        split; [done|]. by intros (user & [= <-] & Hn & _).
      * rewrite (bool_decide_eq_false_2 _ Hin). simpl. split.
        -- intros [= <- <-]. by exists user'.
        -- by intros (user & [= <-] & _ & -> & ->).
    + split; [|by intros (? & ? & _)].
      intros [= -> _ _]. by destruct (get_current_user_401 int_str lower now db t
                                        403 d' h' Hg).
    + split; [done | by intros (? & ? & _)].
  - intros c d h H. unfold Dependencies.require_role. by rewrite H.
  - intros e H. unfold Dependencies.require_role. by rewrite H.
  - intros roles' user. apply Hmono.
  - intros user.
    split; apply Hmono; apply (bool_decide_unpack _); by vm_compute.
Qed.

Lemma require_role_capas_witness :
  Dependencies.require_admin Jose.int_str_ejemplo Service.lower_ascii 1500000000 Service.db_ejemplo
    (JwtAuth.token_ejemplo "luis" "user")
  = Dependencies.HTTPException 403
      "Acceso denegado. Se requiere rol: admin" []
  /\ Dependencies.require_user Jose.int_str_ejemplo Service.lower_ascii 1500000000 Service.db_ejemplo
       (JwtAuth.token_ejemplo "luis" "user")
     = Dependencies.Ok {| JwtAuth.username := "luis";
                          JwtAuth.role := "user" |}.
Proof.
  assert (Dependencies.get_current_user Jose.int_str_ejemplo Service.lower_ascii 1500000000
            Service.db_ejemplo
            (JwtAuth.token_ejemplo "luis" "user")
          = Dependencies.Ok {| JwtAuth.username := "luis";
                               JwtAuth.role := "user" |}) as Hg.
  { unfold Dependencies.get_current_user.
    assert (JwtAuth.verify_token Jose.int_str_ejemplo 1500000000
              (JwtAuth.token_ejemplo "luis" "user")
            = Returns (Some {| JwtAuth.username := "luis";
                               JwtAuth.role := "user" |})) as ->
      by by vm_compute.
    by vm_compute. }
  split.
  - apply (proj1 (proj2 (require_role_capas Jose.int_str_ejemplo
                           Service.lower_ascii ["admin"]
                           1500000000 Service.db_ejemplo _))).
    eexists. split; [exact Hg|]. split; [|split; reflexivity].
    apply (bool_decide_unpack _). by vm_compute.
  - apply (proj1 (require_role_capas Jose.int_str_ejemplo
                    Service.lower_ascii ["admin"; "user"]
                    1500000000 Service.db_ejemplo _)).
    split; [exact Hg|]. apply (bool_decide_unpack _). by vm_compute.
Defined.

(** X28: [get_optional_user] is [get_current_user] without the errors.
    With no credentials it returns [None].  With a token it returns the
    user where [get_current_user] returns it, [None] where
    [get_current_user] raises its 401, and raises only what
    [verify_token] raised; it never raises an HTTP error. *)
Theorem get_optional_user_acuerdo (int_str : string -> option Z)
    (lower : string -> string) (now : Z)
    (db : gmap string Service.Usuario) (t : Jose.token) :
  Dependencies.get_optional_user int_str lower now db None = Returns None
  /\ Dependencies.get_optional_user int_str lower now db (Some t)
     = match Dependencies.get_current_user int_str lower now db t with
       | Dependencies.Ok user => Returns (Some user)
       | Dependencies.HTTPException _ _ _ => Returns None
       | Dependencies.Error e => Raises e
       end
  /\ (forall e, Dependencies.get_optional_user int_str lower now db (Some t)
                = Raises e -> JwtAuth.verify_token int_str now t = Raises e).
Proof.
  split; [done|].
  unfold Dependencies.get_optional_user, Dependencies.get_current_user.
  destruct (JwtAuth.verify_token int_str now t) as [[user|]|e]; [| |].
  - destruct (Service.get_user_by_username lower db _) as [u|]; [|done].
    by destruct (negb _).
  - done.
  - done.
Qed.

(** X29: from login to a protected route.  On a table that satisfies its
    constraints, when [authenticate_user] returns a user, the access token
    of [create_token_pair] for that user's stored name and role is
    accepted by [get_current_user] on the same table for the thirty
    minutes of its life, with that name and role, and it passes
    [require_admin] exactly when the role is "admin". *)
Theorem login_y_acceso (int_str : string -> option Z)
    (lower : string -> string) (pw : Service.hasher)
    (now now' : Z) (db : gmap string Service.Usuario)
    (name password : string) (u : Service.Usuario) (r : string) :
  Service.consistente lower db ->
  Service.authenticate_user lower pw db name password = Returns (Some u) ->
  Service.role u = Some r ->
  (JwtAuth.datetime_min <= now)%Z ->
  (now + JwtAuth.timedelta_days 7 <= JwtAuth.datetime_max)%Z ->
  (now' <= now + JwtAuth.timedelta_minutes 30)%Z ->
  exists pair,
    JwtAuth.create_token_pair now (Service.username u) r = Returns pair
    /\ let t := JwtAuth.access_token pair in
       let user := {| JwtAuth.username := Service.username u;
                      JwtAuth.role := r |} in
       Dependencies.get_current_user int_str lower now' db t
       = Dependencies.Ok user
       /\ (Dependencies.require_admin int_str lower now' db t
           = Dependencies.Ok user
           <-> r = "admin").
Proof.
  intros Hc Ha Hr H1 H2 Hn.
  destruct (create_token_pair_Returns now (Service.username u) r H1 H2)
    as [pair Hp].
  exists pair. split; [done|]. cbv zeta.
  assert (exists k, db !! k = Some u /\ Service.activo u = Some true)
    as (k & Hk & Hact).
  { unfold Service.authenticate_user in Ha.
    destruct (Service.get_user_by_username lower db name) as [v|] eqn:E;
      [|done].
    apply (username_lookup lower db name v Hc) in E as (k & Hk & _).
    destruct (Service.activo v) as [[]|] eqn:Ea; simpl in Ha; try done.
    destruct (Service.verify_password pw password _) as [[]|];
      simpl in Ha; try done.
    injection Ha as <-. by exists k. }
  destruct (Hc k u Hk) as (_ & _ & _ & Hl & _).
  assert (Dependencies.get_current_user int_str lower now' db
            (JwtAuth.access_token pair)
          = Dependencies.Ok {| JwtAuth.username := Service.username u;
                               JwtAuth.role := r |}) as Hg.
  { unfold Dependencies.get_current_user.
    rewrite (verify_token_pair int_str now now' (Service.username u) r
               pair Hp Hn).
    cbn [JwtAuth.username].
    rewrite (proj2 (username_lookup lower db (Service.username u) u Hc));
      [by rewrite Hact|].
    exists k. split; [done|]. by rewrite Hl. }
  split; [exact Hg|].
  unfold Dependencies.require_admin, Dependencies.require_role.
  rewrite Hg. cbn [JwtAuth.role].
  destruct (decide (r ∈ ["admin"])) as [Hin|Hin].
  - rewrite (bool_decide_eq_true_2 _ Hin). simpl.
    split; [|done]. intros _. by apply list_elem_of_singleton in Hin.
  - rewrite (bool_decide_eq_false_2 _ Hin). simpl.
    split; [done|]. intros ->. destruct Hin. by apply list_elem_of_singleton.
Qed.

Lemma login_y_acceso_witness :
  exists u pair,
    Service.db_ejemplo !! "u1" = Some u
    /\ JwtAuth.create_token_pair 1000000000 (Service.username u) "admin"
       = Returns pair
    /\ Dependencies.require_admin Jose.int_str_ejemplo Service.lower_ascii
         1500000000 Service.db_ejemplo (JwtAuth.access_token pair)
       = Dependencies.Ok {| JwtAuth.username := Service.username u;
                            JwtAuth.role := "admin" |}.
Proof.
  eassert (Service.db_ejemplo !! "u1" = Some _) as E
    by (vm_compute; reflexivity).
  match type of E with
  | _ = Some ?u =>
    destruct (login_y_acceso Jose.int_str_ejemplo Service.lower_ascii
                Service.hasher_ejemplo 1000000000 1500000000
                Service.db_ejemplo "ANA" "Secreto01" u "admin"
                db_ejemplo_consistente)
      as (pair & Hp & _ & Hadm); [by vm_compute..|]
  end.
  do 2 eexists. split; [exact E|]. split; [exact Hp|]. by apply Hadm.
Defined.
